(** * Verbosity controller and progress-indicator gate of [src/utils/logging.py]

    A shallow embedding of the module and of the part of Python's standard
    [logging] package it configures, followed by the properties of the
    module's observable contract.

    The module is stateful: it mutates the process-wide logger registry, a
    module-level handler singleton, two memoisation caches and a progress-bar
    flag.  All of that lives in one [State] record which every operation
    threads through a small state-and-exception monad [M]. *)

From Stdlib Require Import ZArith Ascii String.
From stdpp Require Import gmap strings list.

Local Open Scope string_scope.
Local Open Scope list_scope.
Local Open Scope Z_scope.

(** ** Python values the module handles *)

(** Severity levels are the integer constants of [logging]. *)
Definition CRITICAL : Z := 50.
Definition FATAL : Z := CRITICAL.
Definition ERROR : Z := 40.
Definition WARNING : Z := 30.
Definition WARN : Z := WARNING.
Definition INFO : Z := 20.
Definition DEBUG : Z := 10.
Definition NOTSET : Z := 0.

(** A handler is a heap object; [handler in handlers] compares by identity,
    so a handler is represented by its address. *)
Definition Handler := nat.

Inductive Stream :=
  | OriginalStderr
  | DevNull
  | OtherStream (fd : nat).

(** The [flush] attribute of a handler: the method of its class, or the
    bound [flush] of a stream assigned over it. *)
Inductive Flush :=
  | OwnFlush
  | FlushOf (s : Stream).

Record HandlerObj := mkHandlerObj {
  h_level : Z;
  h_formatter : option string;
  h_stream : option Stream;
  h_flush : Flush;
}.

Inductive LoggerRef :=
  | RootLogger
  | Named (name : string).

Record Logger := mkLogger {
  handlers : list Handler;
  level : Z;
  propagate : bool;
  parent : option LoggerRef;
  disabled : bool;
}.

(** An entry of [Manager.loggerDict]: a logger, or a placeholder recording
    the loggers created below a name that has no logger yet. *)
Inductive Node :=
  | NLogger (l : Logger)
  | NPlaceHolder (children : list string).

Record LogRecord := mkLogRecord {
  rec_logger : LoggerRef;
  levelno : Z;
  msg : string;
  rec_args : list string;
}.

Inductive Sink :=
  | ToHandler (h : Handler)
  | ToLastResort.

(** One record handled by a logger, with the handlers it was passed to. *)
Record Emission := mkEmission {
  record : LogRecord;
  sinks : list Sink;
}.

(** Key of a [functools.lru_cache] entry: the positional arguments of the
    call, [self] first.  Calls are modelled with positional string
    arguments only (all hashable); keyword arguments are left out. *)
Definition CacheKey : Type := LoggerRef * list string.

#[global] Instance Stream_eq_dec : EqDecision Stream.
Proof. solve_decision. Defined.
#[global] Instance Flush_eq_dec : EqDecision Flush.
Proof. solve_decision. Defined.
#[global] Instance LoggerRef_eq_dec : EqDecision LoggerRef.
Proof. solve_decision. Defined.
#[global] Instance LogRecord_eq_dec : EqDecision LogRecord.
Proof. solve_decision. Defined.
#[global] Instance Sink_eq_dec : EqDecision Sink.
Proof. solve_decision. Defined.

(** ** Process state *)

(** A call made into [huggingface_hub.utils].  The library is not part of
    the repository: the state keeps the calls the module makes into it,
    and not what the library does with them. *)
Inductive HubCall :=
  | HubEnableProgressBars
  | HubDisableProgressBars.

Record State := mkState {
  environ : gmap string string;          (* os.environ *)
  sys_stderr : option Stream;            (* sys.stderr *)
  heap : gmap Handler HandlerObj;        (* the logging.Handler objects alive *)
  root : Logger;                         (* logging.root *)
  loggerDict : gmap string Node;         (* logging.Logger.manager.loggerDict *)
  manager_disable : Z;                   (* logging.Logger.manager.disable *)
  warnings_captured : bool;              (* set by logging.captureWarnings *)
  emitted : list Emission;               (* records handled so far, oldest first *)
  _default_handler : option Handler;
  _tqdm_active : bool;
  hub_calls : list HubCall;              (* calls into huggingface_hub.utils, oldest first *)
  warning_once_cache : list CacheKey;
  info_once_cache : list CacheKey;
}.

Definition with_sys_stderr (v : option Stream) (st : State) : State :=
  mkState (environ st) v (heap st) (root st) (loggerDict st)
    (manager_disable st) (warnings_captured st) (emitted st)
    (_default_handler st) (_tqdm_active st) (hub_calls st)
    (warning_once_cache st) (info_once_cache st).

Definition with_heap (v : gmap Handler HandlerObj) (st : State) : State :=
  mkState (environ st) (sys_stderr st) v (root st) (loggerDict st)
    (manager_disable st) (warnings_captured st) (emitted st)
    (_default_handler st) (_tqdm_active st) (hub_calls st)
    (warning_once_cache st) (info_once_cache st).

Definition with_root (v : Logger) (st : State) : State :=
  mkState (environ st) (sys_stderr st) (heap st) v (loggerDict st)
    (manager_disable st) (warnings_captured st) (emitted st)
    (_default_handler st) (_tqdm_active st) (hub_calls st)
    (warning_once_cache st) (info_once_cache st).

Definition with_loggerDict (v : gmap string Node) (st : State) : State :=
  mkState (environ st) (sys_stderr st) (heap st) (root st) v
    (manager_disable st) (warnings_captured st) (emitted st)
    (_default_handler st) (_tqdm_active st) (hub_calls st)
    (warning_once_cache st) (info_once_cache st).

Definition with_warnings_captured (v : bool) (st : State) : State :=
  mkState (environ st) (sys_stderr st) (heap st) (root st) (loggerDict st)
    (manager_disable st) v (emitted st)
    (_default_handler st) (_tqdm_active st) (hub_calls st)
    (warning_once_cache st) (info_once_cache st).

Definition with_emitted (v : list Emission) (st : State) : State :=
  mkState (environ st) (sys_stderr st) (heap st) (root st) (loggerDict st)
    (manager_disable st) (warnings_captured st) v
    (_default_handler st) (_tqdm_active st) (hub_calls st)
    (warning_once_cache st) (info_once_cache st).

Definition with_default_handler (v : option Handler) (st : State) : State :=
  mkState (environ st) (sys_stderr st) (heap st) (root st) (loggerDict st)
    (manager_disable st) (warnings_captured st) (emitted st)
    v (_tqdm_active st) (hub_calls st)
    (warning_once_cache st) (info_once_cache st).

Definition with_tqdm_active (v : bool) (st : State) : State :=
  mkState (environ st) (sys_stderr st) (heap st) (root st) (loggerDict st)
    (manager_disable st) (warnings_captured st) (emitted st)
    (_default_handler st) v (hub_calls st)
    (warning_once_cache st) (info_once_cache st).

Definition with_hub_calls (v : list HubCall) (st : State) : State :=
  mkState (environ st) (sys_stderr st) (heap st) (root st) (loggerDict st)
    (manager_disable st) (warnings_captured st) (emitted st)
    (_default_handler st) (_tqdm_active st) v
    (warning_once_cache st) (info_once_cache st).

Definition with_warning_once_cache (v : list CacheKey) (st : State) : State :=
  mkState (environ st) (sys_stderr st) (heap st) (root st) (loggerDict st)
    (manager_disable st) (warnings_captured st) (emitted st)
    (_default_handler st) (_tqdm_active st) (hub_calls st)
    v (info_once_cache st).

Definition with_info_once_cache (v : list CacheKey) (st : State) : State :=
  mkState (environ st) (sys_stderr st) (heap st) (root st) (loggerDict st)
    (manager_disable st) (warnings_captured st) (emitted st)
    (_default_handler st) (_tqdm_active st) (hub_calls st)
    (warning_once_cache st) v.

(** ** The state-and-exception monad *)

Inductive exn :=
  | AssertionError
  | TypeError.

Inductive outcome (A : Type) :=
  | Returned (a : A)
  | Raised (e : exn).
Arguments Returned {A} a.
Arguments Raised {A} e.

(** A computation ends in a value or an exception; the state it leaves
    behind is kept in both cases, as the mutations made before a [raise]
    are. *)
Definition M (A : Type) : Type := State -> outcome A * State.

Definition ret {A} (a : A) : M A := fun st => (Returned a, st).

Definition bind {A B} (c : M A) (k : A -> M B) : M B :=
  fun st =>
    match c st with
    | (Returned a, st') => k a st'
    | (Raised e, st') => (Raised e, st')
    end.

Definition raise {A} (e : exn) : M A := fun st => (Raised e, st).
Definition gets {A} (f : State -> A) : M A := fun st => (Returned (f st), st).
Definition modify (f : State -> State) : M unit := fun st => (Returned tt, f st).

Notation "'let!' x ':=' c 'in' k" := (bind c (fun x => k))
  (at level 10, x name, c at level 100, k at level 200).
Notation "c1 '>>' c2" := (bind c1 (fun _ => c2))
  (at level 100, c2 at level 200, right associativity).

(** [assert cond], with assertions enabled. *)
Definition assert (cond : bool) : M unit :=
  if cond then ret tt else raise AssertionError.

(** The state a computation leaves, and its result. *)
Definition exec {A} (c : M A) (st : State) : State := snd (c st).
Definition eval {A} (c : M A) (st : State) : outcome A := fst (c st).

(** ** The standard [logging] package, as far as the module drives it

    The definitions of this section follow CPython's [logging/__init__.py]
    (3.9 and later).  Filters, the record factory and the locks of the
    package are left out: the module never touches them and runs its
    mutations in one thread of control. *)

Definition set_handlers (v : list Handler) (l : Logger) : Logger :=
  mkLogger v (level l) (propagate l) (parent l) (disabled l).
Definition set_level (v : Z) (l : Logger) : Logger :=
  mkLogger (handlers l) v (propagate l) (parent l) (disabled l).
Definition set_propagate (v : bool) (l : Logger) : Logger :=
  mkLogger (handlers l) (level l) v (parent l) (disabled l).
Definition set_parent (v : option LoggerRef) (l : Logger) : Logger :=
  mkLogger (handlers l) (level l) (propagate l) v (disabled l).

Definition set_formatter (v : option string) (h : HandlerObj) : HandlerObj :=
  mkHandlerObj (h_level h) v (h_stream h) (h_flush h).
Definition set_flush (v : Flush) (h : HandlerObj) : HandlerObj :=
  mkHandlerObj (h_level h) (h_formatter h) (h_stream h) v.

(** [Logger.__init__(name)] *)
Definition new_logger : Logger := mkLogger [] NOTSET true None false.

(** The logger object behind a reference.  A reference always points to a
    live logger in Python; the default only makes the function total. *)
Definition logger_at (r : LoggerRef) (st : State) : Logger :=
  match r with
  | RootLogger => root st
  | Named n =>
      match loggerDict st !! n with
      | Some (NLogger l) => l
      | _ => new_logger
      end
  end.

Definition update_logger (r : LoggerRef) (f : Logger -> Logger) (st : State) : State :=
  match r with
  | RootLogger => with_root (f (root st)) st
  | Named n =>
      match loggerDict st !! n with
      | Some (NLogger l) => with_loggerDict (<[n := NLogger (f l)]> (loggerDict st)) st
      | _ => st
      end
  end.

Definition logger_name (r : LoggerRef) : string :=
  match r with
  | RootLogger => "root"
  | Named n => n
  end.

(** [list.remove(x)]: drops the first occurrence. *)
Fixpoint list_remove_first (x : Handler) (l : list Handler) : list Handler :=
  match l with
  | [] => []
  | y :: l' => if decide (x = y) then l' else y :: list_remove_first x l'
  end.

(** The body of [Logger.addHandler]: appends unless already present. *)
Definition attach (hdlr : Handler) (l : Logger) : Logger :=
  if decide (hdlr ∈ handlers l) then l
  else set_handlers (handlers l ++ [hdlr]) l.

(** The body of [Logger.removeHandler]: removes if present. *)
Definition detach (hdlr : Handler) (l : Logger) : Logger :=
  if decide (hdlr ∈ handlers l)
  then set_handlers (list_remove_first hdlr (handlers l)) l
  else l.

Definition Logger_addHandler (r : LoggerRef) (hdlr : Handler) : M unit :=
  modify (update_logger r (attach hdlr)).

Definition Logger_removeHandler (r : LoggerRef) (hdlr : Handler) : M unit :=
  modify (update_logger r (detach hdlr)).

(** [Logger.setLevel] with an integer level. *)
Definition Logger_setLevel (r : LoggerRef) (lvl : Z) : M unit :=
  modify (update_logger r (set_level lvl)).

(** Bound on the number of loggers from [r] up to the root: the name of a
    parent is shorter than the name of its child, and the root comes
    last. *)
Definition chain_fuel (r : LoggerRef) : nat := S (S (String.length (logger_name r))).

(** The loop of [Logger.getEffectiveLevel]: the first non-zero level on the
    way to the root. *)
Fixpoint effective_level_walk (fuel : nat) (st : State) (logger : option LoggerRef) : Z :=
  match logger with
  | None => NOTSET
  | Some r =>
      match fuel with
      | O => NOTSET
      | S fuel' =>
          let l := logger_at r st in
          if decide (level l = 0) then effective_level_walk fuel' st (parent l)
          else level l
      end
  end.

Definition Logger_getEffectiveLevel (r : LoggerRef) (st : State) : Z :=
  effective_level_walk (chain_fuel r) st (Some r).

Definition Logger_isEnabledFor (r : LoggerRef) (lvl : Z) (st : State) : bool :=
  if disabled (logger_at r st) then false
  else if bool_decide (lvl <= manager_disable st) then false
  else bool_decide (Logger_getEffectiveLevel r st <= lvl).

Definition handler_level (h : Handler) (st : State) : Z :=
  match heap st !! h with
  | Some o => h_level o
  | None => NOTSET
  end.

(** The loop of [Logger.callHandlers]: the handlers that take the record,
    and the number of handlers met. *)
Fixpoint callHandlers_walk (fuel : nat) (st : State) (c : option LoggerRef)
    (lvl : Z) : list Sink * nat :=
  match c with
  | None => ([], O)
  | Some r =>
      match fuel with
      | O => ([], O)
      | S fuel' =>
          let l := logger_at r st in
          let here :=
            filter (fun h => handler_level h st <= lvl) (handlers l) in
          let up :=
            if propagate l then callHandlers_walk fuel' st (parent l) lvl
            else ([], O) in
          ((ToHandler <$> here) ++ up.1, (length (handlers l) + up.2)%nat)
      end
  end.

(** [Logger.callHandlers]: when no handler was met at all, the handler of
    last resort (level WARNING) is used. *)
Definition Logger_callHandlers (r : LoggerRef) (lvl : Z) (st : State) : list Sink :=
  let '(taken, found) := callHandlers_walk (chain_fuel r) st (Some r) lvl in
  match found with
  | O => if bool_decide (WARNING <= lvl) then [ToLastResort] else []
  | S _ => taken
  end.

(** [Logger._log] followed by [Logger.handle]. *)
Definition Logger_log (r : LoggerRef) (lvl : Z) (m : string) (args : list string) : M unit :=
  modify (fun st =>
    with_emitted
      (emitted st ++ [mkEmission (mkLogRecord r lvl m args) (Logger_callHandlers r lvl st)])
      st).

(** [Logger.warning(msg, *args)], called with the whole argument tuple
    unpacked: the message is its first element and is required. *)
Definition Logger_warning (self : LoggerRef) (args : list string) : M unit :=
  match args with
  | [] => raise TypeError
  | m :: rest =>
      let! enabled := gets (Logger_isEnabledFor self WARNING) in
      if enabled then Logger_log self WARNING m rest else ret tt
  end.

(** [Logger.info(msg, *args)] *)
Definition Logger_info (self : LoggerRef) (args : list string) : M unit :=
  match args with
  | [] => raise TypeError
  | m :: rest =>
      let! enabled := gets (Logger_isEnabledFor self INFO) in
      if enabled then Logger_log self INFO m rest else ret tt
  end.

(** [name.rfind(".", 0, stop)]: index of the last dot before [stop], or -1. *)
Fixpoint rfind_dot_from (s : string) (idx stop : nat) (last : Z) : Z :=
  match s with
  | EmptyString => last
  | String c s' =>
      if (idx <? stop)%nat
      then rfind_dot_from s' (S idx) stop
             (if Ascii.eqb c "."%char then Z.of_nat idx else last)
      else last
  end.

Definition rfind_dot (s : string) (stop : nat) : Z := rfind_dot_from s O stop (-1).

(** [PlaceHolder.append] *)
Definition placeholder_append (c : string) (children : list string) : list string :=
  if decide (c ∈ children) then children else children ++ [c].

(** The loop of [Manager._fixupParents]: walks the dotted prefixes of [name]
    from the longest, leaving placeholders, until a logger is met. *)
Fixpoint fixupParents_loop (fuel : nat) (name : string) (i : Z)
    (dict : gmap string Node) : option LoggerRef * gmap string Node :=
  match fuel with
  | O => (None, dict)
  | S fuel' =>
      if bool_decide (0 < i) then
        let substr := substring 0 (Z.to_nat i) name in
        let next := rfind_dot name (Z.to_nat (i - 1)) in
        match dict !! substr with
        | None =>
            fixupParents_loop fuel' name next (<[substr := NPlaceHolder [name]]> dict)
        | Some (NLogger _) => (Some (Named substr), dict)
        | Some (NPlaceHolder cs) =>
            fixupParents_loop fuel' name next
              (<[substr := NPlaceHolder (placeholder_append name cs)]> dict)
        end
      else (None, dict)
  end.

(** [Manager._fixupParents(alogger)] *)
Definition Manager_fixupParents (name : string) : M unit :=
  modify (fun st =>
    let '(rv, dict) :=
      fixupParents_loop (String.length name) name
        (rfind_dot name (String.length name)) (loggerDict st) in
    let rv := match rv with Some p => p | None => RootLogger end in
    update_logger (Named name) (set_parent (Some rv)) (with_loggerDict dict st)).

(** One turn of the loop of [Manager._fixupChildren] on the child [c]:
    unless the child's parent already lies below [name], the new logger
    takes that parent and becomes the child's parent. *)
Definition fixupChildren_step (name : string) (st : State) (c : string) : State :=
  match parent (logger_at (Named c) st) with
  | Some p =>
      if decide (substring 0 (String.length name) (logger_name p) = name) then st
      else update_logger (Named c) (set_parent (Some (Named name)))
             (update_logger (Named name) (set_parent (Some p)) st)
  | None => st
  end.

(** [Manager._fixupChildren(ph, alogger)] *)
Definition Manager_fixupChildren (children : list string) (name : string) : M unit :=
  modify (fun st => fold_left (fixupChildren_step name) children st).

(** [Manager.getLogger(name)] *)
Definition Manager_getLogger (name : string) : M LoggerRef :=
  let! dict := gets loggerDict in
  match dict !! name with
  | Some (NLogger _) => ret (Named name)
  | Some (NPlaceHolder children) =>
      modify (fun st => with_loggerDict (<[name := NLogger new_logger]> (loggerDict st)) st) >>
      Manager_fixupChildren children name >>
      Manager_fixupParents name >>
      ret (Named name)
  | None =>
      modify (fun st => with_loggerDict (<[name := NLogger new_logger]> (loggerDict st)) st) >>
      Manager_fixupParents name >>
      ret (Named name)
  end.

(** [logging.getLogger(name=None)]: no name, the empty name and the root's
    own name give the root logger. *)
Definition logging_getLogger (name : option string) : M LoggerRef :=
  match name with
  | None => ret RootLogger
  | Some n =>
      if decide (n = "" ∨ n = "root") then ret RootLogger
      else Manager_getLogger n
  end.

(** [logging.captureWarnings(capture)] *)
Definition _captureWarnings (capture : bool) : M unit :=
  modify (with_warnings_captured capture).

(** [logging.StreamHandler()]: a new handler object on the current
    [sys.stderr], at level NOTSET and without formatter. *)
Definition logging_StreamHandler : M Handler :=
  let! st := gets id in
  let h : Handler := fresh (dom (heap st)) in
  modify (with_heap (<[h := mkHandlerObj NOTSET None (sys_stderr st) OwnFlush]> (heap st))) >>
  ret h.

(** [Handler.setFormatter] *)
Definition Handler_setFormatter (h : Handler) (fmt : option string) : M unit :=
  modify (fun st => with_heap (alter (set_formatter fmt) h (heap st)) st).

(** [os.getenv(key, None)] *)
Definition os_getenv (key : string) : M (option string) :=
  gets (fun st => environ st !! key).

(** The truth value of a string: non-empty. *)
Definition str_truthy (s : string) : bool :=
  match s with
  | EmptyString => false
  | String _ _ => true
  end.

(** [sep.join(l)] *)
Fixpoint join (sep : string) (l : list string) : string :=
  match l with
  | [] => ""
  | [x] => x
  | x :: l' => x +:+ sep +:+ join sep l'
  end.

(** [s.split(".")[0]]: the characters before the first dot. *)
Fixpoint before_first_dot (s : string) : string :=
  match s with
  | EmptyString => EmptyString
  | String c s' =>
      if Ascii.eqb c "."%char then EmptyString else String c (before_first_dot s')
  end.

(** [key in d] and [d[key]] on a dict kept in insertion order. *)
Fixpoint dict_get {V} (d : list (string * V)) (key : string) : option V :=
  match d with
  | [] => None
  | (k, v) :: d' => if decide (key = k) then Some v else dict_get d' key
  end.

(** [for x in l: body(x)] *)
Fixpoint for_each {A} (l : list A) (body : A -> M unit) : M unit :=
  match l with
  | [] => ret tt
  | x :: l' => body x >> for_each l' body
  end.

(** ** The module *)

(** The module is imported under the path it has in the repository. *)
Definition __name__ : string := "src.utils.logging".

Definition log_levels : list (string * Z) :=
  [ ("detail", DEBUG);
    ("debug", DEBUG);
    ("info", INFO);
    ("warning", WARNING);
    ("error", ERROR);
    ("critical", CRITICAL) ].

Definition _default_log_level : Z := WARNING.

Definition unknown_verbosity_message (env_level_str : string) : string :=
  "Unknown option TRANSFORMERS_VERBOSITY=" +:+ env_level_str +:+
  ", has to be one of: " +:+ join ", " (log_levels.*1).

Definition _get_default_logging_level : M Z :=
  let! env_level_str := os_getenv "TRANSFORMERS_VERBOSITY" in
  match env_level_str with
  | Some s =>
      if str_truthy s then
        match dict_get log_levels s with
        | Some lvl => ret lvl
        | None =>
            let! root_logger := logging_getLogger None in
            Logger_warning root_logger [unknown_verbosity_message s] >>
            ret _default_log_level
        end
      else ret _default_log_level
  | None => ret _default_log_level
  end.

Definition _get_library_name : string := before_first_dot __name__.

Definition _get_library_root_logger : M LoggerRef :=
  logging_getLogger (Some _get_library_name).

Definition detail_format : string :=
  "[%(levelname)s|%(pathname)s:%(lineno)s] %(asctime)s >> %(message)s".

Definition explicit_format : string :=
  "[%(levelname)s|%(filename)s:%(lineno)s] %(asctime)s >> %(message)s".

(** The body runs under [_lock]; in this sequential model taking and
    releasing the lock has no effect. *)
Definition _configure_library_root_logger : M unit :=
  let! current := gets _default_handler in
  match current with
  | Some _ => ret tt
  | None =>
      let! h := logging_StreamHandler in
      modify (with_default_handler (Some h)) >>
      let! err := gets sys_stderr in
      (match err with
       | None => modify (with_sys_stderr (Some DevNull))
       | Some _ => ret tt
       end) >>
      let! err := gets sys_stderr in
      modify (fun st =>
        with_heap
          (alter (set_flush (match err with Some s => FlushOf s | None => OwnFlush end))
             h (heap st)) st) >>
      let! library_root_logger := _get_library_root_logger in
      Logger_addHandler library_root_logger h >>
      let! lvl := _get_default_logging_level in
      Logger_setLevel library_root_logger lvl >>
      let! verbosity := os_getenv "TRANSFORMERS_VERBOSITY" in
      (if decide (verbosity = Some "detail")
       then Handler_setFormatter h (Some detail_format)
       else ret tt) >>
      modify (update_logger library_root_logger (set_propagate false))
  end.

Definition _reset_library_root_logger : M unit :=
  let! current := gets _default_handler in
  match current with
  | None => ret tt
  | Some h =>
      let! library_root_logger := _get_library_root_logger in
      Logger_removeHandler library_root_logger h >>
      Logger_setLevel library_root_logger NOTSET >>
      modify (with_default_handler None)
  end.

Definition get_log_levels_dict : M (list (string * Z)) := ret log_levels.

Definition get_logger (name : option string) : M LoggerRef :=
  let name := match name with None => _get_library_name | Some n => n end in
  _configure_library_root_logger >>
  logging_getLogger (Some name).

(** [_default_handler] is set when [get_logger] has returned, so the
    handler attached below is never [None]. *)
Definition captureWarnings (capture : bool) : M unit :=
  let! logger := get_logger (Some "py.warnings") in
  let! hs := gets (fun st => handlers (logger_at logger st)) in
  (match hs with
   | [] =>
       let! dh := gets _default_handler in
       match dh with
       | Some h => Logger_addHandler logger h
       | None => ret tt
       end
   | _ :: _ => ret tt
   end) >>
  let! library_root_logger := _get_library_root_logger in
  let! lvl := gets (fun st => level (logger_at library_root_logger st)) in
  Logger_setLevel logger lvl >>
  _captureWarnings capture.

Definition get_verbosity : M Z :=
  _configure_library_root_logger >>
  let! library_root_logger := _get_library_root_logger in
  gets (Logger_getEffectiveLevel library_root_logger).

Definition set_verbosity (verbosity : Z) : M unit :=
  _configure_library_root_logger >>
  let! library_root_logger := _get_library_root_logger in
  Logger_setLevel library_root_logger verbosity.

Definition set_verbosity_info : M unit := set_verbosity INFO.
Definition set_verbosity_warning : M unit := set_verbosity WARNING.
Definition set_verbosity_debug : M unit := set_verbosity DEBUG.
Definition set_verbosity_error : M unit := set_verbosity ERROR.

Definition disable_default_handler : M unit :=
  _configure_library_root_logger >>
  let! dh := gets _default_handler in
  assert (bool_decide (is_Some dh)) >>
  match dh with
  | Some h =>
      let! library_root_logger := _get_library_root_logger in
      Logger_removeHandler library_root_logger h
  | None => ret tt
  end.

Definition enable_default_handler : M unit :=
  _configure_library_root_logger >>
  let! dh := gets _default_handler in
  assert (bool_decide (is_Some dh)) >>
  match dh with
  | Some h =>
      let! library_root_logger := _get_library_root_logger in
      Logger_addHandler library_root_logger h
  | None => ret tt
  end.

(** The handler argument may be [None]. *)
Definition add_handler (handler : option Handler) : M unit :=
  _configure_library_root_logger >>
  assert (bool_decide (is_Some handler)) >>
  match handler with
  | Some h =>
      let! library_root_logger := _get_library_root_logger in
      Logger_addHandler library_root_logger h
  | None => ret tt
  end.

(** The assertion is a conjunction: its second operand, which fetches the
    root logger, is evaluated only when the first holds. *)
Definition remove_handler (handler : option Handler) : M unit :=
  _configure_library_root_logger >>
  (match handler with
   | None => assert false
   | Some h =>
       let! library_root_logger := _get_library_root_logger in
       let! hs := gets (fun st => handlers (logger_at library_root_logger st)) in
       assert (bool_decide (h ∉ hs))
   end) >>
  match handler with
  | Some h =>
      let! library_root_logger := _get_library_root_logger in
      Logger_removeHandler library_root_logger h
  | None => ret tt
  end.

Definition disable_propagation : M unit :=
  _configure_library_root_logger >>
  let! library_root_logger := _get_library_root_logger in
  modify (update_logger library_root_logger (set_propagate false)).

Definition enable_propagation : M unit :=
  _configure_library_root_logger >>
  let! library_root_logger := _get_library_root_logger in
  modify (update_logger library_root_logger (set_propagate true)).

Definition enable_explicit_format : M unit :=
  let! library_root_logger := _get_library_root_logger in
  let! hs := gets (fun st => handlers (logger_at library_root_logger st)) in
  for_each hs (fun handler => Handler_setFormatter handler (Some explicit_format)).

Definition reset_format : M unit :=
  let! library_root_logger := _get_library_root_logger in
  let! hs := gets (fun st => handlers (logger_at library_root_logger st)) in
  for_each hs (fun handler => Handler_setFormatter handler None).

Definition warning_advice (self : LoggerRef) (args : list string) : M unit :=
  let! no_advisory_warnings := os_getenv "TRANSFORMERS_NO_ADVISORY_WARNINGS" in
  match no_advisory_warnings with
  | Some v => if str_truthy v then ret tt else Logger_warning self args
  | None => Logger_warning self args
  end.

(** [functools.lru_cache(None)]: an unbounded cache; a call whose key is
    present returns the stored result without running the body, and a body
    that raises stores nothing. *)
Definition warning_once (self : LoggerRef) (args : list string) : M unit :=
  let! cache := gets warning_once_cache in
  if decide ((self, args) ∈ cache) then ret tt
  else
    Logger_warning self args >>
    modify (fun st => with_warning_once_cache (warning_once_cache st ++ [(self, args)]) st).

Definition info_once (self : LoggerRef) (args : list string) : M unit :=
  let! cache := gets info_once_cache in
  if decide ((self, args) ∈ cache) then ret tt
  else
    Logger_info self args >>
    modify (fun st => with_info_once_cache (info_once_cache st ++ [(self, args)]) st).

(** ** Progress indicator gate *)

(** Names of the form [__x__]. *)
Fixpoint ends_with_dunder (s : string) : bool :=
  match s with
  | EmptyString => false
  | String _ s' => if String.eqb s "__" then true else ends_with_dunder s'
  end.

Definition is_dunder (name : string) : bool :=
  String.prefix "__" name && ends_with_dunder name.

(** Attribute access goes through normal lookup first and reaches
    [__getattr__] only when that fails.  On an instance of [EmptyTqdm]
    normal lookup finds the instance attribute [_iterator] and names of
    the class body and of [object], which are all of the form [__x__];
    which of the latter exist depends on the interpreter.  For every other
    name normal lookup fails. *)
Definition normal_lookup_fails (name : string) : bool :=
  negb (String.eqb name "_iterator") && negb (is_dunder name).

Section ProgressGate.
Context {A : Type}.

(** An argument of the progress-bar factory: an iterable with its
    elements, or some other value. *)
Inductive PyArg :=
  | ArgIterable (xs : list A)
  | ArgOther (repr : string).

Record EmptyTqdm := mkEmptyTqdm {
  _iterator : option PyArg;
}.

(** [EmptyTqdm.__init__]: keeps the first positional argument, if any. *)
Definition EmptyTqdm_init (args : list PyArg) (kwargs : list (string * PyArg))
    : M EmptyTqdm :=
  ret (mkEmptyTqdm (head args)).

(** [EmptyTqdm.__iter__]: [iter] of the kept argument; [iter(None)] and
    [iter] of a value that is not iterable raise [TypeError].  The result
    is the sequence of elements the iterator yields. *)
Definition EmptyTqdm_iter (self : EmptyTqdm) : M (list A) :=
  match _iterator self with
  | Some (ArgIterable xs) => ret xs
  | Some (ArgOther _) => raise TypeError
  | None => raise TypeError
  end.

Definition empty_fn (args : list PyArg) (kwargs : list (string * PyArg)) : M unit :=
  ret tt.

(** [EmptyTqdm.__getattr__]: whatever the name, the answer is
    [empty_fn]. *)
Definition EmptyTqdm_getattr (self : EmptyTqdm) (name : string)
    : list PyArg -> list (string * PyArg) -> M unit :=
  empty_fn.

Definition EmptyTqdm_enter (self : EmptyTqdm) : M EmptyTqdm := ret self.

Definition EmptyTqdm_exit (self : EmptyTqdm) (type_ value traceback : option string)
    : M unit :=
  ret tt.

(** What a method invocation on the null object evaluates to. *)
Inductive PyValue :=
  | VNone
  | VSelf (o : EmptyTqdm)
  | VElements (xs : list A).

(** The invocations of the model: the three methods the class defines
    to be called by name, and a call, with any arguments, under a name
    that normal lookup does not find.  Calls under the other names
    ([_iterator], and names of the form [__x__] but for the three methods)
    are left out. *)
Inductive Invocation :=
  | CallIter
  | CallEnter
  | CallExit (type_ value traceback : option string)
  | CallOther (name : string) (missing : normal_lookup_fails name = true)
      (args : list PyArg) (kwargs : list (string * PyArg)).

Definition EmptyTqdm_invoke (self : EmptyTqdm) (call : Invocation) : M PyValue :=
  match call with
  | CallIter => let! xs := EmptyTqdm_iter self in ret (VElements xs)
  | CallEnter => let! o := EmptyTqdm_enter self in ret (VSelf o)
  | CallExit t v tb => EmptyTqdm_exit self t v tb >> ret VNone
  | CallOther name _ args kwargs => EmptyTqdm_getattr self name args kwargs >> ret VNone
  end.

(** What the factory returns: the real progress bar of the external
    library, built from the same arguments, or the null object. *)
Inductive ProgressBar :=
  | RealTqdm (args : list PyArg) (kwargs : list (string * PyArg))
  | NullTqdm (o : EmptyTqdm).

(** [_tqdm_cls.__call__] *)
Definition tqdm (args : list PyArg) (kwargs : list (string * PyArg)) : M ProgressBar :=
  let! active := gets _tqdm_active in
  if active then ret (RealTqdm args kwargs)
  else let! o := EmptyTqdm_init args kwargs in ret (NullTqdm o).
End ProgressGate.

Arguments PyArg A : clear implicits.
Arguments EmptyTqdm A : clear implicits.
Arguments PyValue A : clear implicits.
Arguments Invocation A : clear implicits.
Arguments ProgressBar A : clear implicits.

Definition is_progress_bar_enabled : M bool := gets _tqdm_active.

(** [hf_hub_utils.enable_progress_bars()] and
    [hf_hub_utils.disable_progress_bars()], called without a name.  The
    module makes the call whatever the state; the library may refuse it
    (it does, with a Python warning, when HF_HUB_DISABLE_PROGRESS_BARS
    says the opposite), which is outside this model. *)
Definition hf_hub_enable_progress_bars : M unit :=
  modify (fun st => with_hub_calls (hub_calls st ++ [HubEnableProgressBars]) st).

Definition hf_hub_disable_progress_bars : M unit :=
  modify (fun st => with_hub_calls (hub_calls st ++ [HubDisableProgressBars]) st).

Definition enable_progress_bar : M unit :=
  modify (with_tqdm_active true) >>
  hf_hub_enable_progress_bars.

Definition disable_progress_bar : M unit :=
  modify (with_tqdm_active false) >>
  hf_hub_disable_progress_bars.

(** ** The process at import time, and the operations a caller can run *)

(** State of a process that has imported the module and done nothing else:
    the registry holds only the root logger, at its default level.
    [hub_disabled] is what [hf_hub_utils.are_progress_bars_disabled()]
    answered when the module was imported. *)
Definition initial_state (env : gmap string string) (hub_disabled : bool) : State :=
  {| environ := env;
     sys_stderr := Some OriginalStderr;
     heap := ∅;
     root := mkLogger [] WARNING true None false;
     loggerDict := ∅;
     manager_disable := 0;
     warnings_captured := false;
     emitted := [];
     _default_handler := None;
     _tqdm_active := negb hub_disabled;
     hub_calls := [];
     warning_once_cache := [];
     info_once_cache := [] |}.

Inductive Op :=
  | OpGetLogger (name : option string)
  | OpCaptureWarnings (capture : bool)
  | OpGetLogLevelsDict
  | OpGetVerbosity
  | OpSetVerbosity (verbosity : Z)
  | OpSetVerbosityInfo
  | OpSetVerbosityWarning
  | OpSetVerbosityDebug
  | OpSetVerbosityError
  | OpDisableDefaultHandler
  | OpEnableDefaultHandler
  | OpAddHandler (handler : option Handler)
  | OpRemoveHandler (handler : option Handler)
  | OpDisablePropagation
  | OpEnablePropagation
  | OpEnableExplicitFormat
  | OpResetFormat
  | OpWarningAdvice (self : LoggerRef) (args : list string)
  | OpWarningOnce (self : LoggerRef) (args : list string)
  | OpInfoOnce (self : LoggerRef) (args : list string)
  | OpResetLibraryRootLogger
  | OpIsProgressBarEnabled
  | OpEnableProgressBar
  | OpDisableProgressBar.

(** Runs an operation and drops its value. *)
Definition run_op (o : Op) : M unit :=
  match o with
  | OpGetLogger name => get_logger name >> ret tt
  | OpCaptureWarnings capture => captureWarnings capture
  | OpGetLogLevelsDict => get_log_levels_dict >> ret tt
  | OpGetVerbosity => get_verbosity >> ret tt
  | OpSetVerbosity v => set_verbosity v
  | OpSetVerbosityInfo => set_verbosity_info
  | OpSetVerbosityWarning => set_verbosity_warning
  | OpSetVerbosityDebug => set_verbosity_debug
  | OpSetVerbosityError => set_verbosity_error
  | OpDisableDefaultHandler => disable_default_handler
  | OpEnableDefaultHandler => enable_default_handler
  | OpAddHandler h => add_handler h
  | OpRemoveHandler h => remove_handler h
  | OpDisablePropagation => disable_propagation
  | OpEnablePropagation => enable_propagation
  | OpEnableExplicitFormat => enable_explicit_format
  | OpResetFormat => reset_format
  | OpWarningAdvice self args => warning_advice self args
  | OpWarningOnce self args => warning_once self args
  | OpInfoOnce self args => info_once self args
  | OpResetLibraryRootLogger => _reset_library_root_logger
  | OpIsProgressBarEnabled => is_progress_bar_enabled >> ret tt
  | OpEnableProgressBar => enable_progress_bar
  | OpDisableProgressBar => disable_progress_bar
  end.

(** A caller runs operations one after the other; one that raises leaves
    its partial effects behind and the caller goes on. *)
Definition run_ops (ops : list Op) (st : State) : State :=
  fold_left (fun st o => exec (run_op o) st) ops st.

(** The library root logger. *)
Definition library_root : LoggerRef := Named _get_library_name.

(** Handlers attached to the library root logger. *)
Definition attached (st : State) : list Handler :=
  handlers (logger_at library_root st).


(** ** Predicates of the statements *)

(** A computation that always ends in a value. *)
Definition returns {A} (c : M A) : Prop := forall st, exists a, eval c st = Returned a.

(** A relation between the state before and the state after that a
    computation respects, whatever its outcome. *)
Definition preserves {A} (R : State -> State -> Prop) (c : M A) : Prop :=
  forall st, R st (exec c st).

(** [name] has a logger (not a placeholder) in the registry. *)
Definition is_logger (name : string) (st : State) : Prop :=
  exists l, loggerDict st !! name = Some (NLogger l).

(** Two loggers that differ at most in their parent. *)
Definition same_settings (l l' : Logger) : Prop :=
  handlers l = handlers l' /\ level l = level l' /\
  propagate l = propagate l' /\ disabled l = disabled l'.

(** [st'] is [st] with a registry that has more entries and other parent
    links, every logger keeping its handlers, level and flags. *)
Definition registry_ext (st st' : State) : Prop :=
  st' = with_loggerDict (loggerDict st') st /\
  (forall r, same_settings (logger_at r st') (logger_at r st)) /\
  (forall n, is_logger n st -> is_logger n st').

(** No handler is attached twice to the library root logger. *)
Definition attached_once (st : State) : Prop := NoDup (attached st).

(** How many times the default handler is attached to the library root
    logger; 0 when there is no default handler. *)
Definition default_handler_attachments (st : State) : nat :=
  match _default_handler st with
  | Some h => length (filter (fun x => x = h) (attached st))
  | None => O
  end.

(** The memoisation cache of [warning_once] only grows. *)
Definition cache_grows : relation State :=
  fun st st' => warning_once_cache st ⊆ warning_once_cache st'.

(** A property of the library root logger that holds after whenever it
    held before. *)
Definition keeps (P : Logger -> Prop) : relation State :=
  fun st st' => P (logger_at library_root st) -> P (logger_at library_root st').

(** A relation that every extension of the registry satisfies. *)
Class ExtClosed (R : relation State) : Prop :=
  ext_closed : forall st st', registry_ext st st' -> R st st'.

(** A property of loggers that does not look at the parent. *)
Class SettingsOnly (P : Logger -> Prop) : Prop :=
  settings_only : forall l l', same_settings l' l -> P l -> P l'.

Definition no_repeated_handler (l : Logger) : Prop := NoDup (handlers l).
Definition not_propagating (l : Logger) : Prop := propagate l = false.

(** The shape of the registry of [logging]: the root logger has no parent,
    a parent link to a named logger goes to a shorter name, and a
    placeholder lists longer names. *)
Definition node_wf (n : string) (node : Node) : Prop :=
  match node with
  | NLogger l =>
      forall p, parent l = Some (Named p) -> (String.length p < String.length n)%nat
  | NPlaceHolder cs =>
      forall c, c ∈ cs -> (String.length n < String.length c)%nat
  end.

Definition registry_wf (st : State) : Prop :=
  parent (root st) = None /\ map_Forall node_wf (loggerDict st).

(** The same with the parent of the logger [name] left free, as it is
    while [getLogger] links a new logger in. *)
Definition node_wf_but (name n : string) (node : Node) : Prop :=
  match node with
  | NLogger _ => n <> name -> node_wf n node
  | NPlaceHolder _ => node_wf n node
  end.

(** Number of loggers on the way from a reference up to the root. *)
Definition chain_measure (c : option LoggerRef) : nat :=
  match c with
  | None => 0
  | Some RootLogger => 1
  | Some (Named n) => String.length n + 2
  end.

Definition keeps_wf : relation State :=
  fun st st' => registry_wf st -> registry_wf st'.

(** Disabling takes the default handler off the library root logger and
    enabling puts the same handler back. *)
Definition default_handler_toggles (st : State) : Prop :=
  exists h,
    _default_handler (exec disable_default_handler st) = Some h /\
    (h ∉ attached (exec disable_default_handler st)) /\
    _default_handler (exec enable_default_handler (exec disable_default_handler st))
      = Some h /\
    h ∈ attached (exec enable_default_handler (exec disable_default_handler st)).

(** The five named severity levels. *)
Definition named_levels : list Z := [DEBUG; INFO; WARNING; ERROR; CRITICAL].

(** ** Predicates of the further properties *)

(** The environment is left as it was. *)
Definition same_environ : relation State :=
  fun st st' => environ st' = environ st.

(** A name without a dot. *)
Fixpoint no_dot (s : string) : bool :=
  match s with
  | EmptyString => true
  | String c s' => negb (Ascii.eqb c "."%char) && no_dot s'
  end.

(** The name of a logger directly below the library root logger. *)
Definition child_logger_name (s : string) : string :=
  _get_library_name +:+ "." +:+ s.

(** No logger appears under [name]. *)
Definition no_new_logger (name : string) : relation State :=
  fun st st' => is_logger name st' -> is_logger name st.

(** The name [warnings] logs under once captured. *)
Definition py_warnings : LoggerRef := Named "py.warnings".

(** Every logger outside [ex] keeps its handlers, level and flags. *)
Definition untouched_but (ex : list LoggerRef) : relation State :=
  fun st st' => forall r, r ∉ ex -> same_settings (logger_at r st') (logger_at r st).

(** The package-wide threshold of [logging.disable] is left as it was. *)
Definition same_manager_disable : relation State :=
  fun st st' => manager_disable st' = manager_disable st.

(** The memoisation cache of [info_once] only grows. *)
Definition info_cache_grows : relation State :=
  fun st st' => info_once_cache st ⊆ info_once_cache st'.

(** No call without arguments is memoised. *)
Definition no_empty_key (st : State) : Prop :=
  forall self, ((self, []) ∉ warning_once_cache st) /\ ((self, []) ∉ info_once_cache st).

Definition keeps_no_empty_key : relation State :=
  fun st st' => no_empty_key st -> no_empty_key st'.

(** The heap after [setFormatter(fmt)] on each handler of [hs]. *)
Definition set_formatters (fmt : option string) (hs : list Handler)
    (hp : gmap Handler HandlerObj) : gmap Handler HandlerObj :=
  fold_left (fun hp h => alter (set_formatter fmt) h hp) hs hp.

(** The logger [get_logger(name)] answers with. *)
Definition eval_logger_name (name : option string) : LoggerRef :=
  let n := match name with None => _get_library_name | Some n => n end in
  if decide (n = "" \/ n = "root") then RootLogger else Named n.

(** The progress-bar switch is left as it was and no call is made into
    the hub library. *)
Definition same_progress_switch : relation State :=
  fun st st' =>
    _tqdm_active st' = _tqdm_active st /\
    hub_calls st' = hub_calls st.

(** * Properties *)

(** ** The monad *)

Lemma exec_ret {A} (a : A) st : exec (ret a) st = st.
Proof. reflexivity. Qed.

Lemma exec_bind {A B} (c : M A) (k : A -> M B) st :
  exec (bind c k) st =
  match eval c st with
  | Returned a => exec (k a) (exec c st)
  | Raised _ => exec c st
  end.
Proof. unfold exec, eval, bind. destruct (c st) as [[a|e] st']; reflexivity. Qed.

Lemma eval_bind {A B} (c : M A) (k : A -> M B) st :
  eval (bind c k) st =
  match eval c st with
  | Returned a => eval (k a) (exec c st)
  | Raised e => Raised e
  end.
Proof. unfold exec, eval, bind. destruct (c st) as [[a|e] st']; reflexivity. Qed.

Lemma run_eq {A} (c : M A) st : c st = (eval c st, exec c st).
Proof. unfold eval, exec. destruct (c st); reflexivity. Qed.

Lemma returns_ret {A} (a : A) : returns (ret a).
Proof. intros st. by exists a. Qed.

Lemma returns_gets {A} (f : State -> A) : returns (gets f).
Proof. intros st. by exists (f st). Qed.

Lemma returns_modify f : returns (modify f).
Proof. intros st. by exists tt. Qed.

Lemma returns_bind {A B} (c : M A) (k : A -> M B) :
  returns c -> (forall a, returns (k a)) -> returns (bind c k).
Proof.
  intros Hc Hk st. rewrite eval_bind. destruct (Hc st) as [a ->]. apply Hk.
Qed.

Lemma returns_for_each {A} (l : list A) body :
  (forall x, returns (body x)) -> returns (for_each l body).
Proof.
  intros Hb. induction l as [|x l IH]; simpl.
  - apply returns_ret.
  - apply returns_bind; [apply Hb | intros _; exact IH].
Qed.

Lemma returns_unit (c : M unit) st : returns c -> eval c st = Returned tt.
Proof. intros H. destruct (H st) as [[] ->]. reflexivity. Qed.

Section Preserves.
Context (R : relation State) `{!PreOrder R}.

Lemma preserves_ret {A} (a : A) : preserves R (ret a).
Proof. intros st. reflexivity. Qed.

Lemma preserves_raise {A} e : preserves R (@raise A e).
Proof. intros st. reflexivity. Qed.

Lemma preserves_gets {A} (f : State -> A) : preserves R (gets f).
Proof. intros st. reflexivity. Qed.

Lemma preserves_assert b : preserves R (assert b).
Proof. destruct b; [apply preserves_ret | apply preserves_raise]. Qed.

Lemma preserves_modify f : (forall st, R st (f st)) -> preserves R (modify f).
Proof. intros H st. apply H. Qed.

Lemma preserves_bind {A B} (c : M A) (k : A -> M B) :
  preserves R c -> (forall a, preserves R (k a)) -> preserves R (bind c k).
Proof.
  intros Hc Hk st. rewrite exec_bind. destruct (eval c st) as [a|e].
  - etrans; [apply Hc | apply Hk].
  - apply Hc.
Qed.

Lemma preserves_for_each {A} (l : list A) body :
  (forall x, preserves R (body x)) -> preserves R (for_each l body).
Proof.
  intros Hb. induction l as [|x l IH]; simpl.
  - apply preserves_ret.
  - apply preserves_bind; [apply Hb | intros _; exact IH].
Qed.

Lemma preserves_run_ops_step (step : Op -> M unit) ops st :
  (forall o, o ∈ ops -> preserves R (step o)) ->
  R st (fold_left (fun st o => exec (step o) st) ops st).
Proof.
  revert st. induction ops as [|o ops IH]; intros st H; simpl; [reflexivity|].
  etrans; [apply (H o); set_solver | apply IH; intros o' Ho'; apply H; set_solver].
Qed.
End Preserves.

(** ** The registry *)

Lemma state_eta st :
  st = mkState (environ st) (sys_stderr st) (heap st) (root st) (loggerDict st)
         (manager_disable st) (warnings_captured st) (emitted st)
         (_default_handler st) (_tqdm_active st) (hub_calls st)
         (warning_once_cache st) (info_once_cache st).
Proof. by destruct st. Qed.

Lemma same_settings_refl l : same_settings l l.
Proof. by repeat split. Qed.

Lemma same_settings_trans l1 l2 l3 :
  same_settings l1 l2 -> same_settings l2 l3 -> same_settings l1 l3.
Proof. intros (?&?&?&?) (?&?&?&?). repeat split; congruence. Qed.

Lemma same_settings_set_parent p l : same_settings (set_parent p l) l.
Proof. by repeat split. Qed.

Lemma registry_ext_refl st : registry_ext st st.
Proof.
  split; [by destruct st|]. split; [intros; apply same_settings_refl | done].
Qed.

Lemma registry_ext_trans st1 st2 st3 :
  registry_ext st1 st2 -> registry_ext st2 st3 -> registry_ext st1 st3.
Proof.
  intros (E1 & S1 & L1) (E2 & S2 & L2). split; [|split].
  - rewrite E2, E1. reflexivity.
  - intros r. eapply same_settings_trans; [apply S2 | apply S1].
  - auto.
Qed.

(** Reading a logger after an update of another or the same one. *)
Lemma logger_at_update_logger r r' f st :
  logger_at r' (update_logger r f st) =
  if decide (r' = r) then
    match r with
    | RootLogger => f (root st)
    | Named n =>
        match loggerDict st !! n with
        | Some (NLogger l) => f l
        | _ => new_logger
        end
    end
  else logger_at r' st.
Proof.
  destruct r as [|n]; destruct r' as [|n']; simpl; try done.
  - by destruct (loggerDict st !! n) as [[l|cs]|].
  - destruct (loggerDict st !! n) as [[l|cs]|] eqn:Hn; simpl.
    + case_decide as E.
      * injection E as ->. by rewrite lookup_insert_eq.
      * rewrite lookup_insert_ne; [done | congruence].
    + case_decide as E; [|done]. injection E as ->. by rewrite Hn.
    + case_decide as E; [|done]. injection E as ->. by rewrite Hn.
Qed.

Lemma is_logger_update_logger r f n st :
  is_logger n st -> is_logger n (update_logger r f st).
Proof.
  intros [l Hl]. destruct r as [|m]; simpl; [by exists l|].
  destruct (loggerDict st !! m) as [[l'|cs]|] eqn:Hm; simpl; try by exists l.
  unfold is_logger; simpl. destruct (decide (m = n)) as [->|Hne].
  - rewrite lookup_insert_eq. by eexists.
  - rewrite lookup_insert_ne by done. by exists l.
Qed.

Lemma update_logger_outside r f st :
  update_logger r f st = with_loggerDict (loggerDict (update_logger r f st))
                           (with_root (root (update_logger r f st)) st).
Proof.
  destruct r as [|n]; simpl; [by destruct st|].
  destruct (loggerDict st !! n) as [[l|cs]|]; by destruct st.
Qed.

(** Changing only the parent of a logger extends the registry. *)
Lemma registry_ext_set_parent n p st :
  registry_ext st (update_logger (Named n) (set_parent p) st).
Proof.
  split; [|split].
  - simpl. destruct (loggerDict st !! n) as [[l|cs]|]; by destruct st.
  - intros r. rewrite logger_at_update_logger. case_decide as E; [|apply same_settings_refl].
    subst r. simpl. destruct (loggerDict st !! n) as [[l|cs]|]; try apply same_settings_refl.
    apply same_settings_set_parent.
  - intros m. apply is_logger_update_logger.
Qed.

(** Writing an entry over a name that has no logger extends the registry
    when the entry is a placeholder or a new logger. *)
Lemma registry_ext_insert n node st :
  ~ is_logger n st ->
  match node with
  | NLogger l => same_settings l new_logger
  | NPlaceHolder _ => True
  end ->
  registry_ext st (with_loggerDict (<[n := node]> (loggerDict st)) st).
Proof.
  intros Hn Hnode. split; [|split].
  - by destruct st.
  - intros [|m]; simpl; [apply same_settings_refl|].
    destruct (decide (n = m)) as [->|Hne].
    + rewrite lookup_insert_eq.
      assert (match loggerDict st !! m with Some (NLogger l) => l | _ => new_logger end
              = new_logger) as ->.
      { destruct (loggerDict st !! m) as [[l|cs]|] eqn:Hm; try done.
        destruct Hn. by exists l. }
      destruct node; [done | apply same_settings_refl].
    + rewrite lookup_insert_ne by done. apply same_settings_refl.
  - intros m [l Hl]. unfold is_logger; simpl. destruct (decide (n = m)) as [->|Hne].
    + destruct Hn. by exists l.
    + rewrite lookup_insert_ne by done. by exists l.
Qed.

Lemma with_loggerDict_twice d d' st :
  with_loggerDict d' (with_loggerDict d st) = with_loggerDict d' st.
Proof. reflexivity. Qed.

Lemma not_is_logger_None n st : loggerDict st !! n = None -> ~ is_logger n st.
Proof. intros H [l Hl]. congruence. Qed.

Lemma not_is_logger_placeholder n cs st :
  loggerDict st !! n = Some (NPlaceHolder cs) -> ~ is_logger n st.
Proof. intros H [l Hl]. congruence. Qed.

(** The loop of [_fixupParents] only leaves placeholders where there is no
    logger. *)
Lemma fixupParents_loop_ext fuel name : forall i st,
  registry_ext st (with_loggerDict (fixupParents_loop fuel name i (loggerDict st)).2 st).
Proof.
  induction fuel as [|fuel IH]; intros i st; simpl.
  - replace (with_loggerDict (loggerDict st) st) with st by (by destruct st).
    apply registry_ext_refl.
  - case_bool_decide.
    2:{ simpl. replace (with_loggerDict (loggerDict st) st) with st by (by destruct st).
        apply registry_ext_refl. }
    set (substr := substring 0 (Z.to_nat i) name).
    set (next := rfind_dot name (Z.to_nat (i - 1))).
    destruct (loggerDict st !! substr) as [[l|cs]|] eqn:Hs; simpl.
    + replace (with_loggerDict (loggerDict st) st) with st by (by destruct st).
      apply registry_ext_refl.
    + eapply registry_ext_trans.
      * apply (registry_ext_insert substr (NPlaceHolder (placeholder_append name cs)));
          [by eapply not_is_logger_placeholder | done].
      * rewrite <- (with_loggerDict_twice
                      (<[substr := NPlaceHolder (placeholder_append name cs)]> (loggerDict st))).
        apply (IH next (with_loggerDict _ st)).
    + eapply registry_ext_trans.
      * apply (registry_ext_insert substr (NPlaceHolder [name]));
          [by apply not_is_logger_None | done].
      * rewrite <- (with_loggerDict_twice (<[substr := NPlaceHolder [name]]> (loggerDict st))).
        apply (IH next (with_loggerDict _ st)).
Qed.

Lemma Manager_fixupParents_ext name st :
  registry_ext st (exec (Manager_fixupParents name) st).
Proof.
  unfold Manager_fixupParents, exec, modify; simpl.
  pose proof (fixupParents_loop_ext (String.length name) name
                (rfind_dot name (String.length name)) st) as H.
  destruct (fixupParents_loop _ _ _ _) as [rv d]; simpl in *.
  eapply registry_ext_trans; [exact H | apply registry_ext_set_parent].
Qed.

Lemma Manager_fixupChildren_ext children name st :
  registry_ext st (exec (Manager_fixupChildren children name) st).
Proof.
  unfold Manager_fixupChildren, exec, modify; cbn [snd].
  revert st. induction children as [|c cs IH]; intros st; cbn [fold_left].
  - apply registry_ext_refl.
  - eapply registry_ext_trans; [|apply IH].
    unfold fixupChildren_step.
    destruct (parent (logger_at (Named c) st)) as [p|]; [|apply registry_ext_refl].
    case_decide; [apply registry_ext_refl|].
    eapply registry_ext_trans; apply registry_ext_set_parent.
Qed.

Lemma Manager_getLogger_eval name st :
  eval (Manager_getLogger name) st = Returned (Named name).
Proof.
  unfold Manager_getLogger. rewrite eval_bind. simpl.
  destruct (loggerDict st !! name) as [[l|cs]|]; reflexivity.
Qed.

Lemma Manager_getLogger_exec name st :
  exec (Manager_getLogger name) st =
  match loggerDict st !! name with
  | Some (NLogger _) => st
  | Some (NPlaceHolder children) =>
      exec (Manager_fixupParents name)
        (exec (Manager_fixupChildren children name)
           (with_loggerDict (<[name := NLogger new_logger]> (loggerDict st)) st))
  | None =>
      exec (Manager_fixupParents name)
        (with_loggerDict (<[name := NLogger new_logger]> (loggerDict st)) st)
  end.
Proof.
  unfold Manager_getLogger. rewrite exec_bind. simpl.
  destruct (loggerDict st !! name) as [[l|cs]|]; reflexivity.
Qed.

Lemma Manager_getLogger_ext name st :
  registry_ext st (exec (Manager_getLogger name) st).
Proof.
  rewrite Manager_getLogger_exec.
  destruct (loggerDict st !! name) as [[l|cs]|] eqn:Hn.
  - apply registry_ext_refl.
  - eapply registry_ext_trans; [|apply Manager_fixupParents_ext].
    eapply registry_ext_trans; [|apply Manager_fixupChildren_ext].
    apply (registry_ext_insert name (NLogger new_logger));
      [by eapply not_is_logger_placeholder | apply same_settings_refl].
  - eapply registry_ext_trans; [|apply Manager_fixupParents_ext].
    apply (registry_ext_insert name (NLogger new_logger));
      [by apply not_is_logger_None | apply same_settings_refl].
Qed.

Lemma is_logger_insert name l st :
  is_logger name (with_loggerDict (<[name := NLogger l]> (loggerDict st)) st).
Proof. exists l. simpl. apply lookup_insert_eq. Qed.

(** After [getLogger(name)] the registry has a logger under [name]. *)
Lemma Manager_getLogger_is_logger name st :
  is_logger name (exec (Manager_getLogger name) st).
Proof.
  rewrite Manager_getLogger_exec.
  destruct (loggerDict st !! name) as [[l|cs]|] eqn:Hn.
  - by exists l.
  - apply Manager_fixupParents_ext, Manager_fixupChildren_ext, is_logger_insert.
  - apply Manager_fixupParents_ext, is_logger_insert.
Qed.

Lemma logging_getLogger_ext name st :
  registry_ext st (exec (logging_getLogger name) st).
Proof.
  destruct name as [n|]; simpl; [|apply registry_ext_refl].
  case_decide; [apply registry_ext_refl | apply Manager_getLogger_ext].
Qed.

Lemma logging_getLogger_returns name : returns (logging_getLogger name).
Proof.
  intros st. destruct name as [n|]; simpl; [|by eexists].
  case_decide; [by eexists|]. rewrite Manager_getLogger_eval. by eexists.
Qed.

(** The library root logger is the registry entry ["src"]. *)
Lemma _get_library_root_logger_unfold :
  _get_library_root_logger = Manager_getLogger _get_library_name.
Proof. reflexivity. Qed.

Lemma _get_library_root_logger_eval st :
  eval _get_library_root_logger st = Returned library_root.
Proof. rewrite _get_library_root_logger_unfold. apply Manager_getLogger_eval. Qed.

Lemma _get_library_root_logger_ext st :
  registry_ext st (exec _get_library_root_logger st).
Proof. rewrite _get_library_root_logger_unfold. apply Manager_getLogger_ext. Qed.

Lemma _get_library_root_logger_is_logger st :
  is_logger _get_library_name (exec _get_library_root_logger st).
Proof. rewrite _get_library_root_logger_unfold. apply Manager_getLogger_is_logger. Qed.

(** *** The loop of [_fixupParents] ends *)

Lemma rfind_dot_from_lt s : forall idx stop last,
  last < Z.of_nat stop -> rfind_dot_from s idx stop last < Z.of_nat stop.
Proof.
  induction s as [|c s IH]; intros idx stop last Hl; simpl; [done|].
  destruct (idx <? stop)%nat eqn:Hi; [|done].
  apply IH. apply Nat.ltb_lt in Hi. destruct (Ascii.eqb c "."); lia.
Qed.

Lemma rfind_dot_lt s stop : (0 < stop)%nat -> rfind_dot s stop < Z.of_nat stop.
Proof. intros H. apply rfind_dot_from_lt. lia. Qed.


(** The index strictly decreases, so the loop takes fewer turns than the
    name has characters: more fuel than that changes nothing. *)
Lemma fixupParents_loop_fuel name : forall fuel fuel' i dict,
  i < Z.of_nat fuel -> i < Z.of_nat fuel' ->
  fixupParents_loop fuel name i dict = fixupParents_loop fuel' name i dict.
Proof.
  induction fuel as [|fuel IH]; intros fuel' i dict H H'.
  - destruct fuel' as [|fuel']; [done|]. simpl.
    rewrite bool_decide_false by lia. done.
  - destruct fuel' as [|fuel'].
    + simpl. rewrite bool_decide_false by lia. done.
    + simpl. case_bool_decide as Hi; [|done].
      assert (rfind_dot name (Z.to_nat (i - 1)) < i) as Hnext.
      { destruct (decide (i = 1)) as [->|].
        - simpl. unfold rfind_dot. destruct name; simpl; lia.
        - pose proof (rfind_dot_lt name (Z.to_nat (i - 1))). lia. }
      destruct (dict !! substring 0 (Z.to_nat i) name) as [[l|cs]|]; [done| |];
        apply IH; lia.
Qed.

Lemma Manager_fixupParents_fuel name extra st :
  fixupParents_loop (String.length name + extra) name
    (rfind_dot name (String.length name)) (loggerDict st) =
  fixupParents_loop (String.length name) name
    (rfind_dot name (String.length name)) (loggerDict st).
Proof.
  destruct name as [|c name].
  - destruct extra; [done|]. simpl. done.
  - apply fixupParents_loop_fuel.
    + pose proof (rfind_dot_lt (String c name) (String.length (String c name))).
      simpl in *. lia.
    + pose proof (rfind_dot_lt (String c name) (String.length (String c name))).
      simpl in *. lia.
Qed.

(** *** What an update of the registry leaves alone *)

Lemma registry_ext_outside st st' :
  registry_ext st st' ->
  environ st' = environ st /\ sys_stderr st' = sys_stderr st /\
  heap st' = heap st /\ root st' = root st /\
  manager_disable st' = manager_disable st /\
  warnings_captured st' = warnings_captured st /\
  emitted st' = emitted st /\ _default_handler st' = _default_handler st /\
  _tqdm_active st' = _tqdm_active st /\
  hub_calls st' = hub_calls st /\
  warning_once_cache st' = warning_once_cache st /\
  info_once_cache st' = info_once_cache st.
Proof. intros (E & _ & _). rewrite E. by repeat split. Qed.

Lemma update_logger_fields r f st :
  environ (update_logger r f st) = environ st /\
  sys_stderr (update_logger r f st) = sys_stderr st /\
  heap (update_logger r f st) = heap st /\
  manager_disable (update_logger r f st) = manager_disable st /\
  warnings_captured (update_logger r f st) = warnings_captured st /\
  emitted (update_logger r f st) = emitted st /\
  _default_handler (update_logger r f st) = _default_handler st /\
  _tqdm_active (update_logger r f st) = _tqdm_active st /\
  hub_calls (update_logger r f st) = hub_calls st /\
  warning_once_cache (update_logger r f st) = warning_once_cache st /\
  info_once_cache (update_logger r f st) = info_once_cache st.
Proof. rewrite update_logger_outside. by repeat split. Qed.

Lemma update_logger_environ r f st : environ (update_logger r f st) = environ st.
Proof. apply update_logger_fields. Qed.
Lemma update_logger_sys_stderr r f st : sys_stderr (update_logger r f st) = sys_stderr st.
Proof. apply update_logger_fields. Qed.
Lemma update_logger_heap r f st : heap (update_logger r f st) = heap st.
Proof. apply update_logger_fields. Qed.
Lemma update_logger_manager_disable r f st :
  manager_disable (update_logger r f st) = manager_disable st.
Proof. apply update_logger_fields. Qed.
Lemma update_logger_emitted r f st : emitted (update_logger r f st) = emitted st.
Proof. apply update_logger_fields. Qed.
Lemma update_logger_default_handler r f st :
  _default_handler (update_logger r f st) = _default_handler st.
Proof. apply update_logger_fields. Qed.
Lemma update_logger_warning_once_cache r f st :
  warning_once_cache (update_logger r f st) = warning_once_cache st.
Proof. apply update_logger_fields. Qed.
Lemma update_logger_info_once_cache r f st :
  info_once_cache (update_logger r f st) = info_once_cache st.
Proof. apply update_logger_fields. Qed.

Lemma getroot_environ st : environ (exec _get_library_root_logger st) = environ st.
Proof. apply registry_ext_outside, _get_library_root_logger_ext. Qed.
Lemma getroot_sys_stderr st : sys_stderr (exec _get_library_root_logger st) = sys_stderr st.
Proof. apply registry_ext_outside, _get_library_root_logger_ext. Qed.
Lemma getroot_heap st : heap (exec _get_library_root_logger st) = heap st.
Proof. apply registry_ext_outside, _get_library_root_logger_ext. Qed.
Lemma getroot_root st : root (exec _get_library_root_logger st) = root st.
Proof. apply registry_ext_outside, _get_library_root_logger_ext. Qed.
Lemma getroot_manager_disable st :
  manager_disable (exec _get_library_root_logger st) = manager_disable st.
Proof. apply registry_ext_outside, _get_library_root_logger_ext. Qed.
Lemma getroot_emitted st : emitted (exec _get_library_root_logger st) = emitted st.
Proof. apply registry_ext_outside, _get_library_root_logger_ext. Qed.
Lemma getroot_default_handler st :
  _default_handler (exec _get_library_root_logger st) = _default_handler st.
Proof. apply registry_ext_outside, _get_library_root_logger_ext. Qed.
Lemma getroot_warning_once_cache st :
  warning_once_cache (exec _get_library_root_logger st) = warning_once_cache st.
Proof. apply registry_ext_outside, _get_library_root_logger_ext. Qed.

(** The library root logger and what is attached to it. *)

Lemma library_root_not_root : library_root <> RootLogger.
Proof. done. Qed.

Lemma logger_at_update_same n f st :
  is_logger n st ->
  logger_at (Named n) (update_logger (Named n) f st) = f (logger_at (Named n) st).
Proof.
  intros [l Hl]. rewrite logger_at_update_logger. rewrite decide_True by done.
  simpl. by rewrite Hl.
Qed.

Lemma logger_at_update_other r r' f st :
  r' <> r -> logger_at r' (update_logger r f st) = logger_at r' st.
Proof. intros H. rewrite logger_at_update_logger. by rewrite decide_False. Qed.

Lemma logger_at_getroot r st :
  same_settings (logger_at r (exec _get_library_root_logger st)) (logger_at r st).
Proof. apply _get_library_root_logger_ext. Qed.

Lemma attached_getroot st : attached (exec _get_library_root_logger st) = attached st.
Proof. apply logger_at_getroot. Qed.

Lemma attached_update f st :
  is_logger _get_library_name st ->
  attached (update_logger library_root f st) = handlers (f (logger_at library_root st)).
Proof. intros H. unfold attached, library_root. by rewrite logger_at_update_same. Qed.

Lemma is_logger_getroot st : is_logger _get_library_name (exec _get_library_root_logger st).
Proof. apply _get_library_root_logger_is_logger. Qed.

(** Running a computation whose value is known. *)
Lemma bind_run {A B} (c : M A) (k : A -> M B) st a st' :
  c st = (Returned a, st') -> bind c k st = k a st'.
Proof. intros H. unfold bind. by rewrite H. Qed.

Lemma getroot_run st :
  _get_library_root_logger st = (Returned library_root, exec _get_library_root_logger st).
Proof. rewrite run_eq. by rewrite _get_library_root_logger_eval. Qed.

(** ** Emitting records *)

Lemma Logger_warning_run self m rest st :
  Logger_warning self (m :: rest) st =
  (Returned tt,
   if Logger_isEnabledFor self WARNING st
   then with_emitted
          (emitted st ++
             [mkEmission (mkLogRecord self WARNING m rest)
                (Logger_callHandlers self WARNING st)]) st
   else st).
Proof.
  unfold Logger_warning, bind, gets; simpl.
  by destruct (Logger_isEnabledFor self WARNING st).
Qed.

Lemma Logger_info_run self m rest st :
  Logger_info self (m :: rest) st =
  (Returned tt,
   if Logger_isEnabledFor self INFO st
   then with_emitted
          (emitted st ++
             [mkEmission (mkLogRecord self INFO m rest)
                (Logger_callHandlers self INFO st)]) st
   else st).
Proof.
  unfold Logger_info, bind, gets; simpl.
  by destruct (Logger_isEnabledFor self INFO st).
Qed.

(** Emitting changes nothing but the list of emitted records. *)
Lemma Logger_warning_emit_only self args st :
  exec (Logger_warning self args) st =
  with_emitted (emitted (exec (Logger_warning self args) st)) st.
Proof.
  destruct args as [|m rest]; [by destruct st|].
  unfold exec. rewrite Logger_warning_run; simpl.
  destruct (Logger_isEnabledFor self WARNING st); by destruct st.
Qed.

Lemma Logger_info_emit_only self args st :
  exec (Logger_info self args) st =
  with_emitted (emitted (exec (Logger_info self args) st)) st.
Proof.
  destruct args as [|m rest]; [by destruct st|].
  unfold exec. rewrite Logger_info_run; simpl.
  destruct (Logger_isEnabledFor self INFO st); by destruct st.
Qed.

(** Whether a logger is enabled for a level depends on the registry and
    on the manager's threshold only. *)
Lemma effective_level_walk_registry fuel st st' : forall c,
  root st' = root st -> loggerDict st' = loggerDict st ->
  effective_level_walk fuel st' c = effective_level_walk fuel st c.
Proof.
  intros c Hr Hd. revert c.
  induction fuel as [|fuel IH]; intros [r|]; simpl; try done.
  assert (logger_at r st' = logger_at r st) as ->.
  { destruct r; simpl; [done | by rewrite Hd]. }
  case_decide; [apply IH | done].
Qed.

Lemma Logger_isEnabledFor_registry self lvl st st' :
  root st' = root st -> loggerDict st' = loggerDict st ->
  manager_disable st' = manager_disable st ->
  Logger_isEnabledFor self lvl st' = Logger_isEnabledFor self lvl st.
Proof.
  intros Hr Hd Hm. unfold Logger_isEnabledFor, Logger_getEffectiveLevel, chain_fuel.
  assert (logger_at self st' = logger_at self st) as ->.
  { destruct self; simpl; [done | by rewrite Hd]. }
  rewrite Hm. by rewrite (effective_level_walk_registry _ st st').
Qed.

(** ** The default level *)

Lemma _get_default_logging_level_run st :
  _get_default_logging_level st =
  match environ st !! "TRANSFORMERS_VERBOSITY" with
  | Some s =>
      if str_truthy s then
        match dict_get log_levels s with
        | Some lvl => (Returned lvl, st)
        | None =>
            (Returned _default_log_level,
             exec (Logger_warning RootLogger [unknown_verbosity_message s]) st)
        end
      else (Returned _default_log_level, st)
  | None => (Returned _default_log_level, st)
  end.
Proof.
  unfold _get_default_logging_level. unfold bind at 1. unfold os_getenv, gets at 1.
  cbv beta iota.
  destruct (environ st !! "TRANSFORMERS_VERBOSITY") as [s|]; [|done].
  destruct (str_truthy s); [|done].
  destruct (dict_get log_levels s) as [lvl|]; [done|].
  unfold logging_getLogger, bind, ret, exec. by rewrite Logger_warning_run.
Qed.

Lemma _get_default_logging_level_returns : returns _get_default_logging_level.
Proof.
  intros st. unfold eval. rewrite _get_default_logging_level_run.
  destruct (environ st !! _) as [s|]; [|by eexists].
  destruct (str_truthy s); [|by eexists].
  destruct (dict_get log_levels s); by eexists.
Qed.

Lemma _get_default_logging_level_emit_only st :
  exec _get_default_logging_level st =
  with_emitted (emitted (exec _get_default_logging_level st)) st.
Proof.
  pose proof (_get_default_logging_level_run st) as H.
  unfold exec. rewrite H.
  destruct (environ st !! _) as [s|]; [|by destruct st].
  destruct (str_truthy s); [|by destruct st].
  destruct (dict_get log_levels s); [by destruct st|].
  cbn [snd]. apply Logger_warning_emit_only.
Qed.

Lemma default_level_logger_at r st :
  logger_at r (exec _get_default_logging_level st) = logger_at r st.
Proof. rewrite _get_default_logging_level_emit_only. by destruct r. Qed.

Lemma default_level_is_logger n st :
  is_logger n st -> is_logger n (exec _get_default_logging_level st).
Proof. rewrite _get_default_logging_level_emit_only. done. Qed.

Lemma default_level_default_handler st :
  _default_handler (exec _get_default_logging_level st) = _default_handler st.
Proof. by rewrite _get_default_logging_level_emit_only. Qed.

Lemma default_level_heap st : heap (exec _get_default_logging_level st) = heap st.
Proof. by rewrite _get_default_logging_level_emit_only. Qed.

Lemma default_level_environ st : environ (exec _get_default_logging_level st) = environ st.
Proof. by rewrite _get_default_logging_level_emit_only. Qed.

Lemma default_level_warning_once_cache st :
  warning_once_cache (exec _get_default_logging_level st) = warning_once_cache st.
Proof. by rewrite _get_default_logging_level_emit_only. Qed.

Lemma default_level_run_eq st :
  exists lvl, _get_default_logging_level st =
              (Returned lvl, exec _get_default_logging_level st) /\
              eval _get_default_logging_level st = Returned lvl.
Proof.
  destruct (_get_default_logging_level_returns st) as [lvl H].
  exists lvl. split; [|done]. rewrite run_eq. by rewrite H.
Qed.

(** ** Attaching and detaching *)

Lemma handlers_attach h l :
  handlers (attach h l) =
  if decide (h ∈ handlers l) then handlers l else handlers l ++ [h].
Proof. unfold attach. by case_decide. Qed.

Lemma handlers_detach h l :
  handlers (detach h l) =
  if decide (h ∈ handlers l) then list_remove_first h (handlers l) else handlers l.
Proof. unfold detach. by case_decide. Qed.

Lemma level_attach h l : level (attach h l) = level l.
Proof. unfold attach. by case_decide. Qed.

Lemma level_detach h l : level (detach h l) = level l.
Proof. unfold detach. by case_decide. Qed.

Lemma propagate_attach h l : propagate (attach h l) = propagate l.
Proof. unfold attach. by case_decide. Qed.

Lemma propagate_detach h l : propagate (detach h l) = propagate l.
Proof. unfold detach. by case_decide. Qed.

Lemma elem_of_attach h l : h ∈ handlers (attach h l).
Proof. rewrite handlers_attach. case_decide; [done|]. set_solver. Qed.

Lemma list_remove_first_subset h x l : x ∈ list_remove_first h l -> x ∈ l.
Proof.
  induction l as [|y l IH]; simpl; [done|].
  case_decide.
  - apply list_elem_of_further.
  - intros [->|Hx]%elem_of_cons; [apply list_elem_of_here|].
    by apply list_elem_of_further, IH.
Qed.

Lemma NoDup_list_remove_first h l : NoDup l -> NoDup (list_remove_first h l).
Proof.
  induction 1 as [|y l Hy Hl IH]; simpl; [constructor|].
  case_decide; [done|]. constructor; [|done].
  intros Hin. apply Hy. by eapply list_remove_first_subset.
Qed.

Lemma not_elem_of_list_remove_first h l : NoDup l -> h ∉ list_remove_first h l.
Proof.
  induction 1 as [|y l Hy Hl IH]; simpl; [apply not_elem_of_nil|].
  case_decide; [by subst|].
  intros [?|?]%elem_of_cons; [done | by apply IH].
Qed.

Lemma NoDup_attach h l : NoDup (handlers l) -> NoDup (handlers (attach h l)).
Proof.
  intros H. rewrite handlers_attach. case_decide as Hin; [done|].
  apply NoDup_app. split; [done|]. split; [|apply NoDup_singleton].
  intros x Hx ->%list_elem_of_singleton. by apply Hin.
Qed.

Lemma NoDup_detach h l : NoDup (handlers l) -> NoDup (handlers (detach h l)).
Proof.
  intros H. rewrite handlers_detach. case_decide; [|done].
  by apply NoDup_list_remove_first.
Qed.

Lemma not_elem_of_detach h l : NoDup (handlers l) -> h ∉ handlers (detach h l).
Proof.
  intros H. rewrite handlers_detach. case_decide; [|done].
  by apply not_elem_of_list_remove_first.
Qed.

Lemma getroot_handlers r st :
  handlers (logger_at r (exec _get_library_root_logger st)) = handlers (logger_at r st).
Proof. apply logger_at_getroot. Qed.

Lemma getroot_level r st :
  level (logger_at r (exec _get_library_root_logger st)) = level (logger_at r st).
Proof. apply logger_at_getroot. Qed.

Lemma getroot_propagate r st :
  propagate (logger_at r (exec _get_library_root_logger st)) = propagate (logger_at r st).
Proof. apply logger_at_getroot. Qed.

Lemma is_logger_frame n st st' :
  loggerDict st' = loggerDict st -> is_logger n st -> is_logger n st'.
Proof. unfold is_logger. by intros ->. Qed.

Lemma logger_at_frame r st st' :
  root st' = root st -> loggerDict st' = loggerDict st ->
  logger_at r st' = logger_at r st.
Proof. intros Hr Hd. destruct r; simpl; [done | by rewrite Hd]. Qed.

Lemma library_root_update g st :
  is_logger _get_library_name st ->
  logger_at library_root (update_logger library_root g st) = g (logger_at library_root st).
Proof. apply logger_at_update_same. Qed.

Lemma root_update_library_root g st :
  root (update_logger library_root g st) = root st.
Proof.
  unfold library_root, update_logger.
  by destruct (loggerDict st !! _get_library_name) as [[l|cs]|].
Qed.

(** ** Lazy initialisation *)

#[local] Arguments _get_library_root_logger : simpl never.
#[local] Arguments Manager_getLogger : simpl never.
#[local] Arguments _get_default_logging_level : simpl never.
#[local] Arguments update_logger : simpl never.
#[local] Arguments exec : simpl never.
#[local] Arguments library_root : simpl never.
#[local] Arguments Logger_isEnabledFor : simpl never.
#[local] Arguments Logger_callHandlers : simpl never.
#[local] Arguments attach : simpl never.
#[local] Arguments detach : simpl never.
#[local] Arguments attached : simpl never.

Create Rewrite HintDb fields.
#[local] Hint Rewrite update_logger_environ update_logger_sys_stderr update_logger_heap
  update_logger_manager_disable update_logger_emitted update_logger_default_handler
  update_logger_warning_once_cache update_logger_info_once_cache
  getroot_environ getroot_sys_stderr getroot_heap getroot_root getroot_manager_disable
  getroot_emitted getroot_default_handler getroot_warning_once_cache
  default_level_default_handler default_level_heap default_level_environ
  default_level_warning_once_cache : fields.

(** Setters of fields outside the registry do not change what a logger
    reference denotes. *)
Ltac strip_frames :=
  repeat match goal with
    | |- context [logger_at ?r (with_sys_stderr ?v ?S)] =>
        change (logger_at r (with_sys_stderr v S)) with (logger_at r S)
    | |- context [is_logger ?n (with_sys_stderr ?v ?S)] =>
        change (is_logger n (with_sys_stderr v S)) with (is_logger n S)
    | |- context [logger_at ?r (with_heap ?v ?S)] =>
        change (logger_at r (with_heap v S)) with (logger_at r S)
    | |- context [is_logger ?n (with_heap ?v ?S)] =>
        change (is_logger n (with_heap v S)) with (is_logger n S)
    | |- context [logger_at ?r (with_warnings_captured ?v ?S)] =>
        change (logger_at r (with_warnings_captured v S)) with (logger_at r S)
    | |- context [is_logger ?n (with_warnings_captured ?v ?S)] =>
        change (is_logger n (with_warnings_captured v S)) with (is_logger n S)
    | |- context [logger_at ?r (with_emitted ?v ?S)] =>
        change (logger_at r (with_emitted v S)) with (logger_at r S)
    | |- context [is_logger ?n (with_emitted ?v ?S)] =>
        change (is_logger n (with_emitted v S)) with (is_logger n S)
    | |- context [logger_at ?r (with_default_handler ?v ?S)] =>
        change (logger_at r (with_default_handler v S)) with (logger_at r S)
    | |- context [is_logger ?n (with_default_handler ?v ?S)] =>
        change (is_logger n (with_default_handler v S)) with (is_logger n S)
    | |- context [logger_at ?r (with_tqdm_active ?v ?S)] =>
        change (logger_at r (with_tqdm_active v S)) with (logger_at r S)
    | |- context [is_logger ?n (with_tqdm_active ?v ?S)] =>
        change (is_logger n (with_tqdm_active v S)) with (is_logger n S)
    | |- context [logger_at ?r (with_hub_calls ?v ?S)] =>
        change (logger_at r (with_hub_calls v S)) with (logger_at r S)
    | |- context [is_logger ?n (with_hub_calls ?v ?S)] =>
        change (is_logger n (with_hub_calls v S)) with (is_logger n S)
    | |- context [logger_at ?r (with_warning_once_cache ?v ?S)] =>
        change (logger_at r (with_warning_once_cache v S)) with (logger_at r S)
    | |- context [is_logger ?n (with_warning_once_cache ?v ?S)] =>
        change (is_logger n (with_warning_once_cache v S)) with (is_logger n S)
    | |- context [logger_at ?r (with_info_once_cache ?v ?S)] =>
        change (logger_at r (with_info_once_cache v S)) with (logger_at r S)
    | |- context [is_logger ?n (with_info_once_cache ?v ?S)] =>
        change (is_logger n (with_info_once_cache v S)) with (is_logger n S)
    end.

Ltac solve_is_logger :=
  repeat first
    [ apply is_logger_getroot
    | apply is_logger_update_logger
    | apply default_level_is_logger
    | progress strip_frames ].

Ltac fields := repeat (progress (autorewrite with fields; cbn)).

(** Reads the library root logger through the updates made on top of it. *)
Ltac library_root_at :=
  repeat first
    [ rewrite library_root_update by solve_is_logger
    | rewrite default_level_logger_at
    | progress strip_frames
    | progress cbn [handlers level propagate set_level set_propagate set_handlers]
    | rewrite handlers_attach | rewrite level_attach | rewrite propagate_attach
    | rewrite handlers_detach | rewrite level_detach | rewrite propagate_detach
    | rewrite getroot_handlers | rewrite getroot_level | rewrite getroot_propagate ].

Ltac run_getroot :=
  match goal with
  | |- context [bind _get_library_root_logger ?k ?s] =>
      rewrite (bind_run _get_library_root_logger k s _ _ (getroot_run s))
  end.

Ltac run_default_level lvl Hev :=
  match goal with
  | |- context [bind _get_default_logging_level ?k ?s] =>
      let Hrun := fresh "Hrun" in
      destruct (default_level_run_eq s) as (lvl & Hrun & Hev);
      rewrite (bind_run _get_default_logging_level k s _ _ Hrun); clear Hrun
  end.

(** Once the default handler exists, initialisation does nothing. *)
Lemma configure_done st h :
  _default_handler st = Some h ->
  _configure_library_root_logger st = (Returned tt, st).
Proof. intros H. unfold _configure_library_root_logger, bind, gets. by rewrite H. Qed.

(** The first initialisation, step by step.  [st5] is the state in which
    the initial level is computed. *)
Lemma configure_first st :
  _default_handler st = None ->
  exists st5 lvl,
    eval _get_default_logging_level st5 = Returned lvl /\
    environ st5 = environ st /\ root st5 = root st /\
    manager_disable st5 = manager_disable st /\ emitted st5 = emitted st /\
    eval _configure_library_root_logger st = Returned tt /\
    _default_handler (exec _configure_library_root_logger st) =
      Some (fresh (dom (heap st))) /\
    is_logger _get_library_name (exec _configure_library_root_logger st) /\
    attached (exec _configure_library_root_logger st) =
      (if decide (fresh (dom (heap st)) ∈ attached st) then attached st
       else attached st ++ [fresh (dom (heap st))]) /\
    level (logger_at library_root (exec _configure_library_root_logger st)) = lvl /\
    propagate (logger_at library_root (exec _configure_library_root_logger st)) = false /\
    emitted (exec _configure_library_root_logger st) =
      emitted (exec _get_default_logging_level st5).
Proof.
  intros H. unfold eval, exec at 1 2 3 4 5 6 7. unfold _configure_library_root_logger.
  unfold bind at 1. cbn. rewrite H. cbn.
  destruct (sys_stderr st) eqn:Herr; cbn;
    run_getroot; cbn; run_default_level lvl Hev; cbn;
    autorewrite with fields; cbn;
    destruct (decide (environ st !! "TRANSFORMERS_VERBOSITY" = Some "detail")); cbn.
  all: eexists _, lvl.
  all: split; [exact Hev|].
  all: split; [by fields|].
  all: split; [by rewrite root_update_library_root, getroot_root|].
  all: split; [by fields|].
  all: split; [by fields|].
  all: split; [done|].
  all: split; [by fields|].
  all: split; [solve_is_logger|].
  all: unfold attached.
  all: split; [by library_root_at|].
  all: split; [by library_root_at|].
  all: split; [by library_root_at|].
  all: by fields.
Qed.

(** Initialisation never raises and leaves a default handler behind. *)
Lemma configure_run st :
  exists h,
    _configure_library_root_logger st =
      (Returned tt, exec _configure_library_root_logger st) /\
    _default_handler (exec _configure_library_root_logger st) = Some h.
Proof.
  destruct (_default_handler st) as [h|] eqn:Hdh.
  - exists h. unfold exec. rewrite (configure_done st h Hdh). done.
  - destruct (configure_first st Hdh) as (st5 & lvl & _ & _ & _ & _ & _ & Hev & Hh & _).
    eexists. split; [|exact Hh]. rewrite run_eq. by rewrite Hev.
Qed.

Ltac run_configure h Hh :=
  match goal with
  | |- context [bind _configure_library_root_logger ?k ?s] =>
      let Hrun := fresh "Hrun" in
      destruct (configure_run s) as (h & Hrun & Hh);
      rewrite (bind_run _configure_library_root_logger k s _ _ Hrun); clear Hrun
  end.

#[local] Arguments _configure_library_root_logger : simpl never.

(** ** What the controller operations compute *)

Lemma disable_default_handler_run st :
  exists h,
    _default_handler (exec _configure_library_root_logger st) = Some h /\
    disable_default_handler st =
      (Returned tt,
       update_logger library_root (detach h)
         (exec _get_library_root_logger (exec _configure_library_root_logger st))).
Proof.
  unfold disable_default_handler. run_configure h Hh. exists h. split; [done|].
  cbn. rewrite Hh. cbn. run_getroot. done.
Qed.

Lemma enable_default_handler_run st :
  exists h,
    _default_handler (exec _configure_library_root_logger st) = Some h /\
    enable_default_handler st =
      (Returned tt,
       update_logger library_root (attach h)
         (exec _get_library_root_logger (exec _configure_library_root_logger st))).
Proof.
  unfold enable_default_handler. run_configure h Hh. exists h. split; [done|].
  cbn. rewrite Hh. cbn. run_getroot. done.
Qed.

Lemma set_verbosity_run v st :
  set_verbosity v st =
    (Returned tt,
     update_logger library_root (set_level v)
       (exec _get_library_root_logger (exec _configure_library_root_logger st))).
Proof. unfold set_verbosity. run_configure h Hh. run_getroot. done. Qed.

Lemma get_verbosity_run st :
  get_verbosity st =
    (Returned
       (Logger_getEffectiveLevel library_root
          (exec _get_library_root_logger (exec _configure_library_root_logger st))),
     exec _get_library_root_logger (exec _configure_library_root_logger st)).
Proof. unfold get_verbosity. run_configure h Hh. run_getroot. done. Qed.

Lemma remove_handler_run handler st :
  let st0 := exec _configure_library_root_logger st in
  let st1 := exec _get_library_root_logger st0 in
  remove_handler handler st =
    match handler with
    | Some h =>
        if decide (h ∈ attached st1) then (Raised AssertionError, st1)
        else (Returned tt,
              update_logger library_root (detach h) (exec _get_library_root_logger st1))
    | None => (Raised AssertionError, st0)
    end.
Proof.
  unfold remove_handler. run_configure h' Hh.
  destruct handler as [h|]; [|done].
  unfold bind at 1. run_getroot. cbn.
  fold (attached (exec _get_library_root_logger (exec _configure_library_root_logger st))).
  destruct (decide (h ∈ attached _)) as [Hin|Hin].
  - by rewrite bool_decide_false by (intros Hn; by apply Hn).
  - rewrite bool_decide_true by done. cbn. run_getroot. done.
Qed.

Lemma add_handler_run handler st :
  add_handler handler st =
    match handler with
    | Some h =>
        (Returned tt,
         update_logger library_root (attach h)
           (exec _get_library_root_logger (exec _configure_library_root_logger st)))
    | None => (Raised AssertionError, exec _configure_library_root_logger st)
    end.
Proof.
  unfold add_handler. run_configure h' Hh. cbn.
  destruct handler as [h|]; cbn; [|done]. run_getroot. done.
Qed.

(** A logger whose own level is set answers with it. *)
Lemma Logger_getEffectiveLevel_own r st :
  level (logger_at r st) <> 0 ->
  Logger_getEffectiveLevel r st = level (logger_at r st).
Proof.
  intros H. unfold Logger_getEffectiveLevel, chain_fuel. cbn [effective_level_walk].
  by rewrite decide_False.
Qed.

Lemma configure_exec_done st h :
  _default_handler st = Some h -> exec _configure_library_root_logger st = st.
Proof.
  intros H. unfold exec. by rewrite (configure_done st h H).
Qed.

Lemma configure_exec_initialised st :
  is_Some (_default_handler st) -> exec _configure_library_root_logger st = st.
Proof. intros [h H]. by eapply configure_exec_done. Qed.

Lemma configure_initialises st :
  is_Some (_default_handler (exec _configure_library_root_logger st)).
Proof. destruct (configure_run st) as (h & _ & Hh). by exists h. Qed.

(** The state [set_verbosity] leaves is initialised and has the level. *)
Lemma set_verbosity_post lvl st :
  is_Some (_default_handler (exec (set_verbosity lvl) st)) /\
  is_logger _get_library_name (exec (set_verbosity lvl) st) /\
  level (logger_at library_root (exec (set_verbosity lvl) st)) = lvl.
Proof.
  unfold exec at 1 2 3. rewrite set_verbosity_run. cbn [snd]. split; [|split].
  - fields. apply configure_initialises.
  - solve_is_logger.
  - by library_root_at.
Qed.

Lemma not_elem_of_remove_if (h : Handler) (l : list Handler) :
  NoDup l -> h ∉ (if decide (h ∈ l) then list_remove_first h l else l).
Proof. intros H. case_decide; [by apply not_elem_of_list_remove_first | done]. Qed.

Lemma NoDup_append_if (h : Handler) (l : list Handler) :
  NoDup l -> NoDup (if decide (h ∈ l) then l else l ++ [h]).
Proof.
  intros H. case_decide as Hin; [done|]. apply NoDup_app. split; [done|].
  split; [|apply NoDup_singleton].
  intros x Hx ->%list_elem_of_singleton. by apply Hin.
Qed.

(** Initialisation keeps the handlers of the library root logger free of
    repetitions. *)
Lemma configure_attached_once st :
  attached_once st -> attached_once (exec _configure_library_root_logger st).
Proof.
  intros H. unfold attached_once in *.
  destruct (_default_handler st) as [h0|] eqn:Hdh.
  - by rewrite (configure_exec_done st h0 Hdh).
  - destruct (configure_first st Hdh) as (_ & _ & _ & _ & _ & _ & _ & _ & _ & _ & Ha & _).
    rewrite Ha. by apply NoDup_append_if.
Qed.

(** ** What every operation preserves *)

#[local] Instance cache_grows_preorder : PreOrder cache_grows.
Proof. split; unfold cache_grows; [intros st; set_solver | intros s1 s2 s3; set_solver]. Qed.

#[local] Instance keeps_preorder P : PreOrder (keeps P).
Proof. split; unfold keeps; [intros st | intros s1 s2 s3]; tauto. Qed.

#[local] Instance cache_grows_ext : ExtClosed cache_grows.
Proof.
  intros st st' H. unfold cache_grows.
  destruct (registry_ext_outside _ _ H) as (_&_&_&_&_&_&_&_&_&_&->&_). done.
Qed.

#[local] Instance keeps_ext P `{!SettingsOnly P} : ExtClosed (keeps P).
Proof.
  intros st st' (_ & H & _). unfold keeps. apply settings_only, H.
Qed.

#[local] Instance no_repeated_handler_settings : SettingsOnly no_repeated_handler.
Proof. intros l l' (H & _). unfold no_repeated_handler. by rewrite H. Qed.

#[local] Instance not_propagating_settings : SettingsOnly not_propagating.
Proof. intros l l' (_ & _ & H & _). unfold not_propagating. by rewrite H. Qed.

Lemma preserves_logging_getLogger R `{!PreOrder R, !ExtClosed R} name :
  preserves R (logging_getLogger name).
Proof. intros st. apply ext_closed, logging_getLogger_ext. Qed.

(** An update of a logger keeps a property of the library root logger
    that the update itself keeps. *)
Lemma keeps_update_logger P r g st :
  (forall l, P l -> P (g l)) -> keeps P st (update_logger r g st).
Proof.
  intros Hg. unfold keeps. rewrite logger_at_update_logger.
  case_decide as E; [|done]. subst r. unfold library_root. simpl.
  destruct (loggerDict st !! _get_library_name) as [[l|cs]|]; auto.
Qed.

Lemma cache_grows_update_logger r g st : cache_grows st (update_logger r g st).
Proof. unfold cache_grows. by rewrite update_logger_warning_once_cache. Qed.

(** Walks a computation down to its state updates. *)
Ltac preserves_walk leaf :=
  repeat match goal with
    | |- preserves ?R (ret _) => apply (preserves_ret R)
    | |- preserves ?R (gets _) => apply (preserves_gets R)
    | |- preserves ?R (raise _) => apply (preserves_raise R)
    | |- preserves ?R (assert _) => apply (preserves_assert R)
    | |- preserves ?R (bind _ _) => apply (preserves_bind R); [|intros ?]
    | |- preserves ?R (for_each _ _) => apply (preserves_for_each R); intros ?
    | |- preserves ?R (logging_getLogger _) => apply (preserves_logging_getLogger R)
    | |- preserves ?R (modify _) => apply (preserves_modify R); intros ?; leaf
    | |- preserves _ (match ?x with _ => _ end) => destruct x
    | |- preserves _ _ =>
        progress unfold _configure_library_root_logger, _reset_library_root_logger,
          get_log_levels_dict, get_logger, captureWarnings, get_verbosity, set_verbosity,
          set_verbosity_info, set_verbosity_warning, set_verbosity_debug,
          set_verbosity_error, disable_default_handler, enable_default_handler,
          add_handler, remove_handler, disable_propagation, enable_propagation,
          enable_explicit_format, reset_format, warning_advice, warning_once, info_once,
          is_progress_bar_enabled, enable_progress_bar, disable_progress_bar,
          hf_hub_enable_progress_bars, hf_hub_disable_progress_bars,
          _get_default_logging_level, _get_library_root_logger,
          Logger_addHandler, Logger_removeHandler, Logger_setLevel, Logger_warning,
          Logger_info, Logger_log, logging_StreamHandler, Handler_setFormatter,
          os_getenv, _captureWarnings
    end.

Ltac cache_leaf :=
  first
    [ apply cache_grows_update_logger
    | unfold cache_grows; cbn; set_solver ].

Lemma run_op_cache_grows o : preserves cache_grows (run_op o).
Proof. destruct o; unfold run_op; preserves_walk cache_leaf. Qed.

Ltac keeps_leaf tac :=
  first
    [ apply keeps_update_logger; intros ?; tac
    | unfold keeps; strip_frames; done ].

Lemma run_op_attached_once o : preserves (keeps no_repeated_handler) (run_op o).
Proof.
  destruct o; unfold run_op;
    preserves_walk ltac:(keeps_leaf ltac:(
      unfold no_repeated_handler;
      first [ apply NoDup_attach | apply NoDup_detach | done ])).
Qed.

Lemma run_op_not_propagating o :
  o <> OpEnablePropagation -> preserves (keeps not_propagating) (run_op o).
Proof.
  intros Ho.
  destruct o; try done; unfold run_op;
    preserves_walk ltac:(keeps_leaf ltac:(
      unfold not_propagating;
      first [ by rewrite propagate_attach | by rewrite propagate_detach | done ])).
Qed.

Lemma run_ops_preserves R `{!PreOrder R} ops st :
  (forall o, o ∈ ops -> preserves R (run_op o)) -> R st (run_ops ops st).
Proof. apply (preserves_run_ops_step R). Qed.

(** ** The parent chains are finite *)

Lemma length_substring_prefix s : forall n,
  (n <= String.length s)%nat -> String.length (substring 0 n s) = n.
Proof.
  induction s as [|c s IH]; intros [|n] H; simpl in *; try done; try lia.
  rewrite IH; lia.
Qed.

Lemma node_wf_weaken name n node : node_wf n node -> node_wf_but name n node.
Proof. destruct node; simpl; auto. Qed.

(** An update that keeps the parent keeps the shape. *)
Lemma registry_wf_update_logger r g st :
  (forall l, parent (g l) = parent l) ->
  registry_wf st -> registry_wf (update_logger r g st).
Proof.
  intros Hg [Hroot Hd]. destruct r as [|n]; unfold registry_wf, update_logger; simpl.
  - split; [by rewrite Hg | done].
  - destruct (loggerDict st !! n) as [[l|cs]|] eqn:Hn; try done.
    split; [exact Hroot|]. simpl. apply map_Forall_insert_2; [|done].
    intros p. rewrite Hg. by apply (map_Forall_lookup_1 _ _ _ _ Hd Hn).
Qed.

(** The step from a logger to its parent shortens the way to the root. *)
Lemma chain_measure_parent r st :
  registry_wf st ->
  (chain_measure (parent (logger_at r st)) < chain_measure (Some r))%nat.
Proof.
  intros [Hroot Hd]. destruct r as [|n]; simpl.
  - rewrite Hroot. simpl. lia.
  - destruct (loggerDict st !! n) as [[l|cs]|] eqn:Hn; simpl; try lia.
    pose proof (map_Forall_lookup_1 _ _ _ _ Hd Hn) as Hl. simpl in Hl.
    destruct (parent l) as [[|p]|]; simpl; try lia.
    specialize (Hl p eq_refl). lia.
Qed.

(** With the shape above, the walks never stop for lack of fuel: any
    amount from the measure of the chain on gives the same result. *)
Lemma effective_level_walk_fuel st :
  registry_wf st ->
  forall fuel fuel' c,
    (chain_measure c <= fuel)%nat -> (chain_measure c <= fuel')%nat ->
    effective_level_walk fuel st c = effective_level_walk fuel' st c.
Proof.
  intros Hwf. induction fuel as [|fuel IH]; intros fuel' [r|] H H'.
  - destruct r; simpl in H; lia.
  - by destruct fuel'.
  - destruct fuel' as [|fuel']; [destruct r; simpl in H'; lia|].
    simpl. case_decide; [|done].
    pose proof (chain_measure_parent r st Hwf). apply IH; lia.
  - by destruct fuel'.
Qed.

Lemma callHandlers_walk_fuel st lvl :
  registry_wf st ->
  forall fuel fuel' c,
    (chain_measure c <= fuel)%nat -> (chain_measure c <= fuel')%nat ->
    callHandlers_walk fuel st c lvl = callHandlers_walk fuel' st c lvl.
Proof.
  intros Hwf. induction fuel as [|fuel IH]; intros fuel' [r|] H H'.
  - destruct r; simpl in H; lia.
  - by destruct fuel'.
  - destruct fuel' as [|fuel']; [destruct r; simpl in H'; lia|].
    simpl. destruct (propagate (logger_at r st)); [|done].
    pose proof (chain_measure_parent r st Hwf).
    rewrite (IH fuel' (parent (logger_at r st))) by lia. done.
  - by destruct fuel'.
Qed.

Lemma chain_fuel_measure r : (chain_measure (Some r) <= chain_fuel r)%nat.
Proof. destruct r; unfold chain_fuel; simpl; lia. Qed.

(** *** [getLogger] keeps the shape *)

Lemma fixupParents_loop_wf name : forall fuel i dict,
  i < Z.of_nat (String.length name) ->
  map_Forall (node_wf_but name) dict ->
  map_Forall (node_wf_but name) (fixupParents_loop fuel name i dict).2 /\
  (forall p, (fixupParents_loop fuel name i dict).1 = Some (Named p) ->
             (String.length p < String.length name)%nat).
Proof.
  induction fuel as [|fuel IH]; intros i dict Hi Hd; simpl; [done|].
  case_bool_decide as Hpos; [|done].
  set (substr := substring 0 (Z.to_nat i) name).
  assert (String.length substr < String.length name)%nat as Hlen.
  { subst substr. rewrite length_substring_prefix; lia. }
  assert (rfind_dot name (Z.to_nat (i - 1)) < Z.of_nat (String.length name)) as Hnext.
  { destruct (decide (i = 1)) as [->|].
    - simpl. unfold rfind_dot. destruct name; simpl; lia.
    - pose proof (rfind_dot_lt name (Z.to_nat (i - 1))). lia. }
  destruct (dict !! substr) as [[l|cs]|] eqn:Hs; simpl.
  - split; [done|]. intros p [= <-]. done.
  - apply IH; [done|]. apply map_Forall_insert_2; [|done].
    simpl. intros c Hc. unfold placeholder_append in Hc.
    pose proof (map_Forall_lookup_1 _ _ _ _ Hd Hs) as Hcs. simpl in Hcs.
    case_decide; [by apply Hcs|].
    apply elem_of_app in Hc as [Hc|Hc%list_elem_of_singleton]; [by apply Hcs | by subst].
  - apply IH; [done|]. apply map_Forall_insert_2; [|done].
    simpl. intros c Hc%list_elem_of_singleton. by subst.
Qed.

Lemma Manager_fixupParents_wf name st :
  is_logger name st ->
  parent (root st) = None ->
  map_Forall (node_wf_but name) (loggerDict st) ->
  registry_wf (exec (Manager_fixupParents name) st).
Proof.
  intros [l0 Hl0] Hroot Hd. unfold Manager_fixupParents, exec, modify; cbn [snd].
  assert (rfind_dot name (String.length name) < Z.of_nat (String.length name)) as Hi.
  { destruct name as [|c name]; [done|]. apply rfind_dot_lt. simpl. lia. }
  destruct (fixupParents_loop_wf name (String.length name) _ (loggerDict st) Hi Hd)
    as [Hd' Hrv].
  pose proof (fixupParents_loop_ext (String.length name) name
                (rfind_dot name (String.length name)) st) as (_ & _ & Hlog).
  destruct (fixupParents_loop _ _ _ _) as [rv d']; simpl in *.
  destruct (Hlog name (ex_intro _ l0 Hl0)) as [l Hl]. simpl in Hl.
  unfold update_logger. simpl. rewrite Hl. split; [done|]. simpl.
  intros n node Hn. destruct (decide (name = n)) as [<-|Hne].
  - rewrite lookup_insert_eq in Hn. injection Hn as <-. simpl.
    intros p Hp. apply Hrv. destruct rv as [rv|]; [|done]. by injection Hp as ->.
  - rewrite lookup_insert_ne in Hn by done.
    pose proof (Hd' n node Hn) as Hw. destruct node; simpl in *; auto.
Qed.

Lemma fixupChildren_step_wf name c st :
  (String.length name < String.length c)%nat ->
  parent (root st) = None ->
  map_Forall (node_wf_but name) (loggerDict st) ->
  parent (root (fixupChildren_step name st c)) = None /\
  map_Forall (node_wf_but name) (loggerDict (fixupChildren_step name st c)).
Proof.
  intros Hlen Hroot Hd. unfold fixupChildren_step.
  destruct (parent (logger_at (Named c) st)) as [p|]; [|done].
  case_decide; [done|].
  assert (forall g, parent (root (update_logger (Named name) g st)) = None /\
            map_Forall (node_wf_but name)
              (loggerDict (update_logger (Named name) g st))) as H1.
  { intros g. unfold update_logger.
    destruct (loggerDict st !! name) as [[l|cs]|] eqn:Hn; try done.
    split; [done|]. simpl. apply map_Forall_insert_2; [|done]. simpl. done. }
  destruct (H1 (set_parent (Some p))) as [Hroot1 Hd1].
  set (st1 := update_logger (Named name) (set_parent (Some p)) st) in *.
  unfold update_logger.
  destruct (loggerDict st1 !! c) as [[l|cs]|] eqn:Hc; try done.
  split; [done|]. simpl. apply map_Forall_insert_2; [|done].
  simpl. intros _ q [= <-]. done.
Qed.

Lemma Manager_fixupChildren_wf children name st :
  (forall c, c ∈ children -> (String.length name < String.length c)%nat) ->
  parent (root st) = None ->
  map_Forall (node_wf_but name) (loggerDict st) ->
  parent (root (exec (Manager_fixupChildren children name) st)) = None /\
  map_Forall (node_wf_but name)
    (loggerDict (exec (Manager_fixupChildren children name) st)).
Proof.
  unfold Manager_fixupChildren, exec, modify; cbn [snd].
  revert st. induction children as [|c cs IH]; intros st Hcs Hroot Hd; [done|].
  cbn [fold_left].
  destruct (fixupChildren_step_wf name c st) as [Hroot1 Hd1];
    [apply Hcs, list_elem_of_here | done | done |].
  apply IH; [|done|done]. intros c' Hc'. by apply Hcs, list_elem_of_further.
Qed.

Lemma Manager_getLogger_wf name st :
  registry_wf st -> registry_wf (exec (Manager_getLogger name) st).
Proof.
  intros [Hroot Hd]. rewrite Manager_getLogger_exec.
  assert (map_Forall (node_wf_but name)
            (<[name := NLogger new_logger]> (loggerDict st))) as Hins.
  { apply map_Forall_insert_2; [done|].
    intros n node Hn. by apply node_wf_weaken, (Hd n node). }
  destruct (loggerDict st !! name) as [[l|cs]|] eqn:Hn; [done| |].
  - pose proof (map_Forall_lookup_1 _ _ _ _ Hd Hn) as Hcs. simpl in Hcs.
    destruct (Manager_fixupChildren_wf cs name
                (with_loggerDict (<[name := NLogger new_logger]> (loggerDict st)) st))
      as [Hroot1 Hd1]; [done|done|done|].
    apply Manager_fixupParents_wf; [|done|done].
    apply Manager_fixupChildren_ext, is_logger_insert.
  - apply Manager_fixupParents_wf; [apply is_logger_insert | done | done].
Qed.

#[local] Instance keeps_wf_preorder : PreOrder keeps_wf.
Proof. split; unfold keeps_wf; [intros st | intros s1 s2 s3]; tauto. Qed.

Lemma keeps_wf_logging_getLogger name : preserves keeps_wf (logging_getLogger name).
Proof.
  intros st H. destruct name as [n|]; simpl; [|done].
  case_decide; [done|]. by apply Manager_getLogger_wf.
Qed.

Ltac wf_leaf :=
  first
    [ apply registry_wf_update_logger;
      [ intros ?; first [ reflexivity | unfold attach, detach; by case_decide ]
      | assumption ]
    | match goal with H : registry_wf _ |- _ => exact H end ].

(** Walks a computation for [keeps_wf]; fetching a logger is its own
    case. *)
Ltac preserves_wf_walk :=
  repeat match goal with
    | |- preserves keeps_wf (logging_getLogger _) => apply keeps_wf_logging_getLogger
    | |- preserves keeps_wf (modify _) =>
        apply (preserves_modify keeps_wf); intros ? ?; wf_leaf
    | |- preserves keeps_wf _ => progress preserves_walk fail
    end.

Lemma run_op_registry_wf o : preserves keeps_wf (run_op o).
Proof. destruct o; unfold run_op; preserves_wf_walk. Qed.

Lemma initial_state_wf env hub : registry_wf (initial_state env hub).
Proof. split; [done | apply map_Forall_empty]. Qed.

Lemma run_ops_registry_wf ops st : registry_wf st -> registry_wf (run_ops ops st).
Proof.
  apply (run_ops_preserves keeps_wf). intros o _. apply run_op_registry_wf.
Qed.

(** In every state the operations reach from the start of the process, the
    loops of [getEffectiveLevel] and [callHandlers] end before their fuel
    does: more fuel gives the same level and the same handlers. *)
Lemma walks_within_fuel ops env hub r lvl extra :
  let st := run_ops ops (initial_state env hub) in
  effective_level_walk (chain_fuel r + extra) st (Some r) =
    Logger_getEffectiveLevel r st /\
  callHandlers_walk (chain_fuel r + extra) st (Some r) lvl =
    callHandlers_walk (chain_fuel r) st (Some r) lvl.
Proof.
  intros st.
  assert (registry_wf st) as Hwf by apply run_ops_registry_wf, initial_state_wf.
  pose proof (chain_fuel_measure r).
  split.
  - apply effective_level_walk_fuel; [done | lia | done].
  - apply callHandlers_walk_fuel; [done | lia | done].
Qed.

(** ** Lemmas for the contract *)

Lemma filter_eq_NoDup_length (h : Handler) (l : list Handler) :
  NoDup l -> (length (filter (fun x => x = h) l) <= 1)%nat.
Proof.
  induction 1 as [|y l Hy Hl IH]; simpl; [lia|].
  rewrite filter_cons. case_decide as E; [|done]. subst y. simpl.
  assert (filter (fun x => x = h) l = []) as ->; [|simpl; lia].
  apply length_zero_iff_nil.
  destruct (filter (fun x => x = h) l) as [|z zs] eqn:Hf; [done|].
  assert (z ∈ filter (fun x => x = h) l) as Hz by (rewrite Hf; set_solver).
  apply list_elem_of_filter in Hz as [-> Hz]. done.
Qed.

Lemma attached_once_attachments st :
  attached_once st -> (default_handler_attachments st <= 1)%nat.
Proof.
  intros H. unfold default_handler_attachments.
  destruct (_default_handler st); [by apply filter_eq_NoDup_length | lia].
Qed.

Lemma run_ops_attached_once ops st :
  attached_once st -> attached_once (run_ops ops st).
Proof.
  apply (run_ops_preserves (keeps no_repeated_handler)).
  intros o _. apply run_op_attached_once.
Qed.

(** [get_logger] initialises, then fetches the logger. *)
Lemma get_logger_exec name st :
  exec (get_logger name) st =
  exec (logging_getLogger
          (Some (match name with None => _get_library_name | Some n => n end)))
       (exec _configure_library_root_logger st).
Proof.
  unfold exec at 1. unfold get_logger. run_configure h Hh. done.
Qed.

Lemma propagate_ext st st' r :
  registry_ext st st' -> propagate (logger_at r st') = propagate (logger_at r st).
Proof. intros (_ & H & _). apply H. Qed.

(** With propagation off, the handlers that take a record logged on the
    library root logger are its own. *)
Lemma callHandlers_not_propagating lvl st :
  propagate (logger_at library_root st) = false ->
  forall s, s ∈ Logger_callHandlers library_root lvl st ->
            s = ToLastResort \/ exists h, s = ToHandler h /\ h ∈ attached st.
Proof.
  intros Hp s. unfold Logger_callHandlers, chain_fuel. cbn [callHandlers_walk].
  rewrite Hp. cbn [fst snd]. rewrite app_nil_r, Nat.add_0_r.
  fold (attached st). destruct (length (attached st)).
  - case_bool_decide.
    + intros ->%list_elem_of_singleton. by left.
    + by intros ?%not_elem_of_nil.
  - intros Hs. right. apply list_elem_of_fmap in Hs as (h & -> & Hh).
    exists h. split; [done|]. by apply list_elem_of_filter in Hh as [_ Hh].
Qed.

Lemma warning_once_hit self args st :
  (self, args) ∈ warning_once_cache st ->
  warning_once self args st = (Returned tt, st).
Proof.
  intros H. unfold warning_once, bind, gets. by rewrite decide_True.
Qed.

Lemma warning_once_miss self m rest st :
  (self, m :: rest) ∉ warning_once_cache st ->
  warning_once self (m :: rest) st =
    (Returned tt,
     with_warning_once_cache (warning_once_cache st ++ [(self, m :: rest)])
       (exec (Logger_warning self (m :: rest)) st)).
Proof.
  intros H. unfold warning_once. unfold bind at 1, gets. rewrite decide_False by done.
  unfold bind, modify, exec. rewrite Logger_warning_run. cbn [snd].
  by destruct (Logger_isEnabledFor self WARNING st).
Qed.

Lemma Logger_warning_records self m rest st :
  Logger_isEnabledFor self WARNING st = true ->
  record <$> emitted (exec (Logger_warning self (m :: rest)) st) =
  (record <$> emitted st) ++ [mkLogRecord self WARNING m rest].
Proof.
  intros H. unfold exec. rewrite Logger_warning_run, H. cbn.
  by rewrite fmap_app.
Qed.

Lemma warning_once_miss_records self m rest st :
  (self, m :: rest) ∉ warning_once_cache st ->
  Logger_isEnabledFor self WARNING st = true ->
  record <$> emitted (exec (warning_once self (m :: rest)) st) =
  (record <$> emitted st) ++ [mkLogRecord self WARNING m rest].
Proof.
  intros Hc He. unfold exec. rewrite warning_once_miss by done. cbn [snd].
  change (emitted (with_warning_once_cache ?v ?s)) with (emitted s).
  by apply Logger_warning_records.
Qed.

Lemma warning_once_miss_enabled self m rest r lvl st :
  (self, m :: rest) ∉ warning_once_cache st ->
  Logger_isEnabledFor r lvl (exec (warning_once self (m :: rest)) st) =
  Logger_isEnabledFor r lvl st.
Proof.
  intros Hc. unfold exec. rewrite warning_once_miss by done. cbn [snd].
  apply Logger_isEnabledFor_registry; by rewrite Logger_warning_emit_only.
Qed.

Lemma warning_once_miss_cache self m rest st :
  (self, m :: rest) ∉ warning_once_cache st ->
  warning_once_cache (exec (warning_once self (m :: rest)) st) =
  warning_once_cache st ++ [(self, m :: rest)].
Proof. intros Hc. unfold exec. by rewrite warning_once_miss by done. Qed.

(** Whether the root logger is enabled for a level depends on the root
    logger and the manager's threshold only. *)
Lemma Logger_isEnabledFor_root lvl st st' :
  parent (root st) = None -> root st' = root st ->
  manager_disable st' = manager_disable st ->
  Logger_isEnabledFor RootLogger lvl st' = Logger_isEnabledFor RootLogger lvl st.
Proof.
  intros Hp Hr Hm.
  unfold Logger_isEnabledFor, Logger_getEffectiveLevel, chain_fuel.
  cbn [effective_level_walk logger_at]. rewrite Hr, Hm, Hp.
  by destruct (decide (level (root st) = 0)).
Qed.

Lemma dict_get_log_levels_unknown_nonempty v :
  dict_get log_levels v = None -> v <> "" -> str_truthy v = true.
Proof. intros _ H. by destruct v. Qed.

(** * The contract *)

(** C1, as the code has it.  When the handler is attached to the library
    root logger, [remove_handler] fails its assertion and the handler stays
    attached; when it is not attached the call returns and detaches
    nothing.  The handlers of the root logger are never changed by it. *)
Theorem remove_handler_never_detaches (st : State) (h : Handler) :
  (h ∈ attached (exec _configure_library_root_logger st) ->
   eval (remove_handler (Some h)) st = Raised AssertionError /\
   h ∈ attached (exec (remove_handler (Some h)) st)) /\
  (h ∉ attached (exec _configure_library_root_logger st) ->
   eval (remove_handler (Some h)) st = Returned tt) /\
  attached (exec (remove_handler (Some h)) st) =
    attached (exec _configure_library_root_logger st).
Proof.
  pose proof (remove_handler_run (Some h) st) as Hrun. cbv zeta in Hrun.
  unfold eval, exec at 2 4. rewrite Hrun.
  rewrite attached_getroot.
  destruct (decide (h ∈ attached (exec _configure_library_root_logger st))) as [Hin|Hin];
    cbn [fst snd].
  - split; [|split].
    + intros _. split; [done|]. by rewrite attached_getroot.
    + done.
    + apply attached_getroot.
  - split; [|split].
    + done.
    + done.
    + unfold attached. library_root_at. by rewrite decide_False.
Qed.

Lemma remove_handler_never_detaches_witness :
  let user := {[7%nat := mkHandlerObj NOTSET None (Some OriginalStderr) OwnFlush]} in
  let st := exec (add_handler (Some 7%nat)) (with_heap user (initial_state ∅ false)) in
  7%nat ∈ attached (exec _configure_library_root_logger st) /\
  eval (remove_handler (Some 7%nat)) st = Raised AssertionError /\
  7%nat ∈ attached (exec (remove_handler (Some 7%nat)) st).
Proof.
  intros user st.
  assert (7%nat ∈ attached (exec _configure_library_root_logger st)) as H.
  { vm_compute. apply list_elem_of_further, list_elem_of_here. }
  split; [exact H|].
  exact (proj1 (remove_handler_never_detaches st 7%nat) H).
Defined.

(** C2.  For each of DEBUG, INFO, WARNING, ERROR and CRITICAL,
    [set_verbosity] with that level followed by [get_verbosity] returns the
    same level, from any state. *)
Theorem set_get_verbosity_roundtrip (st : State) (lvl : Z) :
  lvl ∈ named_levels ->
  eval (set_verbosity lvl >> get_verbosity) st = Returned lvl.
Proof.
  intros Hin.
  assert (lvl <> 0) as Hnz.
  { unfold named_levels in Hin. set_unfold in Hin.
    unfold DEBUG, INFO, WARNING, ERROR, CRITICAL in Hin. lia. }
  destruct (set_verbosity_post lvl st) as (Hdh & Hlog & Hlvl).
  rewrite eval_bind.
  assert (eval (set_verbosity lvl) st = Returned tt) as ->
    by (unfold eval; by rewrite set_verbosity_run).
  unfold eval. rewrite get_verbosity_run. cbn [fst].
  rewrite (configure_exec_initialised _ Hdh).
  rewrite Logger_getEffectiveLevel_own; rewrite getroot_level, Hlvl; done.
Qed.

Lemma set_get_verbosity_roundtrip_witness :
  INFO ∈ named_levels /\
  eval (set_verbosity INFO >> get_verbosity) (initial_state ∅ false) = Returned INFO.
Proof.
  assert (INFO ∈ named_levels) as H by (unfold named_levels; set_solver).
  split; [exact H|].
  exact (set_get_verbosity_roundtrip (initial_state ∅ false) INFO H).
Defined.

(** C3, as the code has it.  When the first initialisation finds
    TRANSFORMERS_VERBOSITY set to a value that is not a recognised name, it
    returns normally and the library root logger gets the default level
    WARNING.  If the value is not empty, a warning naming the value and
    listing the valid names is logged on the root logger of [logging] (and
    recorded when that logger is enabled for WARNING); if the value is
    empty, nothing is logged. *)
Theorem unrecognised_verbosity_falls_back (st : State) (v : string) :
  _default_handler st = None ->
  environ st !! "TRANSFORMERS_VERBOSITY" = Some v ->
  dict_get log_levels v = None ->
  eval _configure_library_root_logger st = Returned tt /\
  level (logger_at library_root (exec _configure_library_root_logger st)) = WARNING /\
  Logger_getEffectiveLevel library_root (exec _configure_library_root_logger st)
    = WARNING /\
  (v <> "" -> parent (root st) = None ->
   Logger_isEnabledFor RootLogger WARNING st = true ->
   record <$> emitted (exec _configure_library_root_logger st) =
     (record <$> emitted st) ++
       [mkLogRecord RootLogger WARNING
          ("Unknown option TRANSFORMERS_VERBOSITY=" +:+ v +:+
           ", has to be one of: detail, debug, info, warning, error, critical") []]) /\
  (v = "" -> emitted (exec _configure_library_root_logger st) = emitted st).
Proof.
  intros Hdh Hv Hunk.
  destruct (configure_first st Hdh)
    as (st5 & lvl & Hlvl & Henv & Hroot & Hmd & Hem & Hev & _ & _ & _ & Hl & _ & Hemit).
  assert (_get_default_logging_level st5 =
          if str_truthy v
          then (Returned _default_log_level,
                exec (Logger_warning RootLogger [unknown_verbosity_message v]) st5)
          else (Returned _default_log_level, st5)) as Hrun.
  { rewrite _get_default_logging_level_run, Henv, Hv, Hunk. done. }
  assert (lvl = WARNING) as ->.
  { unfold eval in Hlvl. rewrite Hrun in Hlvl. destruct (str_truthy v); by injection Hlvl. }
  split; [exact Hev|]. split; [exact Hl|]. split; [|split].
  - rewrite Logger_getEffectiveLevel_own; rewrite Hl; done.
  - intros Hne Hpar Hen. rewrite Hemit. unfold exec at 1. rewrite Hrun.
    rewrite (dict_get_log_levels_unknown_nonempty v Hunk Hne). cbn [snd].
    rewrite Logger_warning_records.
    + by rewrite Hem.
    + by rewrite (Logger_isEnabledFor_root WARNING st st5).
  - intros ->. rewrite Hemit. unfold exec at 1. rewrite Hrun. cbn [snd str_truthy].
    exact Hem.
Qed.

Lemma unrecognised_verbosity_falls_back_witness :
  let st := initial_state {["TRANSFORMERS_VERBOSITY" := "verbose"]} false in
  _default_handler st = None /\
  environ st !! "TRANSFORMERS_VERBOSITY" = Some "verbose" /\
  dict_get log_levels "verbose" = None /\
  level (logger_at library_root (exec _configure_library_root_logger st)) = WARNING /\
  record <$> emitted (exec _configure_library_root_logger st) =
    [mkLogRecord RootLogger WARNING
       "Unknown option TRANSFORMERS_VERBOSITY=verbose, has to be one of: detail, debug, info, warning, error, critical"
       []].
Proof.
  intros st.
  assert (_default_handler st = None) as H1 by reflexivity.
  assert (environ st !! "TRANSFORMERS_VERBOSITY" = Some "verbose") as H2 by reflexivity.
  assert (dict_get log_levels "verbose" = None) as H3 by reflexivity.
  assert ("verbose" <> "") as H4 by discriminate.
  assert (parent (root st) = None) as H5 by reflexivity.
  assert (Logger_isEnabledFor RootLogger WARNING st = true) as H6 by reflexivity.
  destruct (unrecognised_verbosity_falls_back st "verbose" H1 H2 H3)
    as (_ & Hl & _ & Hw & _).
  split; [exact H1|]. split; [exact H2|]. split; [exact H3|]. split; [exact Hl|].
  exact (Hw H4 H5 H6).
Defined.

(** C3 as stated fails for the empty value: the variable is set, its value
    is not a recognised name, and the initialisation of a fresh process
    (root logger enabled for WARNING) logs nothing. *)
Lemma empty_verbosity_not_warned :
  let st := initial_state {["TRANSFORMERS_VERBOSITY" := ""]} false in
  environ st !! "TRANSFORMERS_VERBOSITY" = Some "" /\
  dict_get log_levels "" = None /\
  Logger_isEnabledFor RootLogger WARNING st = true /\
  eval _configure_library_root_logger st = Returned tt /\
  emitted (exec _configure_library_root_logger st) = [].
Proof. vm_compute. by repeat split. Qed.

(** C4.  In a state where no handler is attached twice to the library root
    logger, and so in every state the operations reach from the start of
    the process, [disable_default_handler] leaves the default handler out
    of the root logger's handlers, and a following
    [enable_default_handler] puts the same handler back. *)
Theorem disable_then_enable_default_handler (st : State) :
  (attached_once st -> default_handler_toggles st) /\
  (forall ops env hub, default_handler_toggles (run_ops ops (initial_state env hub))).
Proof.
  assert (forall st, attached_once st -> default_handler_toggles st) as Hall.
  { clear st. intros st Hnd.
    destruct (disable_default_handler_run st) as (h & Hh & Hd).
    exists h. unfold exec at 1 2 4 6. rewrite Hd. cbn [snd].
    set (st1 := update_logger library_root (detach h) _).
    assert (_default_handler st1 = Some h) as Hh1 by (subst st1; by fields).
    assert (is_logger _get_library_name st1) as Hl1 by (subst st1; solve_is_logger).
    split; [done|]. split.
    - subst st1. unfold attached. library_root_at.
      apply not_elem_of_remove_if. by apply configure_attached_once.
    - destruct (enable_default_handler_run st1) as (h' & Hh' & He).
      rewrite (configure_exec_done st1 h Hh1) in Hh', He.
      assert (h' = h) as -> by congruence.
      unfold exec. rewrite He. cbn [snd]. split; [by fields|].
      unfold attached. rewrite library_root_update by solve_is_logger.
      apply elem_of_attach. }
  split; [apply Hall|].
  intros ops env hub. apply Hall, run_ops_attached_once.
  unfold attached_once. vm_compute. constructor.
Qed.

Lemma disable_then_enable_default_handler_witness :
  attached_once (initial_state ∅ false) /\
  default_handler_toggles (initial_state ∅ false).
Proof.
  assert (attached_once (initial_state ∅ false)) as H by (vm_compute; constructor).
  split; [exact H|].
  exact (proj1 (disable_then_enable_default_handler (initial_state ∅ false)) H).
Defined.

(** C5, as the code has it.  Calls are made with positional string
    arguments.  On a logger enabled for WARNING and with arguments not yet
    memoised: two [warning_once] calls with the same arguments emit one
    record, the second call changing nothing; two calls with different
    arguments emit two records; and after the first call the same
    arguments stay suppressed whatever operations run in between. *)
Theorem warning_once_memoised (st : State) (self : LoggerRef)
    (m : string) (rest : list string) (m' : string) (rest' : list string) :
  (self, m :: rest) ∉ warning_once_cache st ->
  Logger_isEnabledFor self WARNING st = true ->
  let x := m :: rest in
  let y := m' :: rest' in
  record <$> emitted (exec (warning_once self x >> warning_once self x) st) =
    (record <$> emitted st) ++ [mkLogRecord self WARNING m rest] /\
  warning_once self x (exec (warning_once self x) st) =
    (Returned tt, exec (warning_once self x) st) /\
  (x <> y -> (self, y) ∉ warning_once_cache st ->
   record <$> emitted (exec (warning_once self x >> warning_once self y) st) =
     (record <$> emitted st) ++
       [mkLogRecord self WARNING m rest; mkLogRecord self WARNING m' rest']) /\
  (forall ops,
     warning_once self x (run_ops ops (exec (warning_once self x) st)) =
       (Returned tt, run_ops ops (exec (warning_once self x) st))).
Proof.
  intros Hc He x y. subst x y.
  assert (eval (warning_once self (m :: rest)) st = Returned tt) as Hev
    by (unfold eval; by rewrite warning_once_miss).
  assert ((self, m :: rest) ∈
          warning_once_cache (exec (warning_once self (m :: rest)) st)) as Hin
    by (rewrite warning_once_miss_cache by done; set_solver).
  split; [|split; [|split]].
  - rewrite exec_bind, Hev. unfold exec at 1.
    rewrite warning_once_hit by done. cbn [snd].
    by apply warning_once_miss_records.
  - by apply warning_once_hit.
  - intros Hxy Hcy. rewrite exec_bind, Hev.
    rewrite warning_once_miss_records.
    + rewrite warning_once_miss_records by done. by rewrite <- app_assoc.
    + rewrite warning_once_miss_cache by done.
      intros [H|H]%elem_of_app; [done|].
      apply list_elem_of_singleton in H. congruence.
    + by rewrite warning_once_miss_enabled.
  - intros ops. apply warning_once_hit.
    apply (run_ops_preserves cache_grows ops
             (exec (warning_once self (m :: rest)) st)); [|exact Hin].
    intros o _. apply run_op_cache_grows.
Qed.

Lemma warning_once_memoised_witness :
  let st := exec (get_logger (Some "src.models")) (initial_state ∅ false) in
  let self := Named "src.models" in
  ((self, ["X"]) ∉ warning_once_cache st) /\
  Logger_isEnabledFor self WARNING st = true /\
  record <$> emitted (exec (warning_once self ["X"] >> warning_once self ["X"]) st) =
    [mkLogRecord self WARNING "X" []] /\
  record <$> emitted (exec (warning_once self ["X"] >> warning_once self ["Y"]) st) =
    [mkLogRecord self WARNING "X" []; mkLogRecord self WARNING "Y" []].
Proof.
  intros st self.
  assert ((self, ["X"]) ∉ warning_once_cache st) as Hc by apply not_elem_of_nil.
  assert ((self, ["Y"]) ∉ warning_once_cache st) as Hcy by apply not_elem_of_nil.
  assert (Logger_isEnabledFor self WARNING st = true) as He by (vm_compute; reflexivity).
  assert (["X"] <> ["Y"]) as Hxy by discriminate.
  destruct (warning_once_memoised st self "X" [] "Y" [] Hc He) as (H1 & _ & H3 & _).
  split; [exact Hc|]. split; [exact He|]. split; [exact H1|]. exact (H3 Hxy Hcy).
Defined.

(** C5 as stated fails on a logger that is not enabled for WARNING: after
    [set_verbosity_error], two calls with the same message return and emit
    no record, not one, and two calls with different messages emit no
    record, not two. *)
Lemma warning_once_silent_when_disabled :
  let st := exec (set_verbosity_error >> get_logger (Some "src.models"))
              (initial_state ∅ false) in
  let self := Named "src.models" in
  Logger_isEnabledFor self WARNING st = false /\
  emitted st = [] /\
  eval (warning_once self ["X"] >> warning_once self ["X"]) st = Returned tt /\
  emitted (exec (warning_once self ["X"] >> warning_once self ["X"]) st) = [] /\
  eval (warning_once self ["X"] >> warning_once self ["Y"]) st = Returned tt /\
  emitted (exec (warning_once self ["X"] >> warning_once self ["Y"]) st) = [].
Proof. vm_compute. by repeat split. Qed.

(** C6.  With TRANSFORMERS_NO_ADVISORY_WARNINGS set to a non-empty value,
    [warning_advice] returns without emitting or changing anything,
    whatever its arguments; with the variable unset it is
    [Logger.warning] on the same arguments. *)
Theorem warning_advice_gate (st : State) (self : LoggerRef) (args : list string) :
  (forall v, environ st !! "TRANSFORMERS_NO_ADVISORY_WARNINGS" = Some v -> v <> "" ->
             warning_advice self args st = (Returned tt, st)) /\
  (environ st !! "TRANSFORMERS_NO_ADVISORY_WARNINGS" = None ->
   warning_advice self args st = Logger_warning self args st).
Proof.
  split.
  - intros v Hv Hne. unfold warning_advice, os_getenv, bind, gets. rewrite Hv.
    destruct v; [done|]. reflexivity.
  - intros Hv. unfold warning_advice, os_getenv, bind, gets. rewrite Hv.
    by destruct (Logger_warning self args st) as [[[]|e] st'].
Qed.

Lemma warning_advice_gate_witness :
  let quiet := initial_state {["TRANSFORMERS_NO_ADVISORY_WARNINGS" := "1"]} false in
  let plain := initial_state ∅ false in
  environ quiet !! "TRANSFORMERS_NO_ADVISORY_WARNINGS" = Some "1" /\
  "1" <> "" /\
  warning_advice RootLogger ["X"] quiet = (Returned tt, quiet) /\
  environ plain !! "TRANSFORMERS_NO_ADVISORY_WARNINGS" = None /\
  warning_advice RootLogger ["X"] plain = Logger_warning RootLogger ["X"] plain.
Proof.
  intros quiet plain.
  assert (environ quiet !! "TRANSFORMERS_NO_ADVISORY_WARNINGS" = Some "1") as Hq
    by reflexivity.
  assert ("1" <> "") as Hne by discriminate.
  assert (environ plain !! "TRANSFORMERS_NO_ADVISORY_WARNINGS" = None) as Hp
    by reflexivity.
  split; [exact Hq|]. split; [exact Hne|].
  split; [exact (proj1 (warning_advice_gate quiet RootLogger ["X"]) "1" Hq Hne)|].
  split; [exact Hp|].
  exact (proj2 (warning_advice_gate plain RootLogger ["X"]) Hp).
Defined.

(** C7, as the code has it.  Built from an iterable as first positional
    argument (whatever the other arguments), the null object iterates over
    exactly the elements of that iterable, in order.  On any null object, a
    call under a name that normal attribute lookup does not find (any name
    but [_iterator] and those of the form [__x__]) returns nothing,
    whatever the arguments, [__exit__] returns nothing and [__enter__]
    returns the object itself; none of them raises or changes the state.
    With progress bars disabled the factory returns this object. *)
Theorem null_progress_object {A} (xs : list A) (more : list (PyArg A))
    (kwargs : list (string * PyArg A)) (o' : EmptyTqdm A) (st : State) :
  let o := mkEmptyTqdm (Some (ArgIterable xs)) in
  EmptyTqdm_init (ArgIterable xs :: more) kwargs st = (Returned o, st) /\
  EmptyTqdm_iter o st = (Returned xs, st) /\
  EmptyTqdm_invoke o CallIter st = (Returned (VElements xs), st) /\
  (forall name args kw, EmptyTqdm_getattr o' name args kw st = (Returned tt, st)) /\
  (forall name (missing : normal_lookup_fails name = true) args kw,
     EmptyTqdm_invoke o' (CallOther name missing args kw) st = (Returned VNone, st)) /\
  (forall t v tb, EmptyTqdm_invoke o' (CallExit t v tb) st = (Returned VNone, st)) /\
  EmptyTqdm_invoke o' CallEnter st = (Returned (VSelf o'), st) /\
  tqdm (ArgIterable xs :: more) kwargs (exec disable_progress_bar st) =
    (Returned (NullTqdm o), exec disable_progress_bar st).
Proof. by repeat split. Qed.

Lemma null_progress_object_witness :
  let o : EmptyTqdm nat := mkEmptyTqdm (Some (ArgIterable [1; 2; 3]%nat)) in
  let st := initial_state ∅ true in
  exists missing : normal_lookup_fails "update" = true,
    EmptyTqdm_invoke o (CallOther "update" missing [ArgOther "1"] []) st =
      (Returned VNone, st) /\
    EmptyTqdm_invoke o CallIter st = (Returned (VElements [1; 2; 3]%nat), st).
Proof.
  intros o st.
  assert (normal_lookup_fails "update" = true) as missing by reflexivity.
  exists missing.
  destruct (null_progress_object [1; 2; 3]%nat [] [] o st) as (_ & _ & H3 & _ & H5 & _).
  split; [exact (H5 "update" missing [ArgOther "1"] []) | exact H3].
Defined.

(** C7 as stated fails twice: [__enter__] does not return nothing but the
    object, and an iterable passed by keyword is dropped, so that iterating
    raises [TypeError]. *)
Lemma null_progress_enter_returns_self :
  let o : EmptyTqdm nat := mkEmptyTqdm (Some (ArgIterable [1; 2; 3]%nat)) in
  let st := initial_state ∅ true in
  EmptyTqdm_invoke o CallEnter st = (Returned (VSelf o), st) /\
  EmptyTqdm_invoke o CallEnter st <> (Returned VNone, st) /\
  (let! n := EmptyTqdm_init [] [("iterable", ArgIterable [1; 2; 3]%nat)] in
   EmptyTqdm_iter n) st = (Raised TypeError, st).
Proof. by repeat split. Qed.

(** C8.  Lazy initialisation is idempotent: once a default handler exists
    it changes nothing, so running it twice is running it once.  Every
    operation keeps the handlers of the library root logger free of
    repetitions, so the default handler is attached at most once in every
    state reached from the start of the process.  With a default handler
    in place, enabling and disabling keep that handler and allocate none:
    enabling leaves it attached, appending it when it was not and changing
    nothing when it was; disabling takes it off the handlers, leaving the
    others in their order, so that (no handler being attached twice) it is
    no longer attached; and enabling after disabling attaches it again. *)
Theorem initialisation_idempotent_attached_once (st : State) (o : Op) :
  (is_Some (_default_handler st) ->
   _configure_library_root_logger st = (Returned tt, st)) /\
  exec _configure_library_root_logger (exec _configure_library_root_logger st) =
    exec _configure_library_root_logger st /\
  (attached_once st ->
   attached_once (exec (run_op o) st) /\
   (default_handler_attachments (exec (run_op o) st) <= 1)%nat) /\
  (forall ops env hub,
     (default_handler_attachments (run_ops ops (initial_state env hub)) <= 1)%nat) /\
  (forall h, _default_handler st = Some h ->
     _default_handler (exec enable_default_handler st) = Some h /\
     heap (exec enable_default_handler st) = heap st /\
     _default_handler (exec disable_default_handler st) = Some h /\
     heap (exec disable_default_handler st) = heap st /\
     attached (exec enable_default_handler st) =
       (if decide (h ∈ attached st) then attached st else attached st ++ [h]) /\
     h ∈ attached (exec enable_default_handler st) /\
     attached (exec disable_default_handler st) =
       (if decide (h ∈ attached st) then list_remove_first h (attached st)
        else attached st) /\
     (attached_once st -> h ∉ attached (exec disable_default_handler st)) /\
     h ∈ attached (exec enable_default_handler (exec disable_default_handler st))).
Proof.
  split; [|split; [|split; [|split]]].
  - intros [h H]. by apply (configure_done st h).
  - apply configure_exec_initialised, configure_initialises.
  - intros H.
    assert (attached_once (exec (run_op o) st)) as H' by (by apply run_op_attached_once).
    split; [done | by apply attached_once_attachments].
  - intros ops env hub. apply attached_once_attachments, run_ops_attached_once.
    unfold attached_once. vm_compute. constructor.
  - intros h Hh.
    destruct (enable_default_handler_run st) as (h1 & Hh1 & He).
    destruct (disable_default_handler_run st) as (h2 & Hh2 & Hd).
    rewrite (configure_exec_done st h Hh) in Hh1, Hh2, He, Hd.
    assert (h1 = h) as -> by congruence. assert (h2 = h) as -> by congruence.
    assert (exec enable_default_handler st =
            update_logger library_root (attach h) (exec _get_library_root_logger st))
      as Hen by (unfold exec at 1; by rewrite He).
    assert (exec disable_default_handler st =
            update_logger library_root (detach h) (exec _get_library_root_logger st))
      as Hdis by (unfold exec at 1; by rewrite Hd).
    assert (attached (exec enable_default_handler st) =
              (if decide (h ∈ attached st) then attached st else attached st ++ [h]))
      as Hatt_en.
    { rewrite Hen, attached_update by apply is_logger_getroot.
      rewrite handlers_attach.
      change (handlers (logger_at library_root ?s)) with (attached s).
      by rewrite attached_getroot. }
    assert (attached (exec disable_default_handler st) =
              (if decide (h ∈ attached st) then list_remove_first h (attached st)
               else attached st)) as Hatt_dis.
    { rewrite Hdis, attached_update by apply is_logger_getroot.
      rewrite handlers_detach.
      change (handlers (logger_at library_root ?s)) with (attached s).
      by rewrite attached_getroot. }
    assert (_default_handler (exec disable_default_handler st) = Some h) as Hdh_dis
      by (rewrite Hdis; by fields).
    split; [rewrite Hen; by fields|]. split; [rewrite Hen; by fields|].
    split; [exact Hdh_dis|]. split; [rewrite Hdis; by fields|].
    split; [exact Hatt_en|]. split; [|split; [exact Hatt_dis|split]].
    + rewrite Hatt_en. case_decide; [done|]. apply elem_of_app. right. by left.
    + intros Hnd. rewrite Hatt_dis. by apply not_elem_of_remove_if.
    + set (st1 := exec disable_default_handler st) in *.
      destruct (enable_default_handler_run st1) as (h3 & Hh3 & He3).
      rewrite (configure_exec_done st1 h Hdh_dis) in Hh3, He3.
      assert (h3 = h) as -> by congruence.
      unfold exec at 1. rewrite He3. cbn [snd].
      rewrite attached_update by apply is_logger_getroot. apply elem_of_attach.
Qed.

Lemma initialisation_idempotent_attached_once_witness :
  let st := exec _configure_library_root_logger (initial_state ∅ false) in
  is_Some (_default_handler st) /\
  _configure_library_root_logger st = (Returned tt, st) /\
  attached_once st /\
  attached_once (exec (run_op OpEnableDefaultHandler) st) /\
  _default_handler st = Some 0%nat /\
  _default_handler (exec enable_default_handler st) = Some 0%nat /\
  attached st = [0%nat] /\
  (0%nat ∉ attached (exec disable_default_handler st)) /\
  0%nat ∈ attached (exec enable_default_handler (exec disable_default_handler st)).
Proof.
  intros st.
  destruct (initialisation_idempotent_attached_once st OpEnableDefaultHandler)
    as (H1 & _ & H3 & _ & H5).
  assert (is_Some (_default_handler st)) as Hs by (exists 0%nat; reflexivity).
  assert (attached_once st) as Ha by (vm_compute; apply NoDup_singleton).
  assert (_default_handler st = Some 0%nat) as Hd by reflexivity.
  destruct (H5 0%nat Hd) as (E1 & _ & _ & _ & _ & _ & _ & D4 & E5).
  split; [exact Hs|]. split; [exact (H1 Hs)|]. split; [exact Ha|].
  split; [exact (proj1 (H3 Ha))|]. split; [exact Hd|].
  split; [exact E1|]. split; [reflexivity|]. split; [exact (D4 Ha) | exact E5].
Defined.

(** C9.  The first initialisation leaves the propagation flag of the
    library root logger false, whichever of [get_logger], [get_verbosity]
    and [set_verbosity] triggers it; records logged on the root logger then
    go to its own handlers only; the flag stays false through every
    sequence of operations without [enable_propagation], and
    [enable_propagation] sets it. *)
Theorem propagation_off_after_initialisation (st : State) :
  _default_handler st = None ->
  propagate (logger_at library_root (exec _configure_library_root_logger st)) = false /\
  (forall name, propagate (logger_at library_root (exec (get_logger name) st)) = false) /\
  propagate (logger_at library_root (exec get_verbosity st)) = false /\
  (forall v, propagate (logger_at library_root (exec (set_verbosity v) st)) = false) /\
  (forall lvl s,
     s ∈ Logger_callHandlers library_root lvl (exec _configure_library_root_logger st) ->
     s = ToLastResort \/
     exists h, s = ToHandler h /\
               h ∈ attached (exec _configure_library_root_logger st)) /\
  (forall ops,
     OpEnablePropagation ∉ ops ->
     propagate (logger_at library_root
                  (run_ops ops (exec _configure_library_root_logger st))) = false) /\
  propagate (logger_at library_root
               (exec enable_propagation (exec _configure_library_root_logger st))) = true.
Proof.
  intros Hdh.
  destruct (configure_first st Hdh)
    as (st5 & lvl & _ & _ & _ & _ & _ & _ & _ & Hlog & _ & _ & Hp & _).
  split; [exact Hp|]. split; [|split; [|split; [|split; [|split]]]].
  - intros name. rewrite get_logger_exec.
    rewrite (propagate_ext _ _ _ (logging_getLogger_ext _ _)). exact Hp.
  - unfold exec at 1. rewrite get_verbosity_run. cbn [snd].
    by rewrite getroot_propagate.
  - intros v. unfold exec at 1. rewrite set_verbosity_run. cbn [snd].
    library_root_at. exact Hp.
  - intros lvl' s. by apply callHandlers_not_propagating.
  - intros ops Hops.
    apply (run_ops_preserves (keeps not_propagating) ops); [|exact Hp].
    intros o Ho. apply run_op_not_propagating. intros ->. done.
  - unfold exec at 1. unfold enable_propagation.
    run_configure h Hh. run_getroot. cbn.
    by rewrite library_root_update by solve_is_logger.
Qed.

Lemma propagation_off_after_initialisation_witness :
  _default_handler (initial_state ∅ false) = None /\
  propagate (logger_at library_root
               (exec _configure_library_root_logger (initial_state ∅ false))) = false.
Proof.
  assert (_default_handler (initial_state ∅ false) = None) as H by reflexivity.
  split; [exact H|].
  exact (proj1 (propagation_off_after_initialisation (initial_state ∅ false) H)).
Defined.

(** C10.  The assertion [_default_handler is not None] of
    [enable_default_handler] and of [disable_default_handler] cannot fail:
    in every state the lazy initialiser returns normally and leaves a
    default handler, so both operations return without raising. *)
Theorem default_handler_assertion_holds (st : State) :
  eval _configure_library_root_logger st = Returned tt /\
  is_Some (_default_handler (exec _configure_library_root_logger st)) /\
  eval enable_default_handler st = Returned tt /\
  eval disable_default_handler st = Returned tt.
Proof.
  destruct (configure_run st) as (h & Hrun & Hh).
  destruct (enable_default_handler_run st) as (h1 & _ & He).
  destruct (disable_default_handler_run st) as (h2 & _ & Hd).
  unfold eval. rewrite Hrun, He, Hd, Hh. by repeat split.
Qed.

(** * Further properties *)

(** ** Lemmas *)

#[local] Instance same_environ_preorder : PreOrder same_environ.
Proof. split; unfold same_environ; [done | intros s1 s2 s3; congruence]. Qed.

#[local] Instance same_environ_ext : ExtClosed same_environ.
Proof.
  intros st st' H. unfold same_environ.
  by destruct (registry_ext_outside _ _ H) as (-> & _).
Qed.

Ltac environ_leaf :=
  unfold same_environ; first [ apply update_logger_environ | reflexivity ].

Lemma run_op_same_environ o : preserves same_environ (run_op o).
Proof. destruct o; unfold run_op; preserves_walk environ_leaf. Qed.

Lemma configure_same_environ st :
  environ (exec _configure_library_root_logger st) = environ st.
Proof.
  assert (preserves same_environ _configure_library_root_logger) as H
    by preserves_walk environ_leaf.
  apply H.
Qed.

(** The level the environment asks for depends on the environment only,
    and is never NOTSET. *)
Lemma default_level_eval_environ st st' :
  environ st' = environ st ->
  eval _get_default_logging_level st' = eval _get_default_logging_level st.
Proof.
  intros He. unfold eval. rewrite !_get_default_logging_level_run, He.
  destruct (environ st !! _) as [s|]; [|done].
  destruct (str_truthy s); [|done].
  by destruct (dict_get log_levels s).
Qed.

Lemma dict_get_log_levels_nonzero s lvl : dict_get log_levels s = Some lvl -> lvl <> 0.
Proof.
  unfold log_levels. cbn [dict_get].
  repeat (case_decide; [intros [= <-]; done|]). done.
Qed.

Lemma default_level_nonzero st lvl :
  eval _get_default_logging_level st = Returned lvl -> lvl <> 0.
Proof.
  unfold eval. rewrite _get_default_logging_level_run.
  destruct (environ st !! _) as [s|]; [|by intros [= <-]].
  destruct (str_truthy s); [|by intros [= <-]].
  destruct (dict_get log_levels s) as [l|] eqn:Hl; [|by intros [= <-]].
  intros [= <-]. by eapply dict_get_log_levels_nonzero.
Qed.

(** Fetching a logger that exists changes nothing. *)
Lemma Manager_getLogger_existing name st :
  is_logger name st -> exec (Manager_getLogger name) st = st.
Proof. intros [l Hl]. rewrite Manager_getLogger_exec. by rewrite Hl. Qed.

Lemma getroot_existing st :
  is_logger _get_library_name st -> exec _get_library_root_logger st = st.
Proof. rewrite _get_library_root_logger_unfold. apply Manager_getLogger_existing. Qed.

(** An update that gives back the same logger changes nothing. *)
Lemma update_logger_same r g st :
  g (logger_at r st) = logger_at r st -> update_logger r g st = st.
Proof.
  destruct r as [|n]; unfold update_logger; simpl.
  - intros ->. by destruct st.
  - destruct (loggerDict st !! n) as [[l|cs]|] eqn:Hn; [|done..].
    intros ->. rewrite insert_id by done. by destruct st.
Qed.

Lemma attach_present h l : h ∈ handlers l -> attach h l = l.
Proof. intros H. unfold attach. by rewrite decide_True. Qed.

Lemma elem_of_attach_old h x l : x ∈ handlers l -> x ∈ handlers (attach h l).
Proof.
  intros H. rewrite handlers_attach. case_decide; [done|].
  apply elem_of_app. by left.
Qed.

Lemma elem_of_list_remove_first_ne (h x : Handler) l :
  x <> h -> x ∈ l -> x ∈ list_remove_first h l.
Proof.
  intros Hne. induction l as [|y l IH]; simpl; [done|].
  intros [->|Hx]%elem_of_cons.
  - rewrite decide_False by done. apply list_elem_of_here.
  - case_decide; [done|]. by apply list_elem_of_further, IH.
Qed.

Lemma set_get_verbosity_nonzero lvl st :
  lvl <> 0 -> eval (set_verbosity lvl >> get_verbosity) st = Returned lvl.
Proof.
  intros Hnz.
  destruct (set_verbosity_post lvl st) as (Hdh & Hlog & Hlvl).
  rewrite eval_bind.
  assert (eval (set_verbosity lvl) st = Returned tt) as ->
    by (unfold eval; by rewrite set_verbosity_run).
  unfold eval. rewrite get_verbosity_run. cbn [fst].
  rewrite (configure_exec_initialised _ Hdh).
  rewrite Logger_getEffectiveLevel_own; rewrite getroot_level, Hlvl; done.
Qed.

Lemma reset_run st :
  _reset_library_root_logger st =
  match _default_handler st with
  | None => (Returned tt, st)
  | Some h =>
      (Returned tt,
       with_default_handler None
         (update_logger library_root (set_level NOTSET)
            (update_logger library_root (detach h)
               (exec _get_library_root_logger st))))
  end.
Proof.
  unfold _reset_library_root_logger. unfold bind at 1, gets.
  destruct (_default_handler st) as [h|]; [|done].
  run_getroot. done.
Qed.

(** ** Reset, handlers and levels *)

(** X1.  [_reset_library_root_logger] does nothing when no default handler
    exists.  Otherwise (no handler being attached twice) it returns with
    the default handler forgotten and detached from the library root
    logger, the other handlers still attached, the level of the root logger
    back to NOTSET, and the handler object and the propagation flag left as
    they were. *)
Theorem reset_releases_default_handler (st : State) (h : Handler) :
  (_default_handler st = None ->
   _reset_library_root_logger st = (Returned tt, st)) /\
  (_default_handler st = Some h -> attached_once st ->
   eval _reset_library_root_logger st = Returned tt /\
   _default_handler (exec _reset_library_root_logger st) = None /\
   (h ∉ attached (exec _reset_library_root_logger st)) /\
   (forall x, x <> h -> x ∈ attached st ->
              x ∈ attached (exec _reset_library_root_logger st)) /\
   level (logger_at library_root (exec _reset_library_root_logger st)) = NOTSET /\
   heap (exec _reset_library_root_logger st) = heap st /\
   propagate (logger_at library_root (exec _reset_library_root_logger st)) =
     propagate (logger_at library_root st)).
Proof.
  split.
  - intros H. by rewrite reset_run, H.
  - intros H Hnd. unfold eval, exec. rewrite reset_run, H. cbn [fst snd].
    split; [done|]. split; [done|]. unfold attached in *.
    split; [|split; [|split; [|split]]].
    + library_root_at. by apply not_elem_of_remove_if.
    + intros x Hne Hx. library_root_at.
      case_decide; [by apply elem_of_list_remove_first_ne | done].
    + by library_root_at.
    + by fields.
    + by library_root_at.
Qed.

Lemma reset_releases_default_handler_witness :
  let st := exec (add_handler (Some 7%nat)) (initial_state ∅ false) in
  _default_handler st = Some 0%nat /\ attached_once st /\
  _default_handler (exec _reset_library_root_logger st) = None /\
  attached (exec _reset_library_root_logger st) = [7%nat].
Proof.
  intros st.
  assert (_default_handler st = Some 0%nat) as H by reflexivity.
  assert (attached_once st) as Hnd.
  { vm_compute. apply NoDup_cons. split; [|apply NoDup_singleton].
    by intros ?%list_elem_of_singleton. }
  destruct (proj2 (reset_releases_default_handler st 0%nat) H Hnd) as (_ & Hd & _).
  split; [exact H|]. split; [exact Hnd|]. split; [exact Hd|]. reflexivity.
Defined.

(** X2.  After a reset the verbosity is again the one the environment asks
    for: whatever level was set before, [get_verbosity] after
    [_reset_library_root_logger] returns what
    [_get_default_logging_level] computes. *)
Theorem verbosity_after_reset (st : State) (lvl : Z) :
  eval (set_verbosity lvl >> _reset_library_root_logger >> get_verbosity) st =
  eval _get_default_logging_level st.
Proof.
  destruct (set_verbosity_post lvl st) as ([h Hdh] & Hlog & Hlvl).
  rewrite eval_bind.
  assert (eval (set_verbosity lvl) st = Returned tt) as ->
    by (unfold eval; by rewrite set_verbosity_run).
  set (st1 := exec (set_verbosity lvl) st) in *.
  assert (environ st1 = environ st) as Henv1
    by apply (run_op_same_environ (OpSetVerbosity lvl)).
  rewrite eval_bind.
  assert (eval _reset_library_root_logger st1 = Returned tt) as ->
    by (unfold eval; by rewrite reset_run, Hdh).
  assert (exec _reset_library_root_logger st1 =
          with_default_handler None
            (update_logger library_root (set_level NOTSET)
               (update_logger library_root (detach h)
                  (exec _get_library_root_logger st1)))) as ->
    by (unfold exec; by rewrite reset_run, Hdh).
  set (st2 := with_default_handler None _).
  assert (_default_handler st2 = None) as Hdh2 by reflexivity.
  assert (environ st2 = environ st1) as Henv2 by (subst st2; by fields).
  destruct (configure_first st2 Hdh2)
    as (st5 & lvl' & Hev & Henv5 & _ & _ & _ & _ & _ & _ & _ & Hl & _).
  unfold eval at 1. rewrite get_verbosity_run. cbn [fst].
  rewrite Logger_getEffectiveLevel_own; rewrite getroot_level, Hl.
  - rewrite <- Hev. apply default_level_eval_environ. congruence.
  - by eapply default_level_nonzero.
Qed.

(** X3.  [add_handler] with a handler returns, leaves the handler attached
    to the library root logger together with every handler attached
    before, and is idempotent: adding the same handler again changes
    nothing.  With [None] it raises AssertionError, after initialising. *)
Theorem add_handler_attaches_once (st : State) (h : Handler) :
  eval (add_handler (Some h)) st = Returned tt /\
  h ∈ attached (exec (add_handler (Some h)) st) /\
  (forall x, x ∈ attached (exec _configure_library_root_logger st) ->
             x ∈ attached (exec (add_handler (Some h)) st)) /\
  add_handler (Some h) (exec (add_handler (Some h)) st) =
    (Returned tt, exec (add_handler (Some h)) st) /\
  add_handler None st = (Raised AssertionError, exec _configure_library_root_logger st).
Proof.
  assert (exec (add_handler (Some h)) st =
          update_logger library_root (attach h)
            (exec _get_library_root_logger (exec _configure_library_root_logger st)))
    as Hex by (unfold exec; by rewrite (add_handler_run (Some h) st)).
  assert (eval (add_handler (Some h)) st = Returned tt) as Hev
    by (unfold eval; by rewrite (add_handler_run (Some h) st)).
  rewrite Hev, !Hex. clear Hev Hex.
  set (st' := update_logger library_root (attach h) _).
  assert (is_logger _get_library_name st') as Hlog by (subst st'; solve_is_logger).
  assert (h ∈ attached st') as Hin.
  { subst st'. unfold attached. rewrite library_root_update by solve_is_logger.
    apply elem_of_attach. }
  split; [done|]. split; [done|]. split; [|split].
  - intros x Hx. subst st'. unfold attached in *.
    rewrite library_root_update by solve_is_logger.
    apply elem_of_attach_old. by rewrite getroot_handlers.
  - rewrite (add_handler_run (Some h) st').
    rewrite (configure_exec_initialised st').
    + rewrite (getroot_existing st' Hlog).
      rewrite update_logger_same; [done|]. by apply attach_present.
    + subst st'. fields. apply configure_initialises.
  - apply (add_handler_run None st).
Qed.

Lemma add_handler_attaches_once_witness :
  let st := initial_state ∅ false in
  0%nat ∈ attached (exec _configure_library_root_logger st) /\
  0%nat ∈ attached (exec (add_handler (Some 7%nat)) st) /\
  7%nat ∈ attached (exec (add_handler (Some 7%nat)) st).
Proof.
  intros st.
  assert (0%nat ∈ attached (exec _configure_library_root_logger st)) as H
    by (vm_compute; left).
  destruct (add_handler_attaches_once st 7%nat) as (_ & H2 & H3 & _).
  split; [exact H|]. split; [exact (H3 0%nat H) | exact H2].
Defined.

(** X4.  The round trip of [set_verbosity] and [get_verbosity] holds for
    every level other than NOTSET, not only the five named ones, and the
    four shorthands set the level their name says. *)
Theorem set_verbosity_any_level (st : State) (lvl : Z) :
  (lvl <> NOTSET -> eval (set_verbosity lvl >> get_verbosity) st = Returned lvl) /\
  eval (set_verbosity_info >> get_verbosity) st = Returned INFO /\
  eval (set_verbosity_warning >> get_verbosity) st = Returned WARNING /\
  eval (set_verbosity_debug >> get_verbosity) st = Returned DEBUG /\
  eval (set_verbosity_error >> get_verbosity) st = Returned ERROR.
Proof.
  split; [apply set_get_verbosity_nonzero|].
  repeat split; by apply set_get_verbosity_nonzero.
Qed.

Lemma set_verbosity_any_level_witness :
  15 <> NOTSET /\
  eval (set_verbosity 15 >> get_verbosity) (initial_state ∅ false) = Returned 15.
Proof.
  assert (15 <> NOTSET) as H by discriminate.
  split; [exact H|].
  exact (proj1 (set_verbosity_any_level (initial_state ∅ false) 15) H).
Defined.

(** X5.  NOTSET does not round-trip.  On an initialised library whose root
    logger hangs below the root logger of [logging], setting the verbosity
    to NOTSET makes [get_verbosity] answer with the level of that root
    logger when it has one. *)
Theorem notset_verbosity_defers_to_root (st : State) :
  is_Some (_default_handler st) ->
  is_logger _get_library_name st ->
  parent (logger_at library_root st) = Some RootLogger ->
  level (root st) <> NOTSET ->
  eval (set_verbosity NOTSET >> get_verbosity) st = Returned (level (root st)).
Proof.
  intros Hdh Hlog Hpar Hroot.
  rewrite eval_bind.
  assert (eval (set_verbosity NOTSET) st = Returned tt) as ->
    by (unfold eval; by rewrite set_verbosity_run).
  unfold exec. rewrite set_verbosity_run. cbn [snd].
  rewrite (configure_exec_initialised st Hdh), (getroot_existing st Hlog).
  set (st1 := update_logger library_root (set_level NOTSET) st).
  assert (is_logger _get_library_name st1) as Hlog1
    by (subst st1; by apply is_logger_update_logger).
  unfold eval. rewrite get_verbosity_run. cbn [fst].
  rewrite (configure_exec_initialised st1) by (subst st1; by fields).
  rewrite (getroot_existing st1 Hlog1).
  unfold Logger_getEffectiveLevel, chain_fuel. cbn [effective_level_walk].
  subst st1. rewrite library_root_update by done. cbn [level parent set_level].
  rewrite decide_True by done. rewrite Hpar. cbn [logger_at].
  rewrite root_update_library_root. by rewrite decide_False.
Qed.

Lemma notset_verbosity_defers_to_root_witness :
  let st := exec _configure_library_root_logger (initial_state ∅ false) in
  is_Some (_default_handler st) /\
  is_logger _get_library_name st /\
  parent (logger_at library_root st) = Some RootLogger /\
  level (root st) <> NOTSET /\
  eval (set_verbosity NOTSET >> get_verbosity) st = Returned WARNING.
Proof.
  intros st.
  assert (is_Some (_default_handler st)) as H1 by (exists 0%nat; reflexivity).
  assert (is_logger _get_library_name st) as H2 by (eexists; reflexivity).
  assert (parent (logger_at library_root st) = Some RootLogger) as H3 by reflexivity.
  assert (level (root st) <> NOTSET) as H4 by discriminate.
  split; [exact H1|]. split; [exact H2|]. split; [exact H3|]. split; [exact H4|].
  exact (notset_verbosity_defers_to_root st H1 H2 H3 H4).
Defined.

(** ** Loggers below the library root logger *)

Lemma child_logger_name_unfold s :
  child_logger_name s = String "s" (String "r" (String "c" (String "." s))).
Proof. reflexivity. Qed.

Lemma rfind_dot_from_no_dot s : forall idx stop last,
  no_dot s = true -> rfind_dot_from s idx stop last = last.
Proof.
  induction s as [|c s IH]; intros idx stop last H; simpl in *; [done|].
  apply andb_prop in H as [Hc Hs]. destruct (Ascii.eqb c "."); [done|].
  destruct (idx <? stop)%nat; [by apply IH | done].
Qed.

Lemma rfind_dot_child s :
  no_dot s = true ->
  rfind_dot (child_logger_name s) (String.length (child_logger_name s)) = 3.
Proof.
  intros H. rewrite child_logger_name_unfold. unfold rfind_dot. cbn.
  by rewrite rfind_dot_from_no_dot.
Qed.

Lemma child_logger_name_not_root s :
  ~ (child_logger_name s = "" \/ child_logger_name s = "root").
Proof. rewrite child_logger_name_unfold. by intros [?|?]. Qed.

Lemma child_logger_name_not_library s : child_logger_name s <> _get_library_name.
Proof. rewrite child_logger_name_unfold. done. Qed.

(** Linking in a logger directly below the library root logger, once the
    latter exists, makes it the parent. *)
Lemma Manager_fixupParents_child s st :
  no_dot s = true ->
  is_logger _get_library_name st ->
  exec (Manager_fixupParents (child_logger_name s)) st =
  update_logger (Named (child_logger_name s))
    (set_parent (Some (Named _get_library_name))) st.
Proof.
  intros Hs [l Hl]. unfold Manager_fixupParents, exec, modify. cbn [snd].
  rewrite rfind_dot_child by done.
  rewrite child_logger_name_unfold at 1 2. cbn [String.length fixupParents_loop].
  rewrite bool_decide_true by done.
  change (substring 0 (Z.to_nat 3) (String "s" (String "r" (String "c" (String "." s)))))
    with _get_library_name.
  rewrite Hl. cbn. by destruct st.
Qed.

Lemma Manager_getLogger_child s st :
  no_dot s = true ->
  is_logger _get_library_name st ->
  ~ is_logger (child_logger_name s) st ->
  exists st0,
    registry_ext st st0 /\ is_logger (child_logger_name s) st0 /\
    exec (Manager_getLogger (child_logger_name s)) st =
      update_logger (Named (child_logger_name s))
        (set_parent (Some (Named _get_library_name))) st0.
Proof.
  intros Hs Hlib Hnew. rewrite Manager_getLogger_exec.
  destruct (loggerDict st !! child_logger_name s) as [[l|cs]|] eqn:Hn.
  - destruct Hnew. by exists l.
  - eexists. split; [|split; [|apply Manager_fixupParents_child]]; [| |done|].
    + eapply registry_ext_trans; [|apply Manager_fixupChildren_ext].
      apply (registry_ext_insert _ (NLogger new_logger));
        [done | apply same_settings_refl].
    + apply Manager_fixupChildren_ext, is_logger_insert.
    + apply Manager_fixupChildren_ext.
      apply (registry_ext_insert _ (NLogger new_logger));
        [done | apply same_settings_refl | done].
  - eexists. split; [|split; [|apply Manager_fixupParents_child]]; [| |done|].
    + apply (registry_ext_insert _ (NLogger new_logger));
        [done | apply same_settings_refl].
    + apply is_logger_insert.
    + apply (registry_ext_insert _ (NLogger new_logger));
        [done | apply same_settings_refl | done].
Qed.

(** The registry gets no logger it was not asked for. *)
Lemma no_new_logger_update_logger k r f st :
  is_logger k (update_logger r f st) -> is_logger k st.
Proof.
  destruct r as [|n]; unfold update_logger; [done|].
  destruct (loggerDict st !! n) as [[l|cs]|] eqn:Hn; [|done..].
  unfold is_logger. simpl. destruct (decide (n = k)) as [->|Hne].
  - intros _. by exists l.
  - by rewrite lookup_insert_ne.
Qed.

Lemma no_new_logger_fixupParents_loop k name fuel : forall i st,
  is_logger k (with_loggerDict (fixupParents_loop fuel name i (loggerDict st)).2 st) ->
  is_logger k st.
Proof.
  induction fuel as [|fuel IH]; intros i st; simpl; [done|].
  case_bool_decide; [|done].
  set (substr := substring 0 (Z.to_nat i) name).
  set (next := rfind_dot name (Z.to_nat (i - 1))).
  destruct (loggerDict st !! substr) as [[l|cs]|] eqn:Hs; simpl; [done| |].
  - intros Hk.
    apply (IH next (with_loggerDict
             (<[substr := NPlaceHolder (placeholder_append name cs)]> (loggerDict st)) st))
      in Hk.
    destruct Hk as [l Hl]. simpl in Hl.
    destruct (decide (substr = k)) as [<-|Hne];
      [by rewrite lookup_insert_eq in Hl|].
    rewrite lookup_insert_ne in Hl by done. by exists l.
  - intros Hk.
    apply (IH next (with_loggerDict
             (<[substr := NPlaceHolder [name]]> (loggerDict st)) st)) in Hk.
    destruct Hk as [l Hl]. simpl in Hl.
    destruct (decide (substr = k)) as [<-|Hne];
      [by rewrite lookup_insert_eq in Hl|].
    rewrite lookup_insert_ne in Hl by done. by exists l.
Qed.

Lemma no_new_logger_fixupParents k name st :
  is_logger k (exec (Manager_fixupParents name) st) -> is_logger k st.
Proof.
  unfold Manager_fixupParents, exec, modify; cbn [snd].
  pose proof (no_new_logger_fixupParents_loop k name (String.length name)
                (rfind_dot name (String.length name)) st) as H.
  destruct (fixupParents_loop _ _ _ _) as [rv d]; simpl in *.
  intros H'. by apply no_new_logger_update_logger, H in H'.
Qed.

Lemma no_new_logger_fixupChildren k children name st :
  is_logger k (exec (Manager_fixupChildren children name) st) -> is_logger k st.
Proof.
  unfold Manager_fixupChildren, exec, modify; cbn [snd].
  revert st. induction children as [|c cs IH]; intros st; cbn [fold_left]; [done|].
  intros H. apply IH in H. unfold fixupChildren_step in H.
  destruct (parent (logger_at (Named c) st)) as [p|]; [|done].
  case_decide; [done|]. by do 2 apply no_new_logger_update_logger in H.
Qed.

Lemma no_new_logger_insert k n l st :
  k <> n ->
  is_logger k (with_loggerDict (<[n := NLogger l]> (loggerDict st)) st) ->
  is_logger k st.
Proof. intros Hne [l' Hl]. simpl in Hl. rewrite lookup_insert_ne in Hl by done. by exists l'. Qed.

Lemma no_new_logger_Manager_getLogger k n st :
  k <> n -> is_logger k (exec (Manager_getLogger n) st) -> is_logger k st.
Proof.
  intros Hne. rewrite Manager_getLogger_exec.
  destruct (loggerDict st !! n) as [[l|cs]|] eqn:Hn; [done| |].
  - intros H. apply no_new_logger_fixupParents, no_new_logger_fixupChildren in H.
    by eapply no_new_logger_insert.
  - intros H. apply no_new_logger_fixupParents in H. by eapply no_new_logger_insert.
Qed.

#[local] Instance no_new_logger_preorder k : PreOrder (no_new_logger k).
Proof. split; unfold no_new_logger; [intros st | intros s1 s2 s3]; tauto. Qed.

Lemma no_new_logger_getroot k :
  k <> _get_library_name ->
  preserves (no_new_logger k) (logging_getLogger (Some _get_library_name)).
Proof.
  intros Hne st. change (logging_getLogger (Some _get_library_name))
    with (Manager_getLogger _get_library_name).
  exact (no_new_logger_Manager_getLogger _ _ _ Hne).
Qed.

(** One step of [preserves_walk]. *)
Ltac preserves_step leaf :=
  match goal with
  | |- preserves ?R (ret _) => apply (preserves_ret R)
  | |- preserves ?R (gets _) => apply (preserves_gets R)
  | |- preserves ?R (raise _) => apply (preserves_raise R)
  | |- preserves ?R (assert _) => apply (preserves_assert R)
  | |- preserves ?R (bind _ _) => apply (preserves_bind R); [|intros ?]
  | |- preserves ?R (for_each _ _) => apply (preserves_for_each R); intros ?
  | |- preserves ?R (logging_getLogger _) => apply (preserves_logging_getLogger R)
  | |- preserves ?R (modify _) => apply (preserves_modify R); intros ?; leaf
  | |- preserves _ (match ?x with _ => _ end) => destruct x
  | |- preserves _ _ =>
      progress unfold _configure_library_root_logger, _reset_library_root_logger,
        get_log_levels_dict, get_logger, captureWarnings, get_verbosity, set_verbosity,
        set_verbosity_info, set_verbosity_warning, set_verbosity_debug,
        set_verbosity_error, disable_default_handler, enable_default_handler,
        add_handler, remove_handler, disable_propagation, enable_propagation,
        enable_explicit_format, reset_format, warning_advice, warning_once, info_once,
        is_progress_bar_enabled, enable_progress_bar, disable_progress_bar,
          hf_hub_enable_progress_bars, hf_hub_disable_progress_bars,
        _get_default_logging_level, _get_library_root_logger,
        Logger_addHandler, Logger_removeHandler, Logger_setLevel, Logger_warning,
        Logger_info, Logger_log, logging_StreamHandler, Handler_setFormatter,
        os_getenv, _captureWarnings
  end.

(** Walks a computation that fetches no logger but the library root
    logger. *)
Ltac no_new_logger_walk Hne :=
  repeat first
    [ match goal with
      | |- preserves _ (logging_getLogger (Some _get_library_name)) =>
          apply no_new_logger_getroot; exact Hne
      | |- preserves ?R (logging_getLogger None) => apply (preserves_ret R)
      | |- preserves ?R (modify _) =>
          apply (preserves_modify R); intros ?; unfold no_new_logger;
          first [ apply no_new_logger_update_logger | intros ?; assumption ]
      end
    | preserves_step fail ].

Lemma set_verbosity_no_new_logger k lvl :
  k <> _get_library_name -> preserves (no_new_logger k) (set_verbosity lvl).
Proof. intros Hne. no_new_logger_walk Hne. Qed.

Lemma configure_no_new_logger k :
  k <> _get_library_name ->
  preserves (no_new_logger k) _configure_library_root_logger.
Proof. intros Hne. no_new_logger_walk Hne. Qed.

Lemma effective_level_via_parent r p st :
  level (logger_at r st) = NOTSET ->
  parent (logger_at r st) = Some p ->
  level (logger_at p st) <> NOTSET ->
  Logger_getEffectiveLevel r st = level (logger_at p st).
Proof.
  intros Hl Hp Hq. unfold Logger_getEffectiveLevel, chain_fuel.
  cbn [effective_level_walk]. rewrite Hl, Hp.
  rewrite decide_True by done. by rewrite decide_False.
Qed.

Lemma logger_at_absent n st :
  ~ is_logger n st -> logger_at (Named n) st = new_logger.
Proof.
  intros Hn. unfold logger_at.
  destruct (loggerDict st !! n) as [[l|cs]|] eqn:Hd; [|done..].
  destruct Hn. by exists l.
Qed.

(** A module logger made while the library root logger exists is a
    child of it without a level of its own. *)
Lemma get_child_logger s st :
  no_dot s = true ->
  is_logger _get_library_name st ->
  ~ is_logger (child_logger_name s) st ->
  registry_ext st (exec (Manager_getLogger (child_logger_name s)) st) /\
  is_logger (child_logger_name s) (exec (Manager_getLogger (child_logger_name s)) st) /\
  level (logger_at (Named (child_logger_name s))
           (exec (Manager_getLogger (child_logger_name s)) st)) = NOTSET /\
  parent (logger_at (Named (child_logger_name s))
            (exec (Manager_getLogger (child_logger_name s)) st)) = Some library_root.
Proof.
  intros Hs Hlib Hnew.
  pose proof (Manager_getLogger_ext (child_logger_name s) st) as Hext.
  split; [exact Hext|].
  destruct (Manager_getLogger_child s st Hs Hlib Hnew) as (st0 & Hext0 & Hc & ->).
  split; [by apply is_logger_update_logger|].
  rewrite logger_at_update_same by done.
  split; [|done].
  change (level (logger_at (Named (child_logger_name s)) st0) = NOTSET).
  destruct Hext0 as (_ & Hsame & _).
  destruct (Hsame (Named (child_logger_name s))) as (_ & -> & _).
  by rewrite logger_at_absent.
Qed.

Lemma get_logger_run n st :
  ~ (n = "" \/ n = "root") ->
  get_logger (Some n) st =
    (Returned (Named n),
     exec (Manager_getLogger n) (exec _configure_library_root_logger st)).
Proof.
  intros Hn. unfold get_logger.
  destruct (configure_run st) as (h & Hrun & _).
  rewrite (bind_run _ _ _ _ _ Hrun). unfold logging_getLogger.
  rewrite decide_False by done.
  by rewrite run_eq, Manager_getLogger_eval.
Qed.

Lemma set_verbosity_initialised lvl st :
  is_Some (_default_handler st) ->
  is_logger _get_library_name st ->
  set_verbosity lvl st = (Returned tt, update_logger library_root (set_level lvl) st).
Proof.
  intros Hdh Hlib. rewrite set_verbosity_run.
  by rewrite configure_exec_initialised, getroot_existing.
Qed.

Lemma configure_library_root_exists st :
  _default_handler st = None \/ is_logger _get_library_name st ->
  is_logger _get_library_name (exec _configure_library_root_logger st).
Proof.
  intros [Hnone|Hlib].
  - destruct (configure_first st Hnone) as (? & ? & H). apply H.
  - destruct (_default_handler st) as [h|] eqn:Hdh.
    + by rewrite (configure_exec_done _ _ Hdh).
    + destruct (configure_first st Hdh) as (? & ? & H). apply H.
Qed.

(** X6.  Module loggers follow the library verbosity.  Where the library
    is not initialised yet or its root logger exists, a logger for a
    module directly below the library package, made by [get_logger] when
    [logging] does not know it yet, reports as its effective level the
    level other than NOTSET given to [set_verbosity], whether the
    verbosity was set before the logger was made or afterwards. *)
Theorem module_logger_follows_verbosity (st : State) (s : string) (lvl : Z) :
  lvl <> NOTSET ->
  no_dot s = true ->
  ~ is_logger (child_logger_name s) st ->
  _default_handler st = None \/ is_logger _get_library_name st ->
  eval (set_verbosity lvl >>
        let! logger := get_logger (Some (child_logger_name s)) in
        gets (Logger_getEffectiveLevel logger)) st = Returned lvl /\
  eval (let! logger := get_logger (Some (child_logger_name s)) in
        set_verbosity lvl >>
        gets (Logger_getEffectiveLevel logger)) st = Returned lvl.
Proof.
  intros Hlvl Hs Hnew Hinit.
  pose proof (child_logger_name_not_library s) as Hne.
  pose proof (child_logger_name_not_root s) as Hnr.
  split.
  - destruct (set_verbosity_post lvl st) as (Hdh & Hlib & Hl).
    pose proof (set_verbosity_no_new_logger _ lvl Hne st) as Hkeep.
    assert (set_verbosity lvl st = (Returned tt, exec (set_verbosity lvl) st)) as Hset.
    { rewrite run_eq. f_equal. unfold eval. by rewrite set_verbosity_run. }
    set (st1 := exec (set_verbosity lvl) st) in *.
    assert (~ is_logger (child_logger_name s) st1) as Hnew1
      by (intros H; by apply Hnew, Hkeep).
    destruct (get_child_logger s st1 Hs Hlib Hnew1) as (Hext & Hc & Hl0 & Hp).
    unfold eval. rewrite (bind_run _ _ _ _ _ Hset).
    rewrite (bind_run _ _ _ _ _ (get_logger_run _ st1 Hnr)).
    rewrite configure_exec_initialised by done. unfold gets. cbn [fst].
    f_equal.
    destruct Hext as (_ & Hsame & _).
    destruct (Hsame library_root) as (_ & Hlev & _).
    rewrite (effective_level_via_parent _ library_root); [|done..| ];
      rewrite Hlev, Hl; done.
  - set (st1 := exec _configure_library_root_logger st).
    assert (is_logger _get_library_name st1) as Hlib
      by by apply configure_library_root_exists.
    assert (~ is_logger (child_logger_name s) st1) as Hnew1.
    { intros H. by apply Hnew, (configure_no_new_logger _ Hne st). }
    destruct (get_child_logger s st1 Hs Hlib Hnew1) as (Hext & Hc & Hl0 & Hp).
    unfold eval. rewrite (bind_run _ _ _ _ _ (get_logger_run _ st Hnr)).
    fold st1. set (st2 := exec (Manager_getLogger (child_logger_name s)) st1) in *.
    assert (is_Some (_default_handler st2)) as Hdh2.
    { apply registry_ext_outside in Hext as (_ & _ & _ & _ & _ & _ & _ & -> & _).
      apply configure_initialises. }
    assert (is_logger _get_library_name st2) as Hlib2
      by (destruct Hext as (_ & _ & H); by apply H).
    rewrite (bind_run _ _ _ _ _ (set_verbosity_initialised lvl st2 Hdh2 Hlib2)).
    unfold gets. cbn [fst]. f_equal.
    assert (Named (child_logger_name s) <> library_root) as Hne'
      by (intros [= H]; by apply Hne).
    rewrite (effective_level_via_parent _ library_root);
      rewrite ?logger_at_update_other by done; [|done..| ];
      unfold library_root; rewrite logger_at_update_same by done; done.
Qed.

Lemma module_logger_follows_verbosity_witness :
  eval (set_verbosity DEBUG >>
        let! logger := get_logger (Some (child_logger_name "model")) in
        gets (Logger_getEffectiveLevel logger)) (initial_state ∅ false) = Returned DEBUG /\
  eval (let! logger := get_logger (Some (child_logger_name "model")) in
        set_verbosity DEBUG >>
        gets (Logger_getEffectiveLevel logger)) (initial_state ∅ false) = Returned DEBUG.
Proof.
  apply (module_logger_follows_verbosity (initial_state ∅ false) "model" DEBUG).
  - discriminate.
  - reflexivity.
  - intros [l Hl]. vm_compute in Hl. discriminate.
  - left. reflexivity.
Defined.

(** ** What the operations leave alone *)

#[local] Instance untouched_but_preorder ex : PreOrder (untouched_but ex).
Proof.
  split.
  - intros st r _. apply same_settings_refl.
  - intros s1 s2 s3 H1 H2 r Hr.
    eapply same_settings_trans; [apply H2 | apply H1]; done.
Qed.

#[local] Instance untouched_but_ext ex : ExtClosed (untouched_but ex).
Proof. intros st st' (_ & H & _) r _. apply H. Qed.

Lemma untouched_but_update_logger ex r g st :
  r ∈ ex -> untouched_but ex st (update_logger r g st).
Proof.
  intros Hr r' Hr'. rewrite logger_at_update_other; [apply same_settings_refl|].
  by intros ->.
Qed.

Section Tracked.
Context (R : relation State) `{!PreOrder R}.

Lemma preserves_bind_assoc {A B C} (c : M A) (f : A -> M B) (k : B -> M C) :
  preserves R (bind c (fun x => bind (f x) k)) ->
  preserves R (bind (bind c f) k).
Proof.
  intros H st. specialize (H st). unfold exec, bind in *.
  by destruct (c st) as [[a|e] st'].
Qed.

(** The computation after fetching a logger by name only ever sees that
    logger. *)
Lemma preserves_bind_getLogger {B} n (k : LoggerRef -> M B) :
  ~ (n = "" \/ n = "root") ->
  preserves R (logging_getLogger (Some n)) ->
  preserves R (k (Named n)) ->
  preserves R (bind (logging_getLogger (Some n)) k).
Proof.
  intros Hn Hc Hk st. rewrite exec_bind.
  assert (eval (logging_getLogger (Some n)) st = Returned (Named n)) as ->.
  { unfold logging_getLogger. rewrite decide_False by done.
    apply Manager_getLogger_eval. }
  etrans; [apply Hc | apply Hk].
Qed.
End Tracked.

(** The walk that remembers which logger a fetch has returned. *)
Ltac tracked_step leaf :=
  first
    [ progress cbv beta iota zeta
    | match goal with
      | |- preserves ?R (bind (bind _ _) _) => apply (preserves_bind_assoc R)
      | |- preserves _ (bind (match ?x with _ => _ end) _) => destruct x
      | |- preserves _ (bind (get_logger _) _) => unfold get_logger
      | |- preserves _ (bind _get_library_root_logger _) =>
          unfold _get_library_root_logger
      | |- preserves ?R (bind (logging_getLogger (Some ?n)) _) =>
          apply (preserves_bind_getLogger R n);
          [solve [intros [H|H]; vm_compute in H; discriminate]|..]
      end
    | preserves_step leaf ].

Ltac tracked_walk leaf := repeat tracked_step leaf.

Ltac untouched_leaf :=
  first
    [ apply untouched_but_update_logger;
      first [ apply list_elem_of_here | apply list_elem_of_further, list_elem_of_here ]
    | intros ? ?; strip_frames; apply same_settings_refl ].

Lemma run_op_untouched o :
  preserves (untouched_but [library_root; py_warnings]) (run_op o).
Proof. destruct o; unfold run_op; tracked_walk untouched_leaf. Qed.

Lemma run_op_untouched_library o :
  (forall capture, o <> OpCaptureWarnings capture) ->
  preserves (untouched_but [library_root]) (run_op o).
Proof.
  intros Ho. destruct o; try (by destruct (Ho capture));
    unfold run_op; tracked_walk untouched_leaf.
Qed.

Lemma configure_untouched :
  preserves (untouched_but [library_root]) _configure_library_root_logger.
Proof. tracked_walk untouched_leaf. Qed.

#[local] Instance same_manager_disable_preorder : PreOrder same_manager_disable.
Proof. split; unfold same_manager_disable; [done | intros s1 s2 s3; congruence]. Qed.

#[local] Instance same_manager_disable_ext : ExtClosed same_manager_disable.
Proof.
  intros st st' H. unfold same_manager_disable.
  by destruct (registry_ext_outside _ _ H) as (_ & _ & _ & _ & -> & _).
Qed.

Ltac manager_disable_leaf :=
  unfold same_manager_disable;
  first [ apply update_logger_manager_disable | reflexivity ].

Lemma run_op_same_manager_disable o : preserves same_manager_disable (run_op o).
Proof. destruct o; unfold run_op; preserves_walk manager_disable_leaf. Qed.

(** X7.  The library keeps to its own loggers.  Whatever operations of the
    module run, in any order and whether or not they raise, the
    environment and the threshold of [logging.disable] stay as they were,
    and every logger other than the library root logger and [py.warnings]
    (the root logger of [logging] among them) keeps its handlers, level,
    propagation flag and disabled flag; [py.warnings] keeps them too
    unless [captureWarnings] is among the operations. *)
Theorem other_loggers_untouched (ops : list Op) (st : State) :
  environ (run_ops ops st) = environ st /\
  manager_disable (run_ops ops st) = manager_disable st /\
  (forall r, r <> library_root -> r <> py_warnings ->
     same_settings (logger_at r (run_ops ops st)) (logger_at r st)) /\
  ((forall capture, OpCaptureWarnings capture ∉ ops) ->
   same_settings (logger_at py_warnings (run_ops ops st)) (logger_at py_warnings st)).
Proof.
  split; [|split; [|split]].
  - apply (run_ops_preserves same_environ). intros o _. apply run_op_same_environ.
  - apply (run_ops_preserves same_manager_disable). intros o _.
    apply run_op_same_manager_disable.
  - intros r Hl Hw.
    apply (run_ops_preserves (untouched_but [library_root; py_warnings]) ops st).
    + intros o _. apply run_op_untouched.
    + by intros [->|[->|?%not_elem_of_nil]%elem_of_cons]%elem_of_cons.
  - intros Hops.
    apply (run_ops_preserves (untouched_but [library_root]) ops st).
    + intros o Ho. apply run_op_untouched_library. intros capture ->.
      by apply (Hops capture).
    + by intros [?|?%not_elem_of_nil]%elem_of_cons.
Qed.

Lemma other_loggers_untouched_witness :
  RootLogger <> library_root /\ RootLogger <> py_warnings /\
  same_settings
    (logger_at RootLogger
       (run_ops [OpSetVerbosity DEBUG; OpEnablePropagation; OpCaptureWarnings true]
          (initial_state ∅ false)))
    (logger_at RootLogger (initial_state ∅ false)).
Proof.
  assert (RootLogger <> library_root) as H1 by discriminate.
  assert (RootLogger <> py_warnings) as H2 by discriminate.
  split; [exact H1|]. split; [exact H2|].
  exact (proj1 (proj2 (proj2 (other_loggers_untouched
    [OpSetVerbosity DEBUG; OpEnablePropagation; OpCaptureWarnings true]
    (initial_state ∅ false)))) RootLogger H1 H2).
Defined.

(** ** Capturing warnings *)

Lemma bind_gets {A B} (f : State -> A) (k : A -> M B) st :
  bind (gets f) k st = k (f st) st.
Proof. reflexivity. Qed.

Lemma bind_modify {B} f (k : unit -> M B) st : bind (modify f) k st = k tt (f st).
Proof. reflexivity. Qed.

Lemma bind_ret {A B} (a : A) (k : A -> M B) st : bind (ret a) k st = k a st.
Proof. reflexivity. Qed.

Lemma bind_assoc {A B C} (c : M A) (f : A -> M B) (k : B -> M C) st :
  bind (bind c f) k st = bind c (fun x => bind (f x) k) st.
Proof. unfold bind. by destruct (c st) as [[a|e] st']. Qed.

Lemma captureWarnings_run capture st :
  exists h,
    _default_handler (exec _configure_library_root_logger st) = Some h /\
    captureWarnings capture st =
      (Returned tt,
       let st1 := exec (Manager_getLogger "py.warnings")
                    (exec _configure_library_root_logger st) in
       let st2 := match handlers (logger_at py_warnings st1) with
                  | [] => update_logger py_warnings (attach h) st1
                  | _ :: _ => st1
                  end in
       let st3 := exec _get_library_root_logger st2 in
       with_warnings_captured capture
         (update_logger py_warnings
            (set_level (level (logger_at library_root st3))) st3)).
Proof.
  destruct (configure_run st) as (h & _ & Hh). exists h. split; [exact Hh|].
  unfold captureWarnings.
  assert (~ ("py.warnings" = "" \/ "py.warnings" = "root")) as Hn by (by intros [?|?]).
  rewrite (bind_run _ _ _ _ _ (get_logger_run _ st Hn)).
  set (st1 := exec (Manager_getLogger "py.warnings")
                (exec _configure_library_root_logger st)).
  assert (_default_handler st1 = Some h) as Hh1.
  { pose proof (Manager_getLogger_ext "py.warnings"
                  (exec _configure_library_root_logger st)) as Hext.
    apply registry_ext_outside in Hext as (_ & _ & _ & _ & _ & _ & _ & H & _).
    fold st1 in H. by rewrite H. }
  change (Named "py.warnings") with py_warnings. rewrite bind_gets.
  cbv zeta.
  destruct (handlers (logger_at py_warnings st1)) as [|h0 hs].
  - rewrite bind_assoc, bind_gets, Hh1. unfold Logger_addHandler.
    rewrite bind_modify, (bind_run _ _ _ _ _ (getroot_run _)), bind_gets.
    unfold Logger_setLevel, _captureWarnings. by rewrite bind_modify.
  - rewrite bind_ret, (bind_run _ _ _ _ _ (getroot_run _)), bind_gets.
    unfold Logger_setLevel, _captureWarnings. by rewrite bind_modify.
Qed.

(** X8.  [captureWarnings] sets up the logger of captured warnings.  The
    call returns; afterwards the library is initialised, the capture
    switch of [logging] has the value given, the logger [py.warnings]
    exists, its level is the level the library root logger has of its
    own, and it carries the default handler if it had no handler before,
    and the handlers it had otherwise. *)
Theorem captureWarnings_sets_up_py_warnings (st : State) (capture : bool) :
  eval (captureWarnings capture) st = Returned tt /\
  warnings_captured (exec (captureWarnings capture) st) = capture /\
  is_logger "py.warnings" (exec (captureWarnings capture) st) /\
  (exists h,
     _default_handler (exec (captureWarnings capture) st) = Some h /\
     handlers (logger_at py_warnings (exec (captureWarnings capture) st)) =
       match handlers (logger_at py_warnings st) with
       | [] => [h]
       | h0 :: hs => h0 :: hs
       end) /\
  level (logger_at py_warnings (exec (captureWarnings capture) st)) =
    level (logger_at library_root (exec (captureWarnings capture) st)).
Proof.
  destruct (captureWarnings_run capture st) as (h & Hh & Hrun).
  unfold eval, exec at 1 2 3 4 5 6. rewrite Hrun. cbn [fst snd]. cbv zeta.
  set (st0 := exec _configure_library_root_logger st) in *.
  set (st1 := exec (Manager_getLogger "py.warnings") st0).
  set (st2 := match handlers (logger_at py_warnings st1) with
              | [] => update_logger py_warnings (attach h) st1
              | _ :: _ => st1
              end).
  set (st3 := exec _get_library_root_logger st2).
  set (lvl := level (logger_at library_root st3)).
  assert (py_warnings <> library_root) as Hne by discriminate.
  pose proof (Manager_getLogger_ext "py.warnings" st0) as Hext1. fold st1 in Hext1.
  pose proof (Manager_getLogger_is_logger "py.warnings" st0) as Hpw1. fold st1 in Hpw1.
  assert (handlers (logger_at py_warnings st1) = handlers (logger_at py_warnings st))
    as Hhs1.
  { destruct Hext1 as (_ & Hsame & _). destruct (Hsame py_warnings) as (-> & _).
    apply (configure_untouched st py_warnings).
    by intros [?|?%not_elem_of_nil]%elem_of_cons. }
  assert (_default_handler st1 = Some h) as Hh1.
  { apply registry_ext_outside in Hext1 as (_ & _ & _ & _ & _ & _ & _ & -> & _).
    exact Hh. }
  assert (is_logger "py.warnings" st2 /\ _default_handler st2 = Some h /\
          handlers (logger_at py_warnings st2) =
            match handlers (logger_at py_warnings st) with
            | [] => [h]
            | h0 :: hs => h0 :: hs
            end) as (Hpw2 & Hh2 & Hhs2).
  { subst st2. rewrite <- Hhs1.
    destruct (handlers (logger_at py_warnings st1)) as [|h0 hs] eqn:Hhs.
    - split; [by apply is_logger_update_logger|].
      split; [by rewrite update_logger_default_handler|].
      unfold py_warnings. rewrite logger_at_update_same by done.
      fold py_warnings. rewrite handlers_attach, Hhs.
      by rewrite decide_False by apply not_elem_of_nil.
    - done. }
  pose proof (_get_library_root_logger_ext st2) as Hext3. fold st3 in Hext3.
  destruct (registry_ext_outside _ _ Hext3) as (_ & _ & _ & _ & _ & _ & _ & Hh3 & _).
  destruct Hext3 as (_ & Hsame3 & Hlog3).
  assert (is_logger "py.warnings" st3) as Hpw3 by by apply Hlog3.
  split; [done|]. split; [done|]. split; [|split].
  - strip_frames. by apply is_logger_update_logger.
  - exists h. split.
    + change (_default_handler (update_logger py_warnings (set_level lvl) st3) = Some h).
      by rewrite update_logger_default_handler, Hh3.
    + strip_frames. unfold py_warnings at 1 2.
      rewrite logger_at_update_same by done. fold py_warnings.
      change (handlers (logger_at py_warnings st3) =
              match handlers (logger_at py_warnings st) with
              | [] => [h]
              | h0 :: hs => h0 :: hs
              end).
      destruct (Hsame3 py_warnings) as (-> & _). exact Hhs2.
  - strip_frames. rewrite (logger_at_update_other py_warnings library_root) by done.
    unfold py_warnings at 1 2. by rewrite logger_at_update_same.
Qed.

(** ** Messages logged once *)

#[local] Instance info_cache_grows_preorder : PreOrder info_cache_grows.
Proof.
  split; unfold info_cache_grows; [intros st; set_solver | intros s1 s2 s3; set_solver].
Qed.

#[local] Instance info_cache_grows_ext : ExtClosed info_cache_grows.
Proof.
  intros st st' H. unfold info_cache_grows.
  destruct (registry_ext_outside _ _ H) as (_&_&_&_&_&_&_&_&_&_&_&Hi).
  by rewrite Hi.
Qed.

Ltac info_cache_leaf :=
  first
    [ unfold info_cache_grows; by rewrite update_logger_info_once_cache
    | unfold info_cache_grows; cbn; set_solver ].

Lemma run_op_info_cache_grows o : preserves info_cache_grows (run_op o).
Proof. destruct o; unfold run_op; preserves_walk info_cache_leaf. Qed.

Lemma info_once_hit self args st :
  (self, args) ∈ info_once_cache st ->
  info_once self args st = (Returned tt, st).
Proof.
  intros H. unfold info_once, bind, gets. by rewrite decide_True.
Qed.

Lemma info_once_miss self m rest st :
  (self, m :: rest) ∉ info_once_cache st ->
  info_once self (m :: rest) st =
    (Returned tt,
     with_info_once_cache (info_once_cache st ++ [(self, m :: rest)])
       (exec (Logger_info self (m :: rest)) st)).
Proof.
  intros H. unfold info_once. unfold bind at 1, gets. rewrite decide_False by done.
  unfold bind, modify, exec. rewrite Logger_info_run. cbn [snd].
  by destruct (Logger_isEnabledFor self INFO st).
Qed.

(** X9.  [info_once] memoises whether or not it logged.  A first call with
    a message returns; it emits one INFO record when the logger is enabled
    for INFO and nothing otherwise; in both cases every later call with
    the same logger and arguments returns without doing anything, whatever
    operations ran in between, a change of verbosity included. *)
Theorem info_once_memoised (st : State) (self : LoggerRef)
    (m : string) (rest : list string) :
  (self, m :: rest) ∉ info_once_cache st ->
  let x := m :: rest in
  eval (info_once self x) st = Returned tt /\
  emitted (exec (info_once self x) st) =
    (if Logger_isEnabledFor self INFO st
     then emitted st ++
            [mkEmission (mkLogRecord self INFO m rest) (Logger_callHandlers self INFO st)]
     else emitted st) /\
  (forall ops,
     info_once self x (run_ops ops (exec (info_once self x) st)) =
       (Returned tt, run_ops ops (exec (info_once self x) st))).
Proof.
  intros Hc x. subst x.
  split; [|split].
  - unfold eval. by rewrite info_once_miss.
  - unfold exec. rewrite info_once_miss by done. cbn [snd].
    change (emitted (with_info_once_cache ?v ?s)) with (emitted s).
    unfold exec. rewrite Logger_info_run. cbn [snd].
    by destruct (Logger_isEnabledFor self INFO st).
  - intros ops. apply info_once_hit.
    apply (run_ops_preserves info_cache_grows ops
             (exec (info_once self (m :: rest)) st)).
    + intros o _. apply run_op_info_cache_grows.
    + unfold exec. rewrite info_once_miss by done. cbn [snd].
      change (info_once_cache (with_info_once_cache ?v ?s)) with v.
      set_solver.
Qed.

Lemma info_once_memoised_witness :
  let st := exec (get_logger (Some "src.models")) (initial_state ∅ false) in
  let self := Named "src.models" in
  ((self, ["X"]) ∉ info_once_cache st) /\
  emitted (exec (info_once self ["X"]) st) = [] /\
  emitted (run_ops [OpSetVerbosityInfo; OpInfoOnce self ["X"]]
             (exec (info_once self ["X"]) st)) = [].
Proof.
  intros st self.
  assert ((self, ["X"]) ∉ info_once_cache st) as Hc by (vm_compute; apply not_elem_of_nil).
  destruct (info_once_memoised st self "X" [] Hc) as (_ & H2 & H3).
  split; [exact Hc|]. split; [exact H2|].
  specialize (H3 [OpSetVerbosityInfo]).
  change (run_ops [OpSetVerbosityInfo; OpInfoOnce self ["X"]]
            (exec (info_once self ["X"]) st))
    with (exec (info_once self ["X"])
            (run_ops [OpSetVerbosityInfo] (exec (info_once self ["X"]) st))).
  unfold exec at 1. rewrite H3. reflexivity.
Defined.

(** X10.  A warning asked for while warnings are off is used up.  When the
    logger is not enabled for WARNING, a first [warning_once] with a
    message returns and changes nothing but its cache; every later call
    with the same logger and arguments then does nothing, whatever
    operations ran in between, so the message is never logged.  The cache
    of [info_once] is a different one and is left as it was. *)
Theorem warning_once_while_disabled (st : State) (self : LoggerRef)
    (m : string) (rest : list string) :
  (self, m :: rest) ∉ warning_once_cache st ->
  Logger_isEnabledFor self WARNING st = false ->
  let x := m :: rest in
  warning_once self x st =
    (Returned tt, with_warning_once_cache (warning_once_cache st ++ [(self, x)]) st) /\
  (forall ops,
     warning_once self x (run_ops ops (exec (warning_once self x) st)) =
       (Returned tt, run_ops ops (exec (warning_once self x) st))) /\
  info_once_cache (exec (warning_once self x) st) = info_once_cache st.
Proof.
  intros Hc He x. subst x.
  assert (warning_once self (m :: rest) st =
            (Returned tt,
             with_warning_once_cache (warning_once_cache st ++ [(self, m :: rest)]) st))
    as Hrun.
  { rewrite warning_once_miss by done. unfold exec.
    by rewrite Logger_warning_run, He. }
  split; [exact Hrun|]. split.
  - intros ops. apply warning_once_hit.
    apply (run_ops_preserves cache_grows ops
             (exec (warning_once self (m :: rest)) st)).
    + intros o _. apply run_op_cache_grows.
    + unfold exec. rewrite Hrun. cbn [snd].
      change (warning_once_cache (with_warning_once_cache ?v ?s)) with v.
      set_solver.
  - unfold exec. by rewrite Hrun.
Qed.

Lemma warning_once_while_disabled_witness :
  let st := exec (set_verbosity_error >> get_logger (Some "src.models"))
              (initial_state ∅ false) in
  let self := Named "src.models" in
  ((self, ["X"]) ∉ warning_once_cache st) /\
  Logger_isEnabledFor self WARNING st = false /\
  emitted (run_ops [OpSetVerbosityWarning; OpWarningOnce self ["X"]]
             (exec (warning_once self ["X"]) st)) = [].
Proof.
  intros st self.
  assert ((self, ["X"]) ∉ warning_once_cache st) as Hc by (vm_compute; apply not_elem_of_nil).
  assert (Logger_isEnabledFor self WARNING st = false) as He by (vm_compute; reflexivity).
  destruct (warning_once_while_disabled st self "X" [] Hc He) as (_ & H2 & _).
  split; [exact Hc|]. split; [exact He|].
  specialize (H2 [OpSetVerbosityWarning]).
  change (run_ops [OpSetVerbosityWarning; OpWarningOnce self ["X"]]
            (exec (warning_once self ["X"]) st))
    with (exec (warning_once self ["X"])
            (run_ops [OpSetVerbosityWarning] (exec (warning_once self ["X"]) st))).
  unfold exec at 1. rewrite H2. reflexivity.
Defined.

#[local] Instance keeps_no_empty_key_preorder : PreOrder keeps_no_empty_key.
Proof. split; unfold keeps_no_empty_key; [intros st | intros s1 s2 s3]; tauto. Qed.

#[local] Instance keeps_no_empty_key_ext : ExtClosed keeps_no_empty_key.
Proof.
  intros st st' H. unfold keeps_no_empty_key, no_empty_key.
  destruct (registry_ext_outside _ _ H) as (_&_&_&_&_&_&_&_&_&_&Hw&Hi).
  by rewrite Hw, Hi.
Qed.

Lemma warning_once_no_message self st :
  ((self, []) ∉ warning_once_cache st) ->
  warning_once self [] st = (Raised TypeError, st).
Proof.
  intros H. unfold warning_once. rewrite bind_gets. by rewrite decide_False.
Qed.

Lemma info_once_no_message self st :
  ((self, []) ∉ info_once_cache st) ->
  info_once self [] st = (Raised TypeError, st).
Proof.
  intros H. unfold info_once. rewrite bind_gets. by rewrite decide_False.
Qed.

Lemma warning_once_keeps_no_empty_key self args :
  preserves keeps_no_empty_key (warning_once self args).
Proof.
  intros st Hst. destruct (decide ((self, args) ∈ warning_once_cache st)) as [Hin|Hout].
  - unfold exec. by rewrite warning_once_hit.
  - destruct args as [|m rest].
    + unfold exec. by rewrite warning_once_no_message.
    + unfold exec. rewrite warning_once_miss by done. cbn [snd].
      intros r. destruct (Hst r) as [Hw Hi]. split.
      * change (warning_once_cache (with_warning_once_cache ?v ?s)) with v.
        intros [?|[=]%list_elem_of_singleton]%elem_of_app. done.
      * change (info_once_cache (with_warning_once_cache ?v ?s)) with (info_once_cache s).
        unfold exec. rewrite Logger_warning_run. cbn [snd].
        by destruct (Logger_isEnabledFor self WARNING st).
Qed.

Lemma info_once_keeps_no_empty_key self args :
  preserves keeps_no_empty_key (info_once self args).
Proof.
  intros st Hst. destruct (decide ((self, args) ∈ info_once_cache st)) as [Hin|Hout].
  - unfold exec. by rewrite info_once_hit.
  - destruct args as [|m rest].
    + unfold exec. by rewrite info_once_no_message.
    + unfold exec. rewrite info_once_miss by done. cbn [snd].
      intros r. destruct (Hst r) as [Hw Hi]. split.
      * change (warning_once_cache (with_info_once_cache ?v ?s))
          with (warning_once_cache s).
        unfold exec. rewrite Logger_info_run. cbn [snd].
        by destruct (Logger_isEnabledFor self INFO st).
      * change (info_once_cache (with_info_once_cache ?v ?s)) with v.
        intros [?|[=]%list_elem_of_singleton]%elem_of_app. done.
Qed.

Ltac no_empty_key_leaf :=
  first
    [ unfold keeps_no_empty_key, no_empty_key;
      by rewrite update_logger_warning_once_cache, update_logger_info_once_cache
    | intros H; exact H ].

Lemma run_op_keeps_no_empty_key o : preserves keeps_no_empty_key (run_op o).
Proof.
  destruct o; unfold run_op;
    first [ apply warning_once_keeps_no_empty_key
          | apply info_once_keeps_no_empty_key
          | preserves_walk no_empty_key_leaf ].
Qed.

(** X11.  A once-only call without a message always fails.  No operation
    memoises a call without arguments; so, from a state where none is
    memoised, however many operations have run, [warning_once] and
    [info_once] called without a message raise [TypeError] and change
    nothing, the caches included. *)
Theorem once_without_message_raises (st : State) (ops : list Op) (self : LoggerRef) :
  no_empty_key st ->
  no_empty_key (run_ops ops st) /\
  warning_once self [] (run_ops ops st) = (Raised TypeError, run_ops ops st) /\
  info_once self [] (run_ops ops st) = (Raised TypeError, run_ops ops st).
Proof.
  intros Hst.
  assert (no_empty_key (run_ops ops st)) as H.
  { apply (run_ops_preserves keeps_no_empty_key ops st); [|exact Hst].
    intros o _. apply run_op_keeps_no_empty_key. }
  split; [exact H|]. destruct (H self) as [Hw Hi].
  split; [by apply warning_once_no_message | by apply info_once_no_message].
Qed.

Lemma once_without_message_raises_witness :
  let st := initial_state ∅ false in
  let ops := [OpWarningOnce RootLogger ["X"]; OpInfoOnce RootLogger []] in
  no_empty_key st /\
  warning_once RootLogger [] (run_ops ops st) = (Raised TypeError, run_ops ops st).
Proof.
  intros st ops.
  assert (no_empty_key st) as H by (intros r; split; apply not_elem_of_nil).
  split; [exact H|].
  exact (proj1 (proj2 (once_without_message_raises st ops RootLogger H))).
Defined.

(** ** The default handler object *)

Lemma default_level_sys_stderr st :
  sys_stderr (exec _get_default_logging_level st) = sys_stderr st.
Proof. by rewrite _get_default_logging_level_emit_only. Qed.

#[local] Hint Rewrite default_level_sys_stderr : fields.

(** What the first initialisation leaves in [sys.stderr] and on the heap
    of handler objects. *)
Lemma configure_first_heap st :
  _default_handler st = None ->
  sys_stderr (exec _configure_library_root_logger st) =
    Some (match sys_stderr st with Some s => s | None => DevNull end) /\
  heap (exec _configure_library_root_logger st) =
    (let h := fresh (dom (heap st)) in
     let hp :=
       alter (set_flush (FlushOf (match sys_stderr st with Some s => s | None => DevNull end)))
         h (<[h := mkHandlerObj NOTSET None (sys_stderr st) OwnFlush]> (heap st)) in
     if decide (environ st !! "TRANSFORMERS_VERBOSITY" = Some "detail")
     then alter (set_formatter (Some detail_format)) h hp
     else hp).
Proof.
  intros H. unfold exec at 1 2. unfold _configure_library_root_logger.
  unfold bind at 1. cbn. rewrite H. cbn.
  destruct (sys_stderr st) eqn:Herr; cbn;
    run_getroot; cbn; run_default_level lvl Hev; cbn;
    autorewrite with fields; cbn;
    destruct (decide (environ st !! "TRANSFORMERS_VERBOSITY" = Some "detail")); cbn.
  all: split; fields; by rewrite ?Herr.
Qed.

(** X12.  The default handler object.  The first initialisation makes a
    new handler object and registers it as the default handler: level
    NOTSET; the detail format when TRANSFORMERS_VERBOSITY is [detail] and
    no formatter otherwise; as stream the [sys.stderr] found at that
    moment, so no stream when [sys.stderr] was missing; and as flush the
    flush of [sys.stderr], which is the null device when it was missing.
    Missing, [sys.stderr] is replaced by the null device.  The other
    handler objects are left as they were. *)
Theorem default_handler_object (st : State) :
  _default_handler st = None ->
  let st' := exec _configure_library_root_logger st in
  let err := match sys_stderr st with Some s => s | None => DevNull end in
  exists h,
    _default_handler st' = Some h /\
    heap st !! h = None /\
    heap st' !! h =
      Some (mkHandlerObj NOTSET
              (if decide (environ st !! "TRANSFORMERS_VERBOSITY" = Some "detail")
               then Some detail_format else None)
              (sys_stderr st) (FlushOf err)) /\
    (forall h', h' <> h -> heap st' !! h' = heap st !! h') /\
    sys_stderr st' = Some err.
Proof.
  intros Hnone st' err. subst st' err.
  destruct (configure_first st Hnone) as (st5 & lvl & _ & _ & _ & _ & _ & _ & Hdh & _).
  destruct (configure_first_heap st Hnone) as (Herr & Hheap).
  exists (fresh (dom (heap st))). split; [exact Hdh|].
  split; [apply not_elem_of_dom, is_fresh|].
  rewrite Hheap. cbv zeta. split; [|split; [|exact Herr]].
  - case_decide.
    + by rewrite !lookup_alter_eq, lookup_insert_eq.
    + by rewrite lookup_alter_eq, lookup_insert_eq.
  - intros h' Hne. case_decide.
    + by rewrite !lookup_alter_ne, lookup_insert_ne.
    + by rewrite lookup_alter_ne, lookup_insert_ne.
Qed.

Lemma default_handler_object_witness :
  let st := with_sys_stderr None
              (initial_state {["TRANSFORMERS_VERBOSITY" := "detail"]} false) in
  _default_handler st = None /\
  exists h,
    _default_handler (exec _configure_library_root_logger st) = Some h /\
    heap (exec _configure_library_root_logger st) !! h =
      Some (mkHandlerObj NOTSET (Some detail_format) None (FlushOf DevNull)) /\
    sys_stderr (exec _configure_library_root_logger st) = Some DevNull.
Proof.
  intros st.
  assert (_default_handler st = None) as H by reflexivity.
  split; [exact H|].
  destruct (default_handler_object st H) as (h & H1 & _ & H3 & _ & H5).
  exists h. split; [exact H1|]. split; [exact H3 | exact H5].
Defined.

(** ** Formats *)

Lemma for_each_setFormatter fmt hs st :
  for_each hs (fun h => Handler_setFormatter h fmt) st =
    (Returned tt, with_heap (set_formatters fmt hs (heap st)) st).
Proof.
  revert st. induction hs as [|h hs IH]; intros st.
  - cbn. by destruct st.
  - cbn [for_each]. unfold Handler_setFormatter at 1. rewrite bind_modify, IH.
    by destruct st.
Qed.

Lemma set_formatters_lookup fmt hs : forall hp h,
  set_formatters fmt hs hp !! h =
    if decide (h ∈ hs) then set_formatter fmt <$> hp !! h else hp !! h.
Proof.
  induction hs as [|h0 hs IH]; intros hp h; cbn.
  - by rewrite decide_False by apply not_elem_of_nil.
  - change (fold_left _ hs ?x) with (set_formatters fmt hs x). rewrite IH.
    destruct (decide (h = h0)) as [->|Hne].
    + rewrite lookup_alter_eq. rewrite (decide_True (P := h0 ∈ h0 :: hs)) by left.
      case_decide; [|done]. by destruct (hp !! h0).
    + rewrite lookup_alter_ne by done.
      destruct (decide (h ∈ hs)) as [Hin|Hout].
      * by rewrite decide_True by by right.
      * rewrite decide_False; [done|]. by intros [?|?]%elem_of_cons.
Qed.

Lemma set_format_run fmt st :
  (let! library_root_logger := _get_library_root_logger in
   let! hs := gets (fun st => handlers (logger_at library_root_logger st)) in
   for_each hs (fun handler => Handler_setFormatter handler fmt)) st =
  (Returned tt,
   with_heap (set_formatters fmt (attached st) (heap st))
     (exec _get_library_root_logger st)).
Proof.
  rewrite (bind_run _ _ _ _ _ (getroot_run _)), bind_gets, for_each_setFormatter.
  by rewrite getroot_handlers, getroot_heap.
Qed.

(** X13.  Formats reach the handlers attached at the time, and nothing
    else.  [enable_explicit_format] and [reset_format] return; they give
    the explicit format, respectively no formatter, to every handler
    object attached to the library root logger and leave the other
    handler objects alone; they attach and detach nothing and, unlike the
    other operations, do not initialise the library: the default handler
    is the one there was, or still none. *)
Theorem formats_reach_attached_handlers (st : State) (h : Handler) :
  eval enable_explicit_format st = Returned tt /\
  eval reset_format st = Returned tt /\
  heap (exec enable_explicit_format st) !! h =
    (if decide (h ∈ attached st)
     then set_formatter (Some explicit_format) <$> heap st !! h
     else heap st !! h) /\
  heap (exec reset_format st) !! h =
    (if decide (h ∈ attached st) then set_formatter None <$> heap st !! h
     else heap st !! h) /\
  attached (exec enable_explicit_format st) = attached st /\
  attached (exec reset_format st) = attached st /\
  _default_handler (exec enable_explicit_format st) = _default_handler st /\
  _default_handler (exec reset_format st) = _default_handler st.
Proof.
  unfold eval, exec at 1 2 3 4 5 6. unfold enable_explicit_format, reset_format.
  rewrite !set_format_run. cbn [fst snd].
  change (heap (with_heap ?v ?s)) with v.
  change (_default_handler (with_heap ?v ?s)) with (_default_handler s).
  unfold attached. strip_frames.
  rewrite !set_formatters_lookup, !getroot_handlers, !getroot_default_handler.
  done.
Qed.

Lemma dom_set_formatters fmt hs : forall hp, dom (set_formatters fmt hs hp) = dom hp.
Proof.
  induction hs as [|h hs IH]; intros hp; cbn; [done|].
  change (fold_left _ hs ?x) with (set_formatters fmt hs x).
  by rewrite IH, dom_alter_L.
Qed.

Lemma configure_first_object st :
  _default_handler st = None ->
  h_formatter <$> heap (exec _configure_library_root_logger st) !! fresh (dom (heap st)) =
    Some (if decide (environ st !! "TRANSFORMERS_VERBOSITY" = Some "detail")
          then Some detail_format else None).
Proof.
  intros Hnone. destruct (configure_first_heap st Hnone) as (_ & ->). cbv zeta.
  case_decide.
  - by rewrite !lookup_alter_eq, lookup_insert_eq.
  - by rewrite lookup_alter_eq, lookup_insert_eq.
Qed.

Lemma get_logger_outside name st :
  eval (get_logger name) st =
    Returned (eval_logger_name name) /\
  heap (exec (get_logger name) st) = heap (exec _configure_library_root_logger st) /\
  _default_handler (exec (get_logger name) st) =
    _default_handler (exec _configure_library_root_logger st) /\
  attached (exec (get_logger name) st) = attached (exec _configure_library_root_logger st).
Proof.
  destruct (configure_run st) as (h & Hrun & _).
  pose proof (logging_getLogger_ext
                (Some match name with None => _get_library_name | Some n => n end)
                (exec _configure_library_root_logger st)) as Hext.
  rewrite <- get_logger_exec in Hext.
  destruct (registry_ext_outside _ _ Hext) as (_ & _ & Hh & _ & _ & _ & _ & Hd & _).
  split; [|split; [exact Hh|split; [exact Hd|]]].
  - unfold eval, get_logger. rewrite (bind_run _ _ _ _ _ Hrun).
    unfold eval_logger_name, logging_getLogger.
    case_decide; [done|]. apply Manager_getLogger_eval.
  - destruct Hext as (_ & Hsame & _). apply Hsame.
Qed.

Lemma configure_attaches_default_handler st :
  _default_handler st = None ->
  fresh (dom (heap st)) ∈ attached (exec _configure_library_root_logger st).
Proof.
  intros Hnone.
  destruct (configure_first st Hnone) as (?&?&_&_&_&_&_&_&_&_&Hatt&_).
  rewrite Hatt. case_decide; [done|]. apply elem_of_app. right. by left.
Qed.

(** X14.  Formats and initialisation do not commute.  On a library not
    yet initialised, an explicit format asked for first is not given to
    the default handler that the next [get_logger] makes: that handler
    has the detail format when TRANSFORMERS_VERBOSITY is [detail] and no
    formatter otherwise.  And [reset_format] after initialisation leaves
    the default handler without formatter, the detail format included. *)
Theorem format_needs_initialised_library (st : State) :
  _default_handler st = None ->
  exists h,
    _default_handler (exec (enable_explicit_format >> get_logger None) st) = Some h /\
    h_formatter <$> heap (exec (enable_explicit_format >> get_logger None) st) !! h =
      Some (if decide (environ st !! "TRANSFORMERS_VERBOSITY" = Some "detail")
            then Some detail_format else None) /\
    _default_handler (exec (get_logger None >> reset_format) st) = Some h /\
    h_formatter <$> heap (exec (get_logger None >> reset_format) st) !! h = Some None.
Proof.
  intros Hnone. exists (fresh (dom (heap st))).
  assert (enable_explicit_format st =
            (Returned tt,
             with_heap (set_formatters (Some explicit_format) (attached st) (heap st))
               (exec _get_library_root_logger st))) as Hfmt
    by apply set_format_run.
  set (st1 := with_heap (set_formatters (Some explicit_format) (attached st) (heap st))
                (exec _get_library_root_logger st)) in *.
  assert (_default_handler st1 = None) as Hnone1
    by (subst st1; cbn; by rewrite getroot_default_handler).
  assert (dom (heap st1) = dom (heap st)) as Hdom
    by (subst st1; cbn; apply dom_set_formatters).
  assert (environ st1 = environ st) as Henv
    by (subst st1; cbn; apply getroot_environ).
  destruct (get_logger_outside None st1) as (_ & Hh1 & Hd1 & _).
  destruct (get_logger_outside None st) as (Hev & Hh & Hd & Hatt).
  destruct (configure_first st1 Hnone1) as (?&?&_&_&_&_&_&_&Hdh1&_).
  destruct (configure_first st Hnone) as (?&?&_&_&_&_&_&_&Hdh&_).
  assert (exec (enable_explicit_format >> get_logger None) st =
          exec (get_logger None) st1) as ->.
  { unfold exec at 1. by rewrite (bind_run _ _ _ _ _ Hfmt). }
  assert (exec (get_logger None >> reset_format) st =
          exec reset_format (exec (get_logger None) st)) as ->.
  { by rewrite exec_bind, Hev. }
  split; [by rewrite Hd1, Hdh1, Hdom|].
  split; [by rewrite Hh1, <- Hdom, configure_first_object, Henv|].
  unfold exec at 1 3. unfold reset_format. rewrite set_format_run. cbn [snd].
  change (_default_handler (with_heap ?v ?s)) with (_default_handler s).
  change (heap (with_heap ?v ?s)) with v.
  split; [by rewrite getroot_default_handler, Hd, Hdh|].
  rewrite set_formatters_lookup, Hatt, Hh.
  rewrite decide_True by by apply configure_attaches_default_handler.
  rewrite <- option_fmap_compose.
  pose proof (configure_first_object st Hnone) as Hobj.
  destruct (heap (exec _configure_library_root_logger st) !! fresh (dom (heap st)));
    [done | discriminate].
Qed.

Lemma format_needs_initialised_library_witness :
  let st := initial_state {["TRANSFORMERS_VERBOSITY" := "detail"]} false in
  _default_handler st = None /\
  exists h,
    h_formatter <$> heap (exec (enable_explicit_format >> get_logger None) st) !! h =
      Some (Some detail_format) /\
    h_formatter <$> heap (exec (get_logger None >> reset_format) st) !! h = Some None.
Proof.
  intros st.
  assert (_default_handler st = None) as H by reflexivity.
  split; [exact H|].
  destruct (format_needs_initialised_library st H) as (h & _ & H2 & _ & H4).
  exists h. split; [exact H2 | exact H4].
Defined.

(** ** Which logging functions raise *)

Lemma set_propagation_run b st :
  (_configure_library_root_logger >>
   let! library_root_logger := _get_library_root_logger in
   modify (update_logger library_root_logger (set_propagate b))) st =
  (Returned tt,
   update_logger library_root (set_propagate b)
     (exec _get_library_root_logger (exec _configure_library_root_logger st))).
Proof. run_configure h Hh. by run_getroot. Qed.

(** X15.  The logging functions that can raise.  This is about the
    functions of [Op] but the two progress-bar switches, which call into
    the hub library; the progress-bar factory and the null object are not
    among them.  Levels are integers, the arguments of the warning calls
    are positional strings, and the handlers deal with their own errors,
    as those of [logging] do.  One of these functions that raises is
    [add_handler] without a handler or [remove_handler], with
    [AssertionError], or one of the three warning calls made without a
    message, with [TypeError].  Every other one returns in every state. *)
Theorem operations_that_raise (o : Op) (st : State) (e : exn) :
  o <> OpEnableProgressBar ->
  o <> OpDisableProgressBar ->
  eval (run_op o) st = Raised e ->
  (o = OpAddHandler None /\ e = AssertionError) \/
  (exists h, o = OpRemoveHandler h /\ e = AssertionError) \/
  (exists self,
     (o = OpWarningAdvice self [] \/ o = OpWarningOnce self [] \/ o = OpInfoOnce self []) /\
     e = TypeError).
Proof.
  intros _ _. destruct o; unfold run_op, eval.
  - rewrite bind_run with (a := eval_logger_name name) (st' := exec (get_logger name) st);
      [done|].
    rewrite run_eq. by destruct (get_logger_outside name st) as (-> & _).
  - by destruct (captureWarnings_run capture st) as (h & _ & ->).
  - done.
  - rewrite (bind_run _ _ _ _ _ (get_verbosity_run st)). done.
  - by rewrite set_verbosity_run.
  - unfold set_verbosity_info. by rewrite set_verbosity_run.
  - unfold set_verbosity_warning. by rewrite set_verbosity_run.
  - unfold set_verbosity_debug. by rewrite set_verbosity_run.
  - unfold set_verbosity_error. by rewrite set_verbosity_run.
  - by destruct (disable_default_handler_run st) as (h & _ & ->).
  - by destruct (enable_default_handler_run st) as (h & _ & ->).
  - rewrite add_handler_run. destruct handler as [h|]; [done|].
    intros [= <-]. by left.
  - pose proof (remove_handler_run handler st) as Hrun. cbv zeta in Hrun.
    rewrite Hrun. right. left. exists handler.
    destruct handler as [h|]; [case_decide|]; by simplify_eq/=.
  - unfold disable_propagation. by rewrite set_propagation_run.
  - unfold enable_propagation. by rewrite set_propagation_run.
  - unfold enable_explicit_format. by rewrite set_format_run.
  - unfold reset_format. by rewrite set_format_run.
  - unfold warning_advice, os_getenv. rewrite bind_gets.
    destruct args as [|m rest].
    + destruct (environ st !! _) as [v|]; [destruct (str_truthy v); [done|]|];
        intros [= <-]; right; right; exists self; auto.
    + destruct (environ st !! _) as [v|]; [destruct (str_truthy v); [done|]|];
        by rewrite Logger_warning_run.
  - destruct (decide ((self, args) ∈ warning_once_cache st)) as [Hin|Hout].
    + by rewrite warning_once_hit.
    + destruct args as [|m rest].
      * rewrite warning_once_no_message by done.
        intros [= <-]; right; right; exists self; auto.
      * by rewrite warning_once_miss.
  - destruct (decide ((self, args) ∈ info_once_cache st)) as [Hin|Hout].
    + by rewrite info_once_hit.
    + destruct args as [|m rest].
      * rewrite info_once_no_message by done.
        intros [= <-]; right; right; exists self; auto.
      * by rewrite info_once_miss.
  - rewrite reset_run. by destruct (_default_handler st).
  - done.
  - done.
  - done.
Qed.

Lemma operations_that_raise_witness :
  eval (run_op (OpRemoveHandler (Some 0%nat)))
    (exec (get_logger None) (initial_state ∅ false)) = Raised AssertionError /\
  exists h, OpRemoveHandler (Some 0%nat) = OpRemoveHandler h.
Proof.
  assert (eval (run_op (OpRemoveHandler (Some 0%nat)))
            (exec (get_logger None) (initial_state ∅ false)) = Raised AssertionError)
    as H by (vm_compute; reflexivity).
  assert (OpRemoveHandler (Some 0%nat) <> OpEnableProgressBar) as H1 by discriminate.
  assert (OpRemoveHandler (Some 0%nat) <> OpDisableProgressBar) as H2 by discriminate.
  split; [exact H|].
  destruct (operations_that_raise _ _ _ H1 H2 H)
    as [[? _]|[(h & Hh & _)|(self & Hs & _)]].
  - discriminate.
  - by exists h.
  - destruct Hs as [?|[?|?]]; discriminate.
Defined.

(** ** Fetching loggers *)

(** X16.  [get_logger] is idempotent.  It returns in every state and
    leaves the library initialised; without a name it gives the library
    root logger, with the empty name the root logger of [logging], and
    with any other name but [root] the logger of that name, which then
    exists.  A second call with the same name gives the same logger and
    changes nothing. *)
Theorem get_logger_idempotent (st : State) (name : option string) :
  exists r,
    eval (get_logger name) st = Returned r /\
    get_logger name (exec (get_logger name) st) =
      (Returned r, exec (get_logger name) st) /\
    is_Some (_default_handler (exec (get_logger name) st)) /\
    (name = None -> r = library_root) /\
    (name = Some "" -> r = RootLogger) /\
    (forall n, name = Some n -> n <> "" -> n <> "root" ->
               r = Named n /\ is_logger n (exec (get_logger name) st)).
Proof.
  exists (eval_logger_name name).
  destruct (get_logger_outside name st) as (Hev & _ & Hdh & _).
  assert (is_Some (_default_handler (exec (get_logger name) st))) as Hinit
    by (rewrite Hdh; apply configure_initialises).
  assert (forall n, ~ (n = "" \/ n = "root") ->
            match name with None => _get_library_name | Some n => n end = n ->
            is_logger n (exec (get_logger name) st)) as Hlog.
  { intros n Hn Hname. rewrite get_logger_exec, Hname. unfold logging_getLogger.
    rewrite decide_False by done. apply Manager_getLogger_is_logger. }
  split; [exact Hev|]. split; [|split; [exact Hinit|split; [|split]]].
  - destruct Hinit as [h Hh]. unfold get_logger at 1.
    rewrite (bind_run _ _ _ _ _ (configure_done _ h Hh)).
    unfold eval_logger_name, logging_getLogger.
    set (n := match name with None => _get_library_name | Some n => n end) in *.
    case_decide as Hn; [done|].
    rewrite run_eq, Manager_getLogger_eval, Manager_getLogger_existing; [done|].
    by apply Hlog.
  - by intros ->.
  - by intros ->.
  - intros n -> Hn1 Hn2.
    assert (~ (n = "" \/ n = "root")) as Hn by (by intros [?|?]).
    split; [|by apply Hlog].
    unfold eval_logger_name. by rewrite decide_False.
Qed.

Lemma get_logger_idempotent_witness :
  let st := initial_state ∅ false in
  let n := "src.models" in
  n <> "" /\ n <> "root" /\
  exists r,
    r = Named n /\
    eval (get_logger (Some n)) st = Returned r /\
    get_logger (Some n) (exec (get_logger (Some n)) st) =
      (Returned r, exec (get_logger (Some n)) st).
Proof.
  intros st n.
  assert (n <> "") as H1 by discriminate.
  assert (n <> "root") as H2 by discriminate.
  split; [exact H1|]. split; [exact H2|].
  destruct (get_logger_idempotent st (Some n)) as (r & Hev & Hagain & _ & _ & _ & Hn).
  exists r. split; [exact (proj1 (Hn n eq_refl H1 H2))|]. split; [exact Hev | exact Hagain].
Defined.

(** ** The progress-bar switch *)

#[local] Instance same_progress_switch_preorder : PreOrder same_progress_switch.
Proof.
  split; unfold same_progress_switch; [done|].
  intros s1 s2 s3 [? ?] [? ?]. split; congruence.
Qed.

#[local] Instance same_progress_switch_ext : ExtClosed same_progress_switch.
Proof.
  intros st st' H. unfold same_progress_switch.
  by destruct (registry_ext_outside _ _ H) as (_&_&_&_&_&_&_&_&->&->&_).
Qed.

Lemma update_logger_progress_switch r f st :
  same_progress_switch st (update_logger r f st).
Proof.
  unfold same_progress_switch, update_logger. destruct r as [|n]; [done|].
  by destruct (loggerDict st !! n) as [[l|cs]|].
Qed.

Ltac progress_switch_leaf :=
  first [ apply update_logger_progress_switch | by split ].

Lemma run_op_same_progress_switch o :
  o <> OpEnableProgressBar -> o <> OpDisableProgressBar ->
  preserves same_progress_switch (run_op o).
Proof.
  intros H1 H2. destruct o; try done; unfold run_op;
    preserves_walk progress_switch_leaf.
Qed.

(** X17.  The progress-bar switch is sticky.  After
    [disable_progress_bar], and whatever operations other than the two
    switches follow, [is_progress_bar_enabled] answers false and the
    factory gives the null object built from the same arguments; after
    [enable_progress_bar] the answer is true and the factory gives the
    real progress bar with the arguments and keywords passed through.  In
    both cases the module has made one call into the hub library, asking
    for the same, and the operations that follow make none. *)
Theorem progress_switch_sticky {A} (st : State) (ops : list Op)
    (args : list (PyArg A)) (kwargs : list (string * PyArg A)) :
  (forall o, o ∈ ops -> o <> OpEnableProgressBar /\ o <> OpDisableProgressBar) ->
  let off := run_ops ops (exec disable_progress_bar st) in
  let on := run_ops ops (exec enable_progress_bar st) in
  is_progress_bar_enabled off = (Returned false, off) /\
  hub_calls off = hub_calls st ++ [HubDisableProgressBars] /\
  tqdm args kwargs off = (Returned (NullTqdm (mkEmptyTqdm (head args))), off) /\
  is_progress_bar_enabled on = (Returned true, on) /\
  hub_calls on = hub_calls st ++ [HubEnableProgressBars] /\
  tqdm args kwargs on = (Returned (RealTqdm args kwargs), on).
Proof.
  intros Hops off on.
  assert (forall st0, same_progress_switch st0 (run_ops ops st0)) as Hkeep.
  { intros st0. apply (run_ops_preserves same_progress_switch).
    intros o Ho. destruct (Hops o Ho). by apply run_op_same_progress_switch. }
  destruct (Hkeep (exec disable_progress_bar st)) as [Hoff1 Hoff2].
  destruct (Hkeep (exec enable_progress_bar st)) as [Hon1 Hon2].
  fold off in Hoff1, Hoff2. fold on in Hon1, Hon2.
  change (_tqdm_active (exec disable_progress_bar st)) with false in Hoff1.
  change (hub_calls (exec disable_progress_bar st))
    with (hub_calls st ++ [HubDisableProgressBars]) in Hoff2.
  change (_tqdm_active (exec enable_progress_bar st)) with true in Hon1.
  change (hub_calls (exec enable_progress_bar st))
    with (hub_calls st ++ [HubEnableProgressBars]) in Hon2.
  unfold is_progress_bar_enabled, tqdm, gets, bind.
  rewrite Hoff1, Hon1. done.
Qed.

Lemma progress_switch_sticky_witness :
  let ops := [OpSetVerbosityInfo; OpGetLogger None] in
  (forall o, o ∈ ops -> o <> OpEnableProgressBar /\ o <> OpDisableProgressBar) /\
  eval is_progress_bar_enabled (run_ops ops (exec disable_progress_bar (initial_state ∅ false)))
    = Returned false /\
  eval (tqdm [ArgIterable [1; 2]%nat] [])
    (run_ops ops (exec enable_progress_bar (initial_state ∅ true)))
    = Returned (RealTqdm [ArgIterable [1; 2]%nat] []) /\
  hub_calls (run_ops ops (exec enable_progress_bar (initial_state ∅ true)))
    = [HubEnableProgressBars].
Proof.
  intros ops.
  assert (forall o, o ∈ ops -> o <> OpEnableProgressBar /\ o <> OpDisableProgressBar) as H.
  { intros o [->|[->|?%not_elem_of_nil]%elem_of_cons]%elem_of_cons; done. }
  split; [exact H|].
  destruct (progress_switch_sticky (initial_state ∅ false) ops
              [ArgIterable [1; 2]%nat] [] H) as (H1 & _).
  destruct (progress_switch_sticky (initial_state ∅ true) ops
              [ArgIterable [1; 2]%nat] [] H) as (_ & _ & _ & _ & H5 & H6).
  unfold eval. rewrite H1, H6. split; [done|]. split; [done | exact H5].
Defined.

(** ** Where records go *)

Lemma callHandlers_walk_here fuel st r lvl h :
  h ∈ handlers (logger_at r st) -> handler_level h st <= lvl ->
  (ToHandler h ∈ (callHandlers_walk (S fuel) st (Some r) lvl).1) /\
  (0 < (callHandlers_walk (S fuel) st (Some r) lvl).2)%nat.
Proof.
  intros Hh Hl. cbn [callHandlers_walk fst snd]. split.
  - apply elem_of_app. left. apply list_elem_of_fmap. exists h. split; [done|].
    by apply list_elem_of_filter.
  - apply list_elem_of_split in Hh as (l1 & l2 & ->). rewrite length_app. simpl. lia.
Qed.

Lemma callHandlers_walk_up fuel st r p lvl :
  propagate (logger_at r st) = true -> parent (logger_at r st) = Some p ->
  (forall s, s ∈ (callHandlers_walk fuel st (Some p) lvl).1 ->
             s ∈ (callHandlers_walk (S fuel) st (Some r) lvl).1) /\
  ((callHandlers_walk fuel st (Some p) lvl).2 <=
   (callHandlers_walk (S fuel) st (Some r) lvl).2)%nat.
Proof.
  intros Hp Hpar. cbn [callHandlers_walk fst snd]. rewrite Hp, Hpar. split.
  - intros s Hs. apply elem_of_app. by right.
  - lia.
Qed.

Lemma Logger_callHandlers_found r lvl st s :
  s ∈ (callHandlers_walk (chain_fuel r) st (Some r) lvl).1 ->
  (0 < (callHandlers_walk (chain_fuel r) st (Some r) lvl).2)%nat ->
  s ∈ Logger_callHandlers r lvl st.
Proof.
  unfold Logger_callHandlers.
  destruct (callHandlers_walk (chain_fuel r) st (Some r) lvl) as [taken found].
  cbn [fst snd]. intros Hs Hf. destruct found; [lia | done].
Qed.

Lemma logger_at_set_propagate r r0 b st :
  level (logger_at r (update_logger r0 (set_propagate b) st)) = level (logger_at r st) /\
  parent (logger_at r (update_logger r0 (set_propagate b) st)) = parent (logger_at r st) /\
  disabled (logger_at r (update_logger r0 (set_propagate b) st)) =
    disabled (logger_at r st) /\
  handlers (logger_at r (update_logger r0 (set_propagate b) st)) =
    handlers (logger_at r st).
Proof.
  rewrite logger_at_update_logger. case_decide as E; [|done]. subst r0.
  destruct r as [|n]; cbn; [done|].
  by destruct (loggerDict st !! n) as [[l|cs]|].
Qed.

Lemma effective_level_walk_set_propagate r0 b st fuel : forall c,
  effective_level_walk fuel (update_logger r0 (set_propagate b) st) c =
  effective_level_walk fuel st c.
Proof.
  induction fuel as [|fuel IH]; intros [r|]; cbn [effective_level_walk]; try done.
  destruct (logger_at_set_propagate r r0 b st) as (-> & -> & _).
  case_decide; [apply IH | done].
Qed.

Lemma Logger_isEnabledFor_set_propagate r r0 b lvl st :
  Logger_isEnabledFor r lvl (update_logger r0 (set_propagate b) st) =
  Logger_isEnabledFor r lvl st.
Proof.
  unfold Logger_isEnabledFor, Logger_getEffectiveLevel.
  rewrite effective_level_walk_set_propagate, update_logger_manager_disable.
  by destruct (logger_at_set_propagate r r0 b st) as (_ & _ & -> & _).
Qed.

Lemma handler_level_update_logger h r f st :
  handler_level h (update_logger r f st) = handler_level h st.
Proof. unfold handler_level. by rewrite update_logger_heap. Qed.

(** X18.  With propagation on, the host application hears the library.
    On an initialised library whose root logger hangs below the root
    logger of [logging] and is enabled for WARNING, a warning logged on
    the library root logger after [enable_propagation] is emitted once,
    and it is handed to every handler of the library root logger and to
    every handler of the root logger of [logging] whose level lets a
    WARNING through. *)
Theorem propagation_reaches_root_handlers (st : State) (m : string)
    (rest : list string) :
  is_Some (_default_handler st) ->
  is_logger _get_library_name st ->
  parent (logger_at library_root st) = Some RootLogger ->
  Logger_isEnabledFor library_root WARNING st = true ->
  exists to,
    emitted (exec (enable_propagation >> Logger_warning library_root (m :: rest)) st) =
      emitted st ++ [mkEmission (mkLogRecord library_root WARNING m rest) to] /\
    (forall h, h ∈ attached st -> handler_level h st <= WARNING -> ToHandler h ∈ to) /\
    (forall h, h ∈ handlers (root st) -> handler_level h st <= WARNING ->
               ToHandler h ∈ to).
Proof.
  intros Hdh Hlog Hpar Hen.
  assert (enable_propagation st =
            (Returned tt, update_logger library_root (set_propagate true) st)) as Hrun.
  { unfold enable_propagation. rewrite set_propagation_run.
    by rewrite configure_exec_initialised, getroot_existing. }
  set (st1 := update_logger library_root (set_propagate true) st) in *.
  assert (Logger_isEnabledFor library_root WARNING st1 = true) as Hen1
    by (subst st1; by rewrite Logger_isEnabledFor_set_propagate).
  assert (logger_at library_root st1 = set_propagate true (logger_at library_root st))
    as Hlib by (subst st1; by apply library_root_update).
  assert (logger_at RootLogger st1 = root st) as Hroot
    by (subst st1; apply root_update_library_root).
  assert (forall h, handler_level h st1 = handler_level h st) as Hlev
    by (intros h; subst st1; apply handler_level_update_logger).
  exists (Logger_callHandlers library_root WARNING st1).
  split; [|split].
  - unfold exec. rewrite (bind_run _ _ _ _ _ Hrun), Logger_warning_run, Hen1.
    cbn [snd]. subst st1. by rewrite update_logger_emitted.
  - intros h Hh Hl.
    destruct (callHandlers_walk_here (S (String.length _get_library_name)) st1
                library_root WARNING h) as [H1 H2].
    + by rewrite Hlib.
    + by rewrite Hlev.
    + by apply Logger_callHandlers_found.
  - intros h Hh Hl.
    destruct (callHandlers_walk_up (S (String.length _get_library_name)) st1
                library_root RootLogger WARNING) as [H1 H2].
    + by rewrite Hlib.
    + by rewrite Hlib.
    + destruct (callHandlers_walk_here (String.length _get_library_name) st1
                  RootLogger WARNING h) as [H3 H4].
      * by rewrite Hroot.
      * by rewrite Hlev.
      * apply Logger_callHandlers_found; [by apply H1|].
        unfold chain_fuel, library_root, logger_name in *. lia.
Qed.

Lemma propagation_reaches_root_handlers_witness :
  let app :=
    with_root (mkLogger [5%nat] WARNING true None false)
      (with_heap {[5%nat := mkHandlerObj NOTSET None (Some OriginalStderr) OwnFlush]}
         (initial_state ∅ false)) in
  let st := exec (get_logger None) app in
  is_Some (_default_handler st) /\
  is_logger _get_library_name st /\
  parent (logger_at library_root st) = Some RootLogger /\
  Logger_isEnabledFor library_root WARNING st = true /\
  exists to,
    emitted (exec (enable_propagation >> Logger_warning library_root ["X"]) st) =
      emitted st ++ [mkEmission (mkLogRecord library_root WARNING "X" []) to] /\
    ToHandler 5%nat ∈ to.
Proof.
  intros app st.
  assert (is_Some (_default_handler st)) as H1 by (vm_compute; eauto).
  assert (is_logger _get_library_name st) as H2 by (vm_compute; eauto).
  assert (parent (logger_at library_root st) = Some RootLogger) as H3
    by (vm_compute; reflexivity).
  assert (Logger_isEnabledFor library_root WARNING st = true) as H4
    by (vm_compute; reflexivity).
  split; [exact H1|]. split; [exact H2|]. split; [exact H3|]. split; [exact H4|].
  destruct (propagation_reaches_root_handlers st "X" [] H1 H2 H3 H4)
    as (to & Hem & _ & Hroot).
  exists to. split; [exact Hem|]. apply Hroot.
  - vm_compute. left.
  - vm_compute. discriminate.
Defined.

(** X19.  Disabling the default handler does not silence the library.  On
    a library not yet initialised and with no handler on its root logger,
    [disable_default_handler] leaves that logger without handler and
    without propagation, so a warning logged on it afterwards (the logger
    being enabled for WARNING) is still emitted and goes to the handler of
    last resort of [logging]. *)
Theorem disabled_default_handler_uses_last_resort (st : State) (m : string)
    (rest : list string) :
  _default_handler st = None ->
  attached st = [] ->
  Logger_isEnabledFor library_root WARNING (exec disable_default_handler st) = true ->
  attached (exec disable_default_handler st) = [] /\
  emitted (exec (disable_default_handler >> Logger_warning library_root (m :: rest)) st) =
    emitted (exec disable_default_handler st) ++
      [mkEmission (mkLogRecord library_root WARNING m rest) [ToLastResort]].
Proof.
  intros Hnone Hatt.
  destruct (disable_default_handler_run st) as (h & Hh & Hrun).
  destruct (configure_first st Hnone)
    as (st5 & lvl & _ & _ & _ & _ & _ & _ & Hdh & Hlog & Hatt1 & _ & Hp & _).
  rewrite Hatt in Hatt1. rewrite decide_False in Hatt1 by apply not_elem_of_nil.
  rewrite Hdh in Hh. injection Hh as <-.
  unfold exec at 1 2 3 4. rewrite (bind_run _ _ _ _ _ Hrun), Hrun. cbn [snd].
  set (st1 := update_logger library_root (detach (fresh (dom (heap st))))
                (exec _get_library_root_logger (exec _configure_library_root_logger st))).
  assert (handlers (logger_at library_root st1) = []) as Hnil.
  { subst st1. library_root_at. fold (attached (exec _configure_library_root_logger st)).
    rewrite Hatt1. cbn. rewrite decide_True by left. cbn. by rewrite decide_True. }
  assert (propagate (logger_at library_root st1) = false) as Hp1
    by (subst st1; by library_root_at).
  intros Hen. split; [exact Hnil|].
  rewrite Logger_warning_run, Hen. cbn. do 3 f_equal.
  unfold Logger_callHandlers, chain_fuel. cbn [callHandlers_walk].
  by rewrite Hnil, Hp1.
Qed.

Lemma disabled_default_handler_uses_last_resort_witness :
  let st := initial_state ∅ false in
  _default_handler st = None /\ attached st = [] /\
  Logger_isEnabledFor library_root WARNING (exec disable_default_handler st) = true /\
  emitted (exec (disable_default_handler >> Logger_warning library_root ["X"]) st) =
    [mkEmission (mkLogRecord library_root WARNING "X" []) [ToLastResort]].
Proof.
  intros st.
  assert (_default_handler st = None) as H1 by reflexivity.
  assert (attached st = []) as H2 by reflexivity.
  assert (Logger_isEnabledFor library_root WARNING (exec disable_default_handler st) = true)
    as H3 by (vm_compute; reflexivity).
  split; [exact H1|]. split; [exact H2|]. split; [exact H3|].
  exact (proj2 (disabled_default_handler_uses_last_resort st "X" [] H1 H2 H3)).
Defined.

(** ** The verbosity the environment asks for *)

(** X20.  A recognised verbosity name is obeyed silently.  When the first
    initialisation finds TRANSFORMERS_VERBOSITY set to one of the names of
    [log_levels], [get_verbosity] returns the level listed for that name
    and nothing is logged; when the variable is not set, it returns
    WARNING and nothing is logged either. *)
Theorem recognised_verbosity_is_obeyed (st : State) (v : string) (lvl : Z) :
  _default_handler st = None ->
  (environ st !! "TRANSFORMERS_VERBOSITY" = Some v ->
   dict_get log_levels v = Some lvl ->
   eval get_verbosity st = Returned lvl /\
   emitted (exec get_verbosity st) = emitted st) /\
  (environ st !! "TRANSFORMERS_VERBOSITY" = None ->
   eval get_verbosity st = Returned WARNING /\
   emitted (exec get_verbosity st) = emitted st).
Proof.
  intros Hnone.
  destruct (configure_first st Hnone)
    as (st5 & l & Hlvl & Henv & _ & _ & Hem & _ & _ & _ & _ & Hl & _ & Hemit).
  assert (eval get_verbosity st =
          Returned (Logger_getEffectiveLevel library_root
                      (exec _get_library_root_logger
                         (exec _configure_library_root_logger st)))) as ->
    by (unfold eval; by rewrite get_verbosity_run).
  assert (emitted (exec get_verbosity st) =
          emitted (exec _get_default_logging_level st5)) as ->.
  { unfold exec at 1. rewrite get_verbosity_run. cbn [snd].
    by rewrite getroot_emitted. }
  pose proof (_get_default_logging_level_run st5) as Hrun. rewrite Henv in Hrun.
  unfold eval in Hlvl. unfold exec at 3 6. rewrite Hrun in *. clear Hrun.
  split.
  - intros Hv Hk. rewrite Hv, Hk in *.
    destruct v as [|c v]; [done|]. cbn [str_truthy fst snd] in *.
    injection Hlvl as <-. split; [|done]. f_equal.
    rewrite Logger_getEffectiveLevel_own; rewrite getroot_level, Hl; [done|].
    by eapply dict_get_log_levels_nonzero.
  - intros Hv. rewrite Hv in *. cbn [fst snd] in *.
    injection Hlvl as <-. split; [|done]. f_equal.
    rewrite Logger_getEffectiveLevel_own; rewrite getroot_level, Hl; done.
Qed.

Lemma recognised_verbosity_is_obeyed_witness :
  let st := initial_state {["TRANSFORMERS_VERBOSITY" := "error"]} false in
  _default_handler st = None /\
  environ st !! "TRANSFORMERS_VERBOSITY" = Some "error" /\
  dict_get log_levels "error" = Some ERROR /\
  eval get_verbosity st = Returned ERROR /\
  emitted (exec get_verbosity st) = emitted st.
Proof.
  intros st.
  assert (_default_handler st = None) as H1 by reflexivity.
  assert (environ st !! "TRANSFORMERS_VERBOSITY" = Some "error") as H2 by reflexivity.
  assert (dict_get log_levels "error" = Some ERROR) as H3 by reflexivity.
  split; [exact H1|]. split; [exact H2|]. split; [exact H3|].
  exact (proj1 (recognised_verbosity_is_obeyed st "error" ERROR H1) H2 H3).
Defined.

(** ** The null progress object without an iterable *)

(** X21.  With progress bars disabled, a progress bar made without
    positional argument, or with a first positional argument that is not
    an iterable, cannot be iterated: the factory returns the null object,
    keyword arguments are dropped, and iterating raises [TypeError]
    leaving the state as it was. *)
Theorem null_progress_needs_positional_iterable {A} (st : State)
    (kwargs : list (string * PyArg A)) (repr : string) (more : list (PyArg A)) :
  let off := exec disable_progress_bar st in
  let none : EmptyTqdm A := mkEmptyTqdm None in
  let other : EmptyTqdm A := mkEmptyTqdm (Some (ArgOther repr)) in
  tqdm [] kwargs off = (Returned (NullTqdm none), off) /\
  EmptyTqdm_invoke none CallIter off = (Raised TypeError, off) /\
  tqdm (ArgOther repr :: more) kwargs off = (Returned (NullTqdm other), off) /\
  EmptyTqdm_invoke other CallIter off = (Raised TypeError, off).
Proof. by repeat split. Qed.
